(** * NFTX order reconciliation: [src/orderbook/orders/nftx/index.ts]

    A shallow embedding of [getOrderId] and [save] (with its inner
    [handleOrder], the buy leg, the sell leg and the per-token body of the
    sell loop), and the properties of the specification proved or refuted
    on it.

    Conventions of the embedding.
    - Addresses are the byte strings ethers' [arrayify] reads from the hex
      text; the pool of an event is kept as the text the event spells
      ([op_poolText]), which is what line 55 compares, and [op_pool] is
      the address that text denotes.  Token ids, prices and basis points
      are the integers their decimal texts denote (registry bps are
      integers and their sum is exact).
    - [bn(x)] is ethers' arbitrary-precision [BigNumber]: [mul], [add] and
      [sub] are exact and [div] truncates toward zero ([Z.quot]); a JS
      number handed to it ([mul(bpsDiff)]) is refused, with a throw, when
      its magnitude is [2^53 - 1] or more.
    - Every external collaborator is a field of [Env]; it answers either
      with a value or by throwing ([Outcome]).  The relational store is an
      in-memory table; reads ([redb]) and writes ([idb]) see the same
      table and do not fail.
    - [save] runs [handleOrder] for the events of a batch one after the
      other, in batch order.  (The source starts up to 20 of them at once;
      they interleave at their [await]s.  [feeBps] and [feeBreakdown] are
      locals of each call, [results], [orderValues] and the table are
      shared, and no row is inserted before all of them have finished.)
    - A JS array is a mutable object: a row pushed onto [orderValues]
      holds the [feeBreakdown] array itself, not a copy, and the bulk
      insert serialises it as it is when [save] flushes; an [UPDATE]
      serialises its parameters when it is sent. *)

From Stdlib Require Import List ZArith NArith Bool Ascii String Lia.
From Stdlib Require Import Strings.Byte Sorting.Permutation.
Import ListNotations.

Local Open Scope Z_scope.

Set Implicit Arguments.

(** ** Outcomes of fallible calls *)

Inductive Outcome (A : Type) : Type :=
| Return (a : A)
| Throw.

Arguments Return {A} a.
Arguments Throw {A}.

(** ** Bytes, addresses and ethers' tightly packed encoding *)

Definition Bytes : Type := list byte.
Definition Address : Type := Bytes.
Definition TokenId : Type := N.

Definition byte_of_N (n : N) : byte :=
  match Byte.of_N (n mod 256)%N with
  | Some b => b
  | None => x00
  end.

(** [n] bytes of [v], most significant first. *)
Fixpoint be_bytes (n : nat) (v : N) : Bytes :=
  match n with
  | O => []
  | S k => be_bytes k (v / 256)%N ++ [byte_of_N v]
  end.

Definition bytes_eqb (a b : Bytes) : bool :=
  if list_eq_dec Byte.byte_eq_dec a b then true else false.

Definition AddressZero : Address := repeat x00 20.

(** ethers' [arrayify] of a hex text: [0x] and an even number of hex
    digits of either case; anything else throws. *)
Definition hexDigit (c : ascii) : option N :=
  let n := N_of_ascii c in
  if ((48 <=? n) && (n <=? 57))%N then Some (n - 48)%N
  else if ((97 <=? n) && (n <=? 102))%N then Some (n - 87)%N
  else if ((65 <=? n) && (n <=? 70))%N then Some (n - 55)%N
  else None.

Fixpoint hexPairs (hex : string) : Outcome Bytes :=
  match hex with
  | EmptyString => Return []
  | String _ EmptyString => Throw
  | String hi (String lo rest) =>
      match hexDigit hi, hexDigit lo, hexPairs rest with
      | Some h, Some l, Return bs => Return (byte_of_N (16 * h + l) :: bs)
      | _, _, _ => Throw
      end
  end.

Definition arrayify (text : string) : Outcome Bytes :=
  match text with
  | String "0" (String "x" hex) => hexPairs hex
  | _ => Throw
  end.

(** The values [getOrderId] hands to [keccak256(types, values)]. *)
Inductive SolValue : Type :=
| SolString (s : string)
| SolAddress (a : Address)
| SolUint256 (v : option TokenId).

(** ethers' [_pack]: a string is its UTF-8 bytes, an address the bytes of
    its hex text, a [uint256] is [zeroPad(BigNumber.from(v), 32)], which
    throws for [undefined] and for a value that needs more than 32 bytes. *)
Definition pack (v : SolValue) : Outcome Bytes :=
  match v with
  | SolString s => Return (list_byte_of_string s)
  | SolAddress a => Return a
  | SolUint256 None => Throw
  | SolUint256 (Some t) =>
      if (t <? 2 ^ 256)%N then Return (be_bytes 32 t) else Throw
  end.

Fixpoint solidityPack (vs : list SolValue) : Outcome Bytes :=
  match vs with
  | [] => Return []
  | v :: rest =>
      match pack v, solidityPack rest with
      | Return b, Return bs => Return (b ++ bs)
      | _, _ => Throw
      end
  end.

(** The hash is an interface: a digest type with decidable equality and
    the function from packed bytes to digests. *)
Class Keccak : Type := {
  Digest : Type;
  digest_eqb : Digest -> Digest -> bool;
  digest_eqb_spec : forall a b, reflect (a = b) (digest_eqb a b);
  keccak256 : Bytes -> Digest
}.

(** Collision-freedom, where a property asks for it. *)
Definition collision_free (K : Keccak) : Prop :=
  forall x y : Bytes, keccak256 x = keccak256 y -> x = y.

Inductive Side : Type := sell | buy.

Definition side_text (s : Side) : string :=
  match s with sell => "sell" | buy => "buy" end.

Definition side_eqb (a b : Side) : bool :=
  match a, b with
  | sell, sell | buy, buy => true
  | _, _ => false
  end.

Section OrderId.
Context {K : Keccak}.

Definition solidityKeccak256 (vs : list SolValue) : Outcome Digest :=
  match solidityPack vs with
  | Return b => Return (keccak256 b)
  | Throw => Throw
  end.

(** [getOrderId], lines 35-40. *)
Definition getOrderId (pool : Address) (side : Side) (tokenId : option TokenId)
  : Outcome Digest :=
  match side with
  | buy =>
      solidityKeccak256 [SolString "nftx"; SolAddress pool; SolString (side_text side)]
  | sell =>
      solidityKeccak256
        [SolString "nftx"; SolAddress pool; SolString (side_text side); SolUint256 tokenId]
  end.

End OrderId.

(** A stand-in hash without collisions (the digest is the packed text
    itself), used to run the model on concrete inputs. *)
Definition bytes_eqb_spec (a b : Bytes) : reflect (a = b) (bytes_eqb a b).
Proof.
  unfold bytes_eqb. destruct (list_eq_dec Byte.byte_eq_dec a b); constructor; assumption.
Defined.

#[global] Instance plainDigest : Keccak := {|
  Digest := Bytes;
  digest_eqb := bytes_eqb;
  digest_eqb_spec := bytes_eqb_spec;
  keccak256 := fun b => b
|}.

(** ** Data of the reconciliation *)

(** [orderParams] of an [OrderInfo] ([metadata] is never read by [save]);
    [op_poolText] is [orderParams.pool], the pool as the event spells it. *)
Record OrderParams : Type := {
  op_poolText : string;
  op_txTimestamp : Z;
  op_txHash : string
}.

(** The address [orderParams.pool] denotes where it is packed or handed
    to a collaborator.  A text that is no hex text denotes none; the only
    text that gets past line 55 is the allow-listed one. *)
Definition op_pool (orderParams : OrderParams) : Address :=
  match arrayify (op_poolText orderParams) with
  | Return a => a
  | Throw => []
  end.

(** What [nftx.getNftPoolDetails] returns. *)
Record NftPool : Type := {
  pool_address : Address;
  pool_nft : Address;
  pool_vaultId : N
}.

(** One quote of [Sdk.Nftx.Helpers.getPoolPrice].  A price that is
    [null], [undefined] or empty (falsy) is [None]. *)
Record PoolPrice : Type := {
  pp_sell : option Z;
  pp_buy : option Z;
  raw_sell : option Z;
  raw_buy : option Z;
  bps_sell : Z;
  bps_buy : Z;
  pp_currency : Address
}.

Record Royalty : Type := {
  roy_recipient : Address;
  roy_bps : Z
}.

Record FeeEntry : Type := {
  fee_kind : string;
  fee_recipient : Address;
  fee_entry_bps : Z
}.

Record MissingRoyalty : Type := {
  mr_bps : Z;
  mr_amount : Z;
  mr_recipient : Address
}.

(** [sdkOrder.params], the payload kept in [raw_data]. *)
Record SdkParams : Type := {
  sdk_vaultId : N;
  sdk_collection : Address;
  sdk_pool : Address;
  sdk_specificIds : list TokenId;
  sdk_currency : Address;
  sdk_amount : option N;
  sdk_path : list Address;
  sdk_price : Z;
  sdk_extra_prices : list Z
}.

Inductive Expiration : Type :=
| Infinity
| ToTimestamp (t : Z).

(** [tstzrange(date_trunc('seconds', to_timestamp(from)), 'Infinity', '[]')] *)
Record ValidBetween : Type := {
  valid_from : Z;
  valid_to : Expiration
}.

Inductive TriggerKind : Type := new_order | reprice.

Definition triggerKind_eqb (a b : TriggerKind) : bool :=
  match a, b with
  | new_order, new_order | reprice, reprice => true
  | _, _ => false
  end.

Section Model.
Context {K : Keccak}.

Record SaveResult : Type := {
  res_id : Digest;
  res_txHash : string;
  res_status : string;
  res_triggerKind : option TriggerKind
}.

(** A row of [orders] as [save] writes it (the columns it always writes
    as [null] are left out).  [FB] is what the row holds in
    [fee_breakdown]: a reference to the array while the row waits in
    [orderValues], the serialised entries once it is in the table. *)
Record DbOrder (FB : Type) : Type := {
  id : Digest;
  kind : string;
  side : Side;
  fillability_status : string;
  approval_status : string;
  token_set_id : string;
  token_set_schema_hash : Bytes;
  maker : Address;
  taker : Address;
  price : Z;
  value : Z;
  currency : Address;
  currency_price : Z;
  currency_value : Z;
  quantity_remaining : N;
  valid_between : ValidBetween;
  source_id_int : option Z;
  contract : Address;
  fee_bps : Z;
  fee_breakdown : FB;
  raw_data : SdkParams;
  expiration : Expiration;
  missing_royalties : list MissingRoyalty;
  normalized_value : Z;
  currency_normalized_value : Z
}.

(** A reference to a [feeBreakdown] array: its index in [arrays]. *)
Definition Ref : Type := nat.

Definition Row : Type := DbOrder (list FeeEntry).
Definition Table : Type := list Row.

(** The named parameters of the two repricing [UPDATE]s. *)
Record UpdateParams : Type := {
  u_id : Digest;
  u_price : Z;
  u_value : Z;
  u_rawData : SdkParams;
  u_quantityRemaining : N;
  u_missingRoyalties : list MissingRoyalty;
  u_normalizedValue : Z;
  u_currencyNormalizedValue : Z;
  u_feeBps : Z;
  u_feeBreakdown : list FeeEntry
}.

(** The statements [save] sends through [idb.none]: the buy leg's
    repricing [UPDATE] (lines 218-250), the sell loop's (lines 421-452,
    [quantity_remaining = 1]), the buy leg's [no-balance] [UPDATE]
    (lines 259-268) and the bulk [INSERT ... ON CONFLICT DO NOTHING]
    (line 521). *)
Inductive IdbStatement : Type :=
| UpdateBuy (txTimestamp : Z) (u : UpdateParams)
| UpdateSell (txTimestamp : Z) (u : UpdateParams)
| UpdateNoBalance (txTimestamp : Z) (i : Digest)
| InsertOnConflictDoNothing (rows : list Row).

(** The collaborators of [save]. *)
Record Env : Type := {
  getNftPoolDetails : Address -> Outcome (option NftPool);
  (** [getPoolPrice(pool, amount, slippage, chainId, provider)] with the
      fixed slippage, chain and provider. *)
  getPoolPrice : Address -> nat -> Outcome PoolPrice;
  (** [getRoyaltiesByTokenSet(`contract:${nft}`, "default")] *)
  getRoyaltiesByTokenSet : Address -> Outcome (list Royalty);
  (** [tokenSet.contractWide.save]: the [id] of the first saved set. *)
  contractWide_save : Address -> Outcome (option string);
  (** [tokenSet.singleToken.save] *)
  singleToken_save : Address -> TokenId -> Outcome (option string);
  (** [(await Sources.getInstance()).getOrInsert("nftx.io")]: [source?.id] *)
  sources_getOrInsert : Outcome (option Z);
  (** [commonHelpers.getNfts(contract, owner)] *)
  getNfts : Address -> Address -> Outcome (list TokenId);
  (** [Sdk.Common.Addresses.Weth[config.chainId]] *)
  Weth : Address;
  generateSchemaHash : Bytes
}.

(** ** The mutable state [handleOrder] works on

    [orders] is the table; [arrays] holds the [feeBreakdown] arrays
    allocated so far; [orderValues] and [results] are the two
    accumulators of [save]; [idb] records the statements sent, oldest
    first; [feeBps] and [feeBreakdown] are the two locals of the running
    [handleOrder] that both legs share. *)
Record State : Type := {
  orders : Table;
  arrays : list (list FeeEntry);
  orderValues : list (DbOrder Ref);
  results : list SaveResult;
  idb : list IdbStatement;
  feeBps : Z;
  feeBreakdown : Ref
}.

Definition set_orders (f : Table -> Table) (s : State) : State :=
  {| orders := f (orders s); arrays := arrays s; orderValues := orderValues s;
     results := results s; idb := idb s; feeBps := feeBps s;
     feeBreakdown := feeBreakdown s |}.

Definition set_arrays (f : list (list FeeEntry) -> list (list FeeEntry)) (s : State) : State :=
  {| orders := orders s; arrays := f (arrays s); orderValues := orderValues s;
     results := results s; idb := idb s; feeBps := feeBps s;
     feeBreakdown := feeBreakdown s |}.

Definition set_orderValues (f : list (DbOrder Ref) -> list (DbOrder Ref)) (s : State) : State :=
  {| orders := orders s; arrays := arrays s; orderValues := f (orderValues s);
     results := results s; idb := idb s; feeBps := feeBps s;
     feeBreakdown := feeBreakdown s |}.

Definition set_results (f : list SaveResult -> list SaveResult) (s : State) : State :=
  {| orders := orders s; arrays := arrays s; orderValues := orderValues s;
     results := f (results s); idb := idb s; feeBps := feeBps s;
     feeBreakdown := feeBreakdown s |}.

Definition set_idb (f : list IdbStatement -> list IdbStatement) (s : State) : State :=
  {| orders := orders s; arrays := arrays s; orderValues := orderValues s;
     results := results s; idb := f (idb s); feeBps := feeBps s;
     feeBreakdown := feeBreakdown s |}.

Definition set_feeBps (v : Z) (s : State) : State :=
  {| orders := orders s; arrays := arrays s; orderValues := orderValues s;
     results := results s; idb := idb s; feeBps := v;
     feeBreakdown := feeBreakdown s |}.

Definition set_feeBreakdown (r : Ref) (s : State) : State :=
  {| orders := orders s; arrays := arrays s; orderValues := orderValues s;
     results := results s; idb := idb s; feeBps := feeBps s;
     feeBreakdown := r |}.

(** ** Computations that mutate the state and may throw

    A throw keeps the mutations made before it, as in JavaScript. *)
Definition M (A : Type) : Type := State -> Outcome A * State.

Definition ret {A} (a : A) : M A := fun s => (Return a, s).

Definition bind {A B} (m : M A) (k : A -> M B) : M B :=
  fun s =>
    match m s with
    | (Return a, s') => k a s'
    | (Throw, s') => (Throw, s')
    end.

Definition throw {A} : M A := fun s => (Throw, s).

(** [await] of a collaborator. *)
Definition await {A} (o : Outcome A) : M A := fun s => (o, s).

(** [try { m } catch { }]: the handlers of [save] only log. *)
Definition try_catch (m : M unit) : M unit :=
  fun s => (Return tt, snd (m s)).

Definition gets {A} (f : State -> A) : M A := fun s => (Return (f s), s).

Definition modify (f : State -> State) : M unit := fun s => (Return tt, f s).

(** [for (const x of xs) body(x)] *)
Fixpoint for_of {A} (xs : list A) (body : A -> M unit) : M unit :=
  match xs with
  | [] => ret tt
  | x :: rest => bind (body x) (fun _ => for_of rest body)
  end.

End Model.

Declare Scope m_scope.
Delimit Scope m_scope with M.
Notation "x <- c ;; k" := (bind c (fun x => k))
  (at level 61, c at next level, right associativity) : m_scope.
Notation "c ;; k" := (bind c (fun _ => k))
  (at level 61, right associativity) : m_scope.

Declare Scope o_scope.
Delimit Scope o_scope with O.

(** Sequencing of fallible calls that touch no state. *)
Definition and_then {A B} (o : Outcome A) (k : A -> Outcome B) : Outcome B :=
  match o with
  | Return a => k a
  | Throw => Throw
  end.

Notation "x <- c ;; k" := (and_then c (fun x => k))
  (at level 61, c at next level, right associativity) : o_scope.

Local Open Scope m_scope.

Section Save.
Context {K : Keccak}.

(** ** The table behind [redb] and [idb] *)

Definition ids (t : Table) : list Digest := map (fun r => id r) t.

Definition present (l : list Digest) (i : Digest) : bool :=
  existsb (fun j => digest_eqb j i) l.

(** [SELECT 1 FROM orders WHERE orders.id = $/id/] *)
Definition oneOrNone (t : Table) (i : Digest) : bool := present (ids t) i.

(** The [SET] list of the two repricing [UPDATE]s. *)
Definition reprice_row (txTimestamp : Z) (quantity : N) (u : UpdateParams) (r : Row) : Row :=
  {| id := id r; kind := kind r; side := side r;
     fillability_status := "fillable";
     approval_status := approval_status r;
     token_set_id := token_set_id r;
     token_set_schema_hash := token_set_schema_hash r;
     maker := maker r; taker := taker r;
     price := u_price u; value := u_value u;
     currency := currency r;
     currency_price := u_price u; currency_value := u_value u;
     quantity_remaining := quantity;
     valid_between := {| valid_from := txTimestamp; valid_to := Infinity |};
     source_id_int := source_id_int r;
     contract := contract r;
     fee_bps := u_feeBps u; fee_breakdown := u_feeBreakdown u;
     raw_data := u_rawData u;
     expiration := Infinity;
     missing_royalties := u_missingRoyalties u;
     normalized_value := u_normalizedValue u;
     currency_normalized_value := u_currencyNormalizedValue u |}.

(** The [SET] list of the [no-balance] [UPDATE]. *)
Definition no_balance_row (txTimestamp : Z) (r : Row) : Row :=
  {| id := id r; kind := kind r; side := side r;
     fillability_status := "no-balance";
     approval_status := approval_status r;
     token_set_id := token_set_id r;
     token_set_schema_hash := token_set_schema_hash r;
     maker := maker r; taker := taker r;
     price := price r; value := value r;
     currency := currency r;
     currency_price := currency_price r; currency_value := currency_value r;
     quantity_remaining := quantity_remaining r;
     valid_between := valid_between r;
     source_id_int := source_id_int r;
     contract := contract r;
     fee_bps := fee_bps r; fee_breakdown := fee_breakdown r;
     raw_data := raw_data r;
     expiration := ToTimestamp txTimestamp;
     missing_royalties := missing_royalties r;
     normalized_value := normalized_value r;
     currency_normalized_value := currency_normalized_value r |}.

(** [UPDATE orders SET ... WHERE orders.id = $/id/] *)
Definition update_where (i : Digest) (f : Row -> Row) (t : Table) : Table :=
  map (fun r => if digest_eqb (id r) i then f r else r) t.

(** [INSERT ... ON CONFLICT DO NOTHING]: a row whose id is already in
    the table (or earlier in the same statement) is skipped. *)
Fixpoint insert_on_conflict_do_nothing (rows : list Row) (t : Table) : Table :=
  match rows with
  | [] => t
  | r :: rest =>
      insert_on_conflict_do_nothing rest (if oneOrNone t (id r) then t else t ++ [r])
  end.

Definition run_statement (t : Table) (st : IdbStatement) : Table :=
  match st with
  | UpdateBuy ts u => update_where (u_id u) (reprice_row ts (u_quantityRemaining u) u) t
  | UpdateSell ts u => update_where (u_id u) (reprice_row ts 1%N u) t
  | UpdateNoBalance ts i => update_where i (no_balance_row ts) t
  | InsertOnConflictDoNothing rows => insert_on_conflict_do_nothing rows t
  end.

(** [await idb.none(statement)] *)
Definition idb_none (st : IdbStatement) : M unit :=
  modify (fun s => set_idb (fun l => l ++ [st]) (set_orders (fun t => run_statement t st) s)).

(** [await redb.oneOrNone(...)] *)
Definition redb_oneOrNone (i : Digest) : M bool :=
  gets (fun s => oneOrNone (orders s) i).

(** ** The [feeBreakdown] arrays *)

Fixpoint array_push (r : Ref) (e : FeeEntry) (h : list (list FeeEntry)) : list (list FeeEntry) :=
  match h, r with
  | [], _ => []
  | a :: h', O => (a ++ [e]) :: h'
  | a :: h', S r' => a :: array_push r' e h'
  end.

Definition deref (h : list (list FeeEntry)) (r : Ref) : list FeeEntry := nth r h [].

(** [let feeBps = 0; const feeBreakdown = [];] (lines 73-78) *)
Definition declare_fees : M unit :=
  modify (fun s =>
    set_feeBps 0 (set_feeBreakdown (List.length (arrays s)) (set_arrays (fun h => h ++ [[]]) s))).

(** [feeBreakdown.push(e)] *)
Definition feeBreakdown_push (e : FeeEntry) : M unit :=
  modify (fun s => set_arrays (array_push (feeBreakdown s) e) s).

Definition orderValues_push (r : DbOrder Ref) : M unit :=
  modify (set_orderValues (fun l => l ++ [r])).

Definition results_push (r : SaveResult) : M unit :=
  modify (set_results (fun l => l ++ [r])).

(** ** Royalties on top (lines 109-130 and, verbatim, 311-330)

    [price] is [prices[0]], absent when no quote carries a raw price of
    the leg's direction; [bn(price)] then throws.  [mul(bpsDiff)] turns
    the JS number [bpsDiff] into a [BigNumber], which throws for a number
    of magnitude [MAX_SAFE] or more. *)
Definition MAX_SAFE : Z := 2 ^ 53 - 1.

Definition safe_number (n : Z) : bool := negb ((MAX_SAFE <=? n) || (n <=? - MAX_SAFE)).

Definition totalDefaultBps (defaultRoyalties : list Royalty) : Z :=
  fold_left Z.add (map roy_bps defaultRoyalties) 0.

Definition validRecipients (defaultRoyalties : list Royalty) : list Royalty :=
  filter (fun r => negb (roy_bps r =? 0) && negb (bytes_eqb (roy_recipient r) AddressZero))
         defaultRoyalties.

Definition royaltiesOnTop (price : option Z) (defaultRoyalties : list Royalty)
  : Outcome (list MissingRoyalty * Z) :=
  let totalBuiltInBps := 0 in
  if totalBuiltInBps <? totalDefaultBps defaultRoyalties then
    match validRecipients defaultRoyalties with
    | [] => Return ([], 0)
    | first :: _ =>
        let bpsDiff := totalDefaultBps defaultRoyalties - totalBuiltInBps in
        match price with
        | None => Throw
        | Some p =>
            if safe_number bpsDiff then
              let amount := Z.quot (p * bpsDiff) 10000 in
              Return ([{| mr_bps := bpsDiff; mr_amount := amount;
                          mr_recipient := roy_recipient first |}],
                      0 + amount)
            else Throw
        end
    end
  else Return ([], 0).

(** [price.toString()] inside the order literal throws on an absent price. *)
Definition toString (price : option Z) : Outcome Z :=
  match price with
  | Some p => Return p
  | None => Throw
  end.

(** [if (!tokenSetId) throw new Error("No token set available")] *)
Definition require_tokenSetId (tokenSetId : option string) : Outcome string :=
  match tokenSetId with
  | None => Throw
  | Some t => if String.eqb t "" then Throw else Return t
  end.

Definition rawSells (priceList : list PoolPrice) : list Z :=
  flat_map (fun q => match raw_sell q with Some p => [p] | None => [] end) priceList.

Definition rawBuys (priceList : list PoolPrice) : list Z :=
  flat_map (fun q => match raw_buy q with Some p => [p] | None => [] end) priceList.

Definition marketplace_fee (pool : NftPool) (bps : Z) : FeeEntry :=
  {| fee_kind := "marketplace"; fee_recipient := pool_address pool; fee_entry_bps := bps |}.

Definition success (i : Digest) (orderParams : OrderParams) (t : TriggerKind) : SaveResult :=
  {| res_id := i; res_txHash := op_txHash orderParams; res_status := "success";
     res_triggerKind := Some t |}.

(** The object pushed onto [orderValues] (lines 178-209 and 381-412); the
    two literals differ in [side], [token_set_id], [quantity_remaining]
    and [raw_data]. *)
Definition orderValue (i : Digest) (side_ : Side) (tokenSetId : string) (schemaHash : Bytes)
    (pool : NftPool) (price_ value_ : Z) (currency_ : Address) (quantity : N)
    (orderParams : OrderParams) (source : option Z) (bps : Z) (ref : Ref)
    (sdkOrder : SdkParams) (missingRoyalties : list MissingRoyalty) (normalizedValue : Z)
  : DbOrder Ref :=
  {| id := i; kind := "nftx"; side := side_;
     fillability_status := "fillable"; approval_status := "approved";
     token_set_id := tokenSetId; token_set_schema_hash := schemaHash;
     maker := pool_address pool; taker := AddressZero;
     price := price_; value := value_; currency := currency_;
     currency_price := price_; currency_value := value_;
     quantity_remaining := quantity;
     valid_between :=
       {| valid_from := op_txTimestamp orderParams; valid_to := Infinity |};
     source_id_int := source; contract := pool_nft pool;
     fee_bps := bps; fee_breakdown := ref;
     raw_data := sdkOrder; expiration := Infinity;
     missing_royalties := missingRoyalties;
     normalized_value := normalizedValue;
     currency_normalized_value := normalizedValue |}.

(** The parameter object of a repricing [UPDATE] (lines 238-249 and
    441-451); the sell statement has no [quantityRemaining] parameter,
    its text says [quantity_remaining = 1]. *)
Definition updateParams (i : Digest) (price_ value_ : Z) (sdkOrder : SdkParams) (quantity : N)
    (missingRoyalties : list MissingRoyalty) (normalizedValue : Z) (bps : Z)
    (entries : list FeeEntry) : UpdateParams :=
  {| u_id := i; u_price := price_; u_value := value_; u_rawData := sdkOrder;
     u_quantityRemaining := quantity;
     u_missingRoyalties := missingRoyalties;
     u_normalizedValue := normalizedValue;
     u_currencyNormalizedValue := normalizedValue;
     u_feeBps := bps; u_feeBreakdown := entries |}.

Variable env : Env.

(** [new Sdk.Nftx.Order(config.chainId, {...}).params] of the buy leg
    (lines 135-146) and of the sell loop (lines 341-353). *)
Definition buyOrderParams (pool : NftPool) (p : Z) (prices : list Z) : SdkParams :=
  {| sdk_vaultId := pool_vaultId pool; sdk_collection := pool_nft pool;
     sdk_pool := pool_address pool; sdk_specificIds := [];
     sdk_currency := Weth env; sdk_amount := None;
     sdk_path := [pool_address pool; Weth env];
     sdk_price := p; sdk_extra_prices := prices |}.

Definition sellOrderParams (pool : NftPool) (tokenId : TokenId) (p : Z) (prices : list Z)
  : SdkParams :=
  {| sdk_vaultId := pool_vaultId pool; sdk_collection := pool_nft pool;
     sdk_pool := pool_address pool; sdk_specificIds := [tokenId];
     sdk_currency := Weth env; sdk_amount := Some 1%N;
     sdk_path := [Weth env; pool_address pool];
     sdk_price := p; sdk_extra_prices := prices |}.

(** ** The buy leg (lines 81-275, the body of its [try]) *)
Definition buyLeg (orderParams : OrderParams) (pool : NftPool) (priceList : list PoolPrice)
  : M unit :=
  match priceList with
  | [] => throw
  | first :: _ =>
      let sell_ := pp_sell first in
      let currency_ := pp_currency first in
      i <- await (getOrderId (op_pool orderParams) buy None) ;;
      let prices := rawSells priceList in
      match sell_ with
      | Some value_ =>
          let price_ := hd_error prices in
          modify (set_feeBps (bps_sell first)) ;;
          fb <- gets feeBps ;;
          feeBreakdown_push (marketplace_fee pool fb) ;;
          defaultRoyalties <- await (getRoyaltiesByTokenSet env (pool_nft pool)) ;;
          top <- await (royaltiesOnTop price_ defaultRoyalties) ;;
          let missingRoyalties := fst top in
          let normalizedValue := value_ - snd top in
          p <- await (toString price_) ;;
          let sdkOrder := buyOrderParams pool p prices in
          orderResult <- redb_oneOrNone i ;;
          if negb orderResult then
            let schemaHash := generateSchemaHash env in
            saved <- await (contractWide_save env (pool_nft pool)) ;;
            tokenSetId <- await (require_tokenSetId saved) ;;
            source <- await (sources_getOrInsert env) ;;
            bps <- gets feeBps ;;
            ref <- gets feeBreakdown ;;
            orderValues_push
              (orderValue i buy tokenSetId schemaHash pool p value_ currency_
                 (N.of_nat (List.length prices)) orderParams source bps ref sdkOrder
                 missingRoyalties normalizedValue) ;;
            results_push (success i orderParams new_order)
          else
            bps <- gets feeBps ;;
            entries <- gets (fun s => deref (arrays s) (feeBreakdown s)) ;;
            idb_none (UpdateBuy (op_txTimestamp orderParams)
              (updateParams i p value_ sdkOrder (N.of_nat (List.length prices))
                 missingRoyalties normalizedValue bps entries)) ;;
            results_push (success i orderParams reprice)
      | None =>
          idb_none (UpdateNoBalance (op_txTimestamp orderParams) i) ;;
          results_push (success i orderParams reprice)
      end
  end.

(** ** The body of the sell loop for one token (lines 338-460, the body
    of the inner [try]) *)
Definition sellItem (orderParams : OrderParams) (pool : NftPool) (currency_ : Address)
    (prices : list Z) (price_ : option Z) (value_ : Z)
    (missingRoyalties : list MissingRoyalty) (normalizedValue : Z) (tokenId : TokenId)
  : M unit :=
  i <- await (getOrderId (op_pool orderParams) sell (Some tokenId)) ;;
  p <- await (toString price_) ;;
  let sdkOrder := sellOrderParams pool tokenId p prices in
  orderResult <- redb_oneOrNone i ;;
  if negb orderResult then
    let schemaHash := generateSchemaHash env in
    saved <- await (singleToken_save env (pool_nft pool) tokenId) ;;
    tokenSetId <- await (require_tokenSetId saved) ;;
    source <- await (sources_getOrInsert env) ;;
    bps <- gets feeBps ;;
    ref <- gets feeBreakdown ;;
    orderValues_push
      (orderValue i sell tokenSetId schemaHash pool p value_ currency_ 1%N
         orderParams source bps ref sdkOrder missingRoyalties normalizedValue) ;;
    results_push (success i orderParams new_order)
  else
    bps <- gets feeBps ;;
    entries <- gets (fun s => deref (arrays s) (feeBreakdown s)) ;;
    idb_none (UpdateSell (op_txTimestamp orderParams)
      (updateParams i p value_ sdkOrder 1%N missingRoyalties normalizedValue bps entries)) ;;
    results_push (success i orderParams reprice).

(** ** The sell leg (lines 284-465, the body of its [try]) *)
Definition sellLeg (orderParams : OrderParams) (pool : NftPool) (priceList : list PoolPrice)
  : M unit :=
  match priceList with
  | [] => throw
  | first :: _ =>
      let buy_ := pp_buy first in
      let currency_ := pp_currency first in
      let prices := rawBuys priceList in
      match buy_ with
      | Some value_ =>
          let price_ := hd_error prices in
          modify (set_feeBps (bps_buy first)) ;;
          fb <- gets feeBps ;;
          feeBreakdown_push (marketplace_fee pool fb) ;;
          defaultRoyalties <- await (getRoyaltiesByTokenSet env (pool_nft pool)) ;;
          top <- await (royaltiesOnTop price_ defaultRoyalties) ;;
          let missingRoyalties := fst top in
          let normalizedValue := value_ + snd top in
          poolOwnedTokenIds <- await (getNfts env (pool_nft pool) (pool_address pool)) ;;
          for_of poolOwnedTokenIds (fun tokenId =>
            try_catch (sellItem orderParams pool currency_ prices price_ value_
                                missingRoyalties normalizedValue tokenId))
      | None => ret tt
      end
  end.

(** The only pool [handleOrder] processes, as line 55 spells it, and
    the address that text denotes. *)
Definition allowedPoolText : string := "0x569a0ff212efe6b2fac806765ef59ce6685f2dd2".

Definition allowedPool : Address :=
  [x56; x9a; x0f; xf2; x12; xef; xe6; xb2; xfa; xc8;
   x06; x76; x5e; xf5; x9c; xe6; x68; x5f; x2d; xd2].

(** Lines 59-70: ten quotes, for the amounts 1 to 10, one after the other. *)
Fixpoint getPoolPrices (pool : Address) (indices : list nat) : Outcome (list PoolPrice) :=
  match indices with
  | [] => Return []
  | index :: rest =>
      match getPoolPrice env pool (index + 1) with
      | Throw => Throw
      | Return poolPrice =>
          match getPoolPrices pool rest with
          | Throw => Throw
          | Return priceList => Return (poolPrice :: priceList)
          end
      end
  end.

(** Lines 49-70: the pool details, the allow-list and the quotes.
    [Return None] is the early [return] for a pool off the allow-list;
    the test of line 55 is on the text of the pool, letter for letter. *)
Definition prepare (orderParams : OrderParams) : Outcome (option (NftPool * list PoolPrice)) :=
  (details <- getNftPoolDetails env (op_pool orderParams) ;;
   match details with
   | None => Throw
   | Some pool =>
       if negb (String.eqb (op_poolText orderParams) allowedPoolText) then Return None
       else
         priceList <- getPoolPrices (op_pool orderParams) (seq 0 10) ;;
         Return (Some (pool, priceList))
   end)%O.

(** ** [handleOrder] (lines 47-478) *)
Definition handleOrder (orderParams : OrderParams) : M unit :=
  try_catch (
    prepared <- await (prepare orderParams) ;;
    match prepared with
    | None => ret tt
    | Some (pool, priceList) =>
        declare_fees ;;
        try_catch (buyLeg orderParams pool priceList) ;;
        try_catch (sellLeg orderParams pool priceList)
    end).

(** ** [save] (lines 42-540) *)

(** A buffered row as the bulk insert serialises it: [fee_breakdown] is
    read through its reference when the statement is built. *)
Definition serialise (h : list (list FeeEntry)) (r : DbOrder Ref) : Row :=
  {| id := id r; kind := kind r; side := side r;
     fillability_status := fillability_status r;
     approval_status := approval_status r;
     token_set_id := token_set_id r;
     token_set_schema_hash := token_set_schema_hash r;
     maker := maker r; taker := taker r;
     price := price r; value := value r;
     currency := currency r;
     currency_price := currency_price r; currency_value := currency_value r;
     quantity_remaining := quantity_remaining r;
     valid_between := valid_between r;
     source_id_int := source_id_int r;
     contract := contract r;
     fee_bps := fee_bps r; fee_breakdown := deref h (fee_breakdown r);
     raw_data := raw_data r;
     expiration := expiration r;
     missing_royalties := missing_royalties r;
     normalized_value := normalized_value r;
     currency_normalized_value := currency_normalized_value r |}.

(** Lines 484-522. *)
Definition flush : M unit :=
  rows <- gets orderValues ;;
  match rows with
  | [] => ret tt
  | _ :: _ =>
      h <- gets arrays ;;
      idb_none (InsertOnConflictDoNothing (map (serialise h) rows))
  end.

(** What [ordersUpdateById.addToQueue] receives (lines 524-537). *)
Record QueueInfo : Type := {
  q_context : option TriggerKind * Digest * string;
  q_id : Digest;
  q_trigger_kind : option TriggerKind
}.

Definition queueInfos (rs : list SaveResult) : list QueueInfo :=
  map (fun r => {| q_context := (res_triggerKind r, res_id r, res_txHash r);
                   q_id := res_id r; q_trigger_kind := res_triggerKind r |})
      (filter (fun r => String.eqb (res_status r) "success") rs).

Definition initial (t : Table) : State :=
  {| orders := t; arrays := []; orderValues := []; results := []; idb := [];
     feeBps := 0; feeBreakdown := O |}.

(** The state [save] ends in, started on the table [t]. *)
Definition save_state (orderInfos : list OrderParams) (t : Table) : State :=
  snd ((for_of orderInfos handleOrder ;; flush) (initial t)).

Record Saved : Type := {
  saved_results : list SaveResult;
  saved_orders : Table;
  saved_idb : list IdbStatement;
  saved_queue : list QueueInfo
}.

Definition save (orderInfos : list OrderParams) (t : Table) : Saved :=
  let s := save_state orderInfos t in
  {| saved_results := results s; saved_orders := orders s;
     saved_idb := idb s; saved_queue := queueInfos (results s) |}.

End Save.

(** ** What a unit of work leaves behind

    Each unit of [handleOrder] (the buy leg, one token of the sell loop)
    that runs to its end has done exactly one of two things: pushed a
    row and a result, or sent one [UPDATE] and pushed a result.  The
    definitions below compute that effect as a value, from the
    collaborators' answers, the identities present in the table and the
    fee locals; the lemmas of the next part show that the legs do what
    these values say. *)

Section Effects.
Context {K : Keccak}.

Inductive Effect : Type :=
| Buffered (row : DbOrder Ref) (r : SaveResult)
| Sent (st : IdbStatement) (r : SaveResult).

Definition effect_result (e : Effect) : SaveResult :=
  match e with
  | Buffered _ r => r
  | Sent _ r => r
  end.

Definition buffered (es : list Effect) : list (DbOrder Ref) :=
  flat_map (fun e => match e with Buffered row _ => [row] | Sent _ _ => [] end) es.

Definition sent (es : list Effect) : list IdbStatement :=
  flat_map (fun e => match e with Buffered _ _ => [] | Sent st _ => [st] end) es.

Definition apply_effect (s : State) (e : Effect) : State :=
  match e with
  | Buffered row r =>
      set_results (fun l => l ++ [r]) (set_orderValues (fun l => l ++ [row]) s)
  | Sent st r =>
      set_results (fun l => l ++ [r])
        (set_idb (fun l => l ++ [st]) (set_orders (fun t => run_statement t st) s))
  end.

Definition apply_effects (s : State) (es : list Effect) : State :=
  fold_left apply_effect es s.

(** The effects of a unit that may have thrown. *)
Definition caught {A} (o : Outcome A) (f : A -> list Effect) : list Effect :=
  match o with
  | Return a => f a
  | Throw => []
  end.

(** An [UPDATE] neither adds nor removes a row. *)
Definition is_update (st : IdbStatement) : Prop :=
  match st with
  | InsertOnConflictDoNothing _ => False
  | _ => True
  end.

Definition updates_only (e : Effect) : Prop :=
  match e with
  | Buffered _ _ => True
  | Sent st _ => is_update st
  end.

Variable env : Env.

(** The buy leg's fee writes (lines 96-101) happen iff the first quote
    has a sell price; the sell leg's (lines 299-304) iff it has a buy
    price. *)
Definition buyFee (priceList : list PoolPrice) : option Z :=
  match priceList with
  | first :: _ => match pp_sell first with Some _ => Some (bps_sell first) | None => None end
  | [] => None
  end.

Definition sellFee (priceList : list PoolPrice) : option Z :=
  match priceList with
  | first :: _ => match pp_buy first with Some _ => Some (bps_buy first) | None => None end
  | [] => None
  end.

Definition fee_entries (pool : NftPool) (bps : option Z) : list FeeEntry :=
  match bps with
  | Some b => [marketplace_fee pool b]
  | None => []
  end.

Definition write_fee (pool : NftPool) (bps : option Z) (s : State) : State :=
  match bps with
  | Some b => set_arrays (array_push (feeBreakdown s) (marketplace_fee pool b)) (set_feeBps b s)
  | None => s
  end.

(** The buy leg, given the identities [present] in the table, the
    reference [ref] of the event's fee array and its [entries] when the
    leg reads it. *)
Definition buyPlan (l : list Digest) (ref : Ref) (entries : list FeeEntry)
    (orderParams : OrderParams) (pool : NftPool) (priceList : list PoolPrice)
  : Outcome Effect :=
  match priceList with
  | [] => Throw
  | first :: _ =>
      (i <- getOrderId (op_pool orderParams) buy None ;;
       let prices := rawSells priceList in
       match pp_sell first with
       | Some value_ =>
           let price_ := hd_error prices in
           defaultRoyalties <- getRoyaltiesByTokenSet env (pool_nft pool) ;;
           top <- royaltiesOnTop price_ defaultRoyalties ;;
           p <- toString price_ ;;
           if negb (present l i) then
             saved <- contractWide_save env (pool_nft pool) ;;
             tokenSetId <- require_tokenSetId saved ;;
             source <- sources_getOrInsert env ;;
             Return (Buffered
               (orderValue i buy tokenSetId (generateSchemaHash env) pool p value_
                  (pp_currency first) (N.of_nat (List.length prices)) orderParams source
                  (bps_sell first) ref (buyOrderParams env pool p prices)
                  (fst top) (value_ - snd top))
               (success i orderParams new_order))
           else
             Return (Sent
               (UpdateBuy (op_txTimestamp orderParams)
                  (updateParams i p value_ (buyOrderParams env pool p prices)
                     (N.of_nat (List.length prices)) (fst top) (value_ - snd top)
                     (bps_sell first) entries))
               (success i orderParams reprice))
       | None =>
           Return (Sent (UpdateNoBalance (op_txTimestamp orderParams) i)
                        (success i orderParams reprice))
       end)%O
  end.

(** One token of the sell loop. *)
Definition itemPlan (l : list Digest) (bps : Z) (ref : Ref) (entries : list FeeEntry)
    (orderParams : OrderParams) (pool : NftPool) (currency_ : Address)
    (prices : list Z) (price_ : option Z) (value_ : Z)
    (missingRoyalties : list MissingRoyalty) (normalizedValue : Z) (tokenId : TokenId)
  : Outcome Effect :=
  (i <- getOrderId (op_pool orderParams) sell (Some tokenId) ;;
   p <- toString price_ ;;
   if negb (present l i) then
     saved <- singleToken_save env (pool_nft pool) tokenId ;;
     tokenSetId <- require_tokenSetId saved ;;
     source <- sources_getOrInsert env ;;
     Return (Buffered
       (orderValue i sell tokenSetId (generateSchemaHash env) pool p value_ currency_ 1%N
          orderParams source bps ref (sellOrderParams env pool tokenId p prices)
          missingRoyalties normalizedValue)
       (success i orderParams new_order))
   else
     Return (Sent
       (UpdateSell (op_txTimestamp orderParams)
          (updateParams i p value_ (sellOrderParams env pool tokenId p prices) 1%N
             missingRoyalties normalizedValue bps entries))
       (success i orderParams reprice)))%O.

(** The sell leg: it throws before the loop or runs the loop, in which
    every token contributes its effect or, having thrown, nothing. *)
Definition sellPlan (l : list Digest) (ref : Ref) (entries : list FeeEntry)
    (orderParams : OrderParams) (pool : NftPool) (priceList : list PoolPrice)
  : Outcome (list Effect) :=
  match priceList with
  | [] => Throw
  | first :: _ =>
      let prices := rawBuys priceList in
      match pp_buy first with
      | Some value_ =>
          let price_ := hd_error prices in
          (defaultRoyalties <- getRoyaltiesByTokenSet env (pool_nft pool) ;;
           top <- royaltiesOnTop price_ defaultRoyalties ;;
           poolOwnedTokenIds <- getNfts env (pool_nft pool) (pool_address pool) ;;
           Return (flat_map (fun tokenId =>
             caught (itemPlan l (bps_buy first) ref entries orderParams pool
                       (pp_currency first) prices price_ value_
                       (fst top) (value_ + snd top) tokenId)
                    (fun e => [e]))
             poolOwnedTokenIds))%O
      | None => Return []
      end
  end.

(** The effects of both legs of an event whose preparation succeeded,
    and the entries its fee array ends with. *)
Definition legEffects (l : list Digest) (ref : Ref) (orderParams : OrderParams)
    (pool : NftPool) (priceList : list PoolPrice) : list Effect :=
  let buyEntries := fee_entries pool (buyFee priceList) in
  let allEntries := buyEntries ++ fee_entries pool (sellFee priceList) in
  caught (buyPlan l ref buyEntries orderParams pool priceList) (fun e => [e])
  ++ caught (sellPlan l ref allEntries orderParams pool priceList) (fun es => es).

Definition eventEntries (pool : NftPool) (priceList : list PoolPrice) : list FeeEntry :=
  fee_entries pool (buyFee priceList) ++ fee_entries pool (sellFee priceList).

(** An event: nothing when its preparation throws or stops at the
    allow-list, else the fee array it allocates and its effects. *)
Definition eventPlan (l : list Digest) (ref : Ref) (orderParams : OrderParams)
  : option (list FeeEntry * list Effect) :=
  match prepare env orderParams with
  | Return (Some (pool, priceList)) =>
      Some (eventEntries pool priceList, legEffects l ref orderParams pool priceList)
  | _ => None
  end.

(** The events of a batch, each with the reference its array gets. *)
Fixpoint batchPlans (l : list Digest) (ref : Ref) (orderInfos : list OrderParams)
  : list (list FeeEntry * list Effect) :=
  match orderInfos with
  | [] => []
  | orderParams :: rest =>
      match eventPlan l ref orderParams with
      | Some plan => plan :: batchPlans l (S ref) rest
      | None => batchPlans l ref rest
      end
  end.

Definition batchEffects (l : list Digest) (ref : Ref) (orderInfos : list OrderParams)
  : list Effect :=
  flat_map snd (batchPlans l ref orderInfos).

(** The rows of the bulk insert: the buffered rows of the batch, each
    serialised against the fee arrays as they are when [save] flushes. *)
Definition flushed_rows (l : list Digest) (batch : list OrderParams) : list Row :=
  map (serialise (map fst (batchPlans l O batch)))
      (buffered (batchEffects l O batch)).

(** ** The orders [save] writes

    A [DerivedOrder] is an order as one statement of [save] writes it:
    a row of the bulk insert ([do_created]) or the parameters of a
    repricing [UPDATE]. *)
Record DerivedOrder : Type := {
  do_id : Digest;
  do_side : Side;
  do_created : bool;
  do_collection : Address;
  do_price : Z;
  do_value : Z;
  do_normalizedValue : Z;
  do_feeBps : Z;
  do_feeBreakdown : list FeeEntry;
  do_missingRoyalties : list MissingRoyalty;
  do_quantityRemaining : N
}.

Definition derived_of_row (r : Row) : DerivedOrder :=
  {| do_id := id r; do_side := side r; do_created := true;
     do_collection := contract r;
     do_price := price r; do_value := value r;
     do_normalizedValue := normalized_value r;
     do_feeBps := fee_bps r; do_feeBreakdown := fee_breakdown r;
     do_missingRoyalties := missing_royalties r;
     do_quantityRemaining := quantity_remaining r |}.

Definition derived_of_update (side_ : Side) (quantity : N) (u : UpdateParams) : DerivedOrder :=
  {| do_id := u_id u; do_side := side_; do_created := false;
     do_collection := sdk_collection (u_rawData u);
     do_price := u_price u; do_value := u_value u;
     do_normalizedValue := u_normalizedValue u;
     do_feeBps := u_feeBps u; do_feeBreakdown := u_feeBreakdown u;
     do_missingRoyalties := u_missingRoyalties u;
     do_quantityRemaining := quantity |}.

Definition derived (st : IdbStatement) : list DerivedOrder :=
  match st with
  | UpdateBuy _ u => [derived_of_update buy (u_quantityRemaining u) u]
  | UpdateSell _ u => [derived_of_update sell 1%N u]
  | UpdateNoBalance _ _ => []
  | InsertOnConflictDoNothing rows => map derived_of_row rows
  end.

Definition derivedOrders (out : Saved) : list DerivedOrder :=
  flat_map derived (saved_idb out).

(** Where a written order comes from: the quotes and the royalty
    schedule of the one pool on the allow-list. *)
Inductive derives (l : list Digest) : DerivedOrder -> Prop :=
| derives_buy pool first rest value_ p roy top i :
    getNftPoolDetails env allowedPool = Return (Some pool) ->
    getPoolPrices env allowedPool (seq 0 10) = Return (first :: rest) ->
    pp_sell first = Some value_ ->
    hd_error (rawSells (first :: rest)) = Some p ->
    getRoyaltiesByTokenSet env (pool_nft pool) = Return roy ->
    royaltiesOnTop (Some p) roy = Return top ->
    getOrderId allowedPool buy None = Return i ->
    derives l
      {| do_id := i; do_side := buy; do_created := negb (present l i);
         do_collection := pool_nft pool;
         do_price := p; do_value := value_;
         do_normalizedValue := value_ - snd top;
         do_feeBps := bps_sell first;
         do_feeBreakdown :=
           if negb (present l i) then eventEntries pool (first :: rest)
           else fee_entries pool (buyFee (first :: rest));
         do_missingRoyalties := fst top;
         do_quantityRemaining := N.of_nat (List.length (rawSells (first :: rest))) |}
| derives_sell pool first rest value_ p roy top tokenId i :
    getNftPoolDetails env allowedPool = Return (Some pool) ->
    getPoolPrices env allowedPool (seq 0 10) = Return (first :: rest) ->
    pp_buy first = Some value_ ->
    hd_error (rawBuys (first :: rest)) = Some p ->
    getRoyaltiesByTokenSet env (pool_nft pool) = Return roy ->
    royaltiesOnTop (Some p) roy = Return top ->
    getOrderId allowedPool sell (Some tokenId) = Return i ->
    derives l
      {| do_id := i; do_side := sell; do_created := negb (present l i);
         do_collection := pool_nft pool;
         do_price := p; do_value := value_;
         do_normalizedValue := value_ + snd top;
         do_feeBps := bps_buy first;
         do_feeBreakdown := eventEntries pool (first :: rest);
         do_missingRoyalties := fst top;
         do_quantityRemaining := 1%N |}.

End Effects.

(** ** Auxiliary notions of the properties *)

Section Notions.
Context {K : Keccak}.
Variable env : Env.

(** An effect of an event, seen through the statement that carries it. *)
Definition effect_derives (l : list Digest) (ref : Ref) (entries : list FeeEntry) (e : Effect)
  : Prop :=
  match e with
  | Buffered row _ =>
      fee_breakdown row = ref
      /\ forall h, deref h ref = entries -> derives env l (derived_of_row (serialise h row))
  | Sent st _ => forall d, In d (derived st) -> derives env l d
  end.

(** The rows an [INSERT ... ON CONFLICT DO NOTHING] adds to a table that
    holds the identities [seen]: each row whose identity is neither in
    the table nor earlier in the statement. *)
Fixpoint kept_rows (seen : list Digest) (rows : list Row) : list Row :=
  match rows with
  | [] => []
  | r :: rest =>
      if present seen (id r) then kept_rows seen rest
      else r :: kept_rows (seen ++ [id r]) rest
  end.

Definition is_new (r : SaveResult) : bool :=
  match res_triggerKind r with Some new_order => true | _ => false end.

Definition is_reprice (r : SaveResult) : bool :=
  match res_triggerKind r with Some reprice => true | _ => false end.

(** A buffered row goes with a new-order result for its identity, which
    the table did not hold; a statement sent is an [UPDATE] and goes
    with a reprice result. *)
Definition well_tagged (l : list Digest) (e : Effect) : Prop :=
  match e with
  | Buffered row r =>
      present l (id row) = false /\ res_id r = id row /\ res_triggerKind r = Some new_order
  | Sent st r => is_update st /\ res_triggerKind r = Some reprice
  end.

(** Two states in which a unit of work decides and derives alike: the
    same identities in the table, the same fee arrays and fee locals. *)
Definition agree (s1 s2 : State) : Prop :=
  ids (orders s1) = ids (orders s2)
  /\ arrays s1 = arrays s2
  /\ feeBps s1 = feeBps s2
  /\ feeBreakdown s1 = feeBreakdown s2.

(** [s'] is [s] with the effects [es] appended: their results, their
    buffered rows, their statements sent and applied. *)
Definition appends (s s' : State) (es : list Effect) : Prop :=
  results s' = results s ++ map effect_result es
  /\ orderValues s' = orderValues s ++ buffered es
  /\ idb s' = idb s ++ sent es
  /\ orders s' = fold_left run_statement (sent es) (orders s).

End Notions.

(** ** Concrete runs *)

Definition exampleNft : Address := repeat x11 20.
Definition exampleWeth : Address := repeat x22 20.
Definition exampleRecipient : Address := repeat x33 20.

Definition examplePool : NftPool :=
  {| pool_address := allowedPool; pool_nft := exampleNft; pool_vaultId := 7%N |}.

(** A quote: the price with slippage and the raw price of each
    direction, fees of 50 bps (sell direction) and 30 bps (buy direction). *)
Definition exampleQuote (sell_ raw_sell_ buy_ raw_buy_ : option Z) : PoolPrice :=
  {| pp_sell := sell_; pp_buy := buy_; raw_sell := raw_sell_; raw_buy := raw_buy_;
     bps_sell := 50; bps_buy := 30; pp_currency := exampleWeth |}.

Definition exampleEnv (quotes : nat -> PoolPrice) (royalties : list Royalty)
    (tokens : list TokenId) : Env :=
  {| getNftPoolDetails := fun _ => Return (Some examplePool);
     getPoolPrice := fun _ amount => Return (quotes amount);
     getRoyaltiesByTokenSet := fun _ => Return royalties;
     contractWide_save := fun _ => Return (Some "contract:0x1111"%string);
     singleToken_save := fun _ _ => Return (Some "token:0x1111:1"%string);
     sources_getOrInsert := Return (Some 5);
     getNfts := fun _ _ => Return tokens;
     Weth := exampleWeth;
     generateSchemaHash := [] |}.

(** Three priceable depth levels, sell direction 10000 < 11000 < 12000
    raw (9800 at depth 1 after slippage), one buy-direction level. *)
Definition threeLevels (amount : nat) : PoolPrice :=
  match amount with
  | 1%nat => exampleQuote (Some 9800) (Some 10000) (Some 10200) (Some 10000)
  | 2%nat => exampleQuote (Some 10780) (Some 11000) None None
  | 3%nat => exampleQuote (Some 11760) (Some 12000) None None
  | _ => exampleQuote None None None None
  end.

(** No sell-direction price at any depth. *)
Definition noSellPrice (amount : nat) : PoolPrice :=
  match amount with
  | 1%nat => exampleQuote None None (Some 10200) (Some 10000)
  | _ => exampleQuote None None None None
  end.

Definition fivePercent : list Royalty :=
  [{| roy_recipient := exampleRecipient; roy_bps := 500 |}].

Definition exampleEvent : OrderParams :=
  {| op_poolText := allowedPoolText; op_txTimestamp := 1700000000; op_txHash := "0xabc" |}.

Definition royaltyEnv : Env := exampleEnv threeLevels fivePercent [1%N; 2%N].
Definition plainEnv : Env := exampleEnv threeLevels [] [].
Definition noSellEnv : Env := exampleEnv noSellPrice [] [].

Definition noOrder : DerivedOrder (K := plainDigest) :=
  {| do_id := []; do_side := buy; do_created := false; do_collection := [];
     do_price := 0; do_value := 0; do_normalizedValue := 0; do_feeBps := 0;
     do_feeBreakdown := []; do_missingRoyalties := []; do_quantityRemaining := 0%N |}.

(** The buy order and the first sell order of one event on an empty
    table, with a 5% royalty and with none. *)
Definition royaltyBuyOrder : DerivedOrder :=
  Eval vm_compute in nth 0 (derivedOrders (save royaltyEnv [exampleEvent] [])) noOrder.

Definition royaltySellOrder : DerivedOrder :=
  Eval vm_compute in nth 1 (derivedOrders (save royaltyEnv [exampleEvent] [])) noOrder.

Definition plainBuyOrder : DerivedOrder :=
  Eval vm_compute in nth 0 (derivedOrders (save plainEnv [exampleEvent] [])) noOrder.

(** An environment in which units fail: only the allow-listed pool has
    details, and no token set can be saved for token 2. *)
Definition flakyEnv : Env :=
  {| getNftPoolDetails :=
       fun a => if bytes_eqb a allowedPool then Return (Some examplePool) else Throw;
     getPoolPrice := fun _ amount => Return (threeLevels amount);
     getRoyaltiesByTokenSet := fun _ => Return fivePercent;
     contractWide_save := fun _ => Return (Some "contract:0x1111"%string);
     singleToken_save :=
       fun _ tokenId => if (tokenId =? 2)%N then Throw else Return (Some "token"%string);
     sources_getOrInsert := Return (Some 5);
     getNfts := fun _ _ => Return [1%N; 2%N; 3%N];
     Weth := exampleWeth;
     generateSchemaHash := [] |}.

Definition unknownPoolEvent : OrderParams :=
  {| op_poolText := "0x0000000000000000000000000000000000000000";
     op_txTimestamp := 1700000000; op_txHash := "0xdef" |}.

(** ** Rows, statement by statement

    What the statements of a batch do to one row of the table, and the
    notions the further properties are stated with. *)

Section Rows.
Context {K : Keccak}.

(** The identity in the [WHERE] clause of an [UPDATE]. *)
Definition statement_id (st : IdbStatement) : option Digest :=
  match st with
  | UpdateBuy _ u => Some (u_id u)
  | UpdateSell _ u => Some (u_id u)
  | UpdateNoBalance _ i => Some i
  | InsertOnConflictDoNothing _ => None
  end.

(** One [UPDATE] on one row. *)
Definition row_step (r : Row) (st : IdbStatement) : Row :=
  match st with
  | UpdateBuy ts u =>
      if digest_eqb (id r) (u_id u) then reprice_row ts (u_quantityRemaining u) u r else r
  | UpdateSell ts u =>
      if digest_eqb (id r) (u_id u) then reprice_row ts 1%N u r else r
  | UpdateNoBalance ts i =>
      if digest_eqb (id r) i then no_balance_row ts r else r
  | InsertOnConflictDoNothing _ => r
  end.

Definition run_row (sts : list IdbStatement) (r : Row) : Row :=
  fold_left row_step sts r.

(** The two repricing [UPDATE]s, as opposed to the [no-balance] one,
    with the one normalised value both legs pass for the two columns. *)
Definition is_repricing (st : IdbStatement) : Prop :=
  match st with
  | UpdateBuy _ u | UpdateSell _ u => u_currencyNormalizedValue u = u_normalizedValue u
  | _ => False
  end.

(** The columns no statement of [save] ever sets on an existing row. *)
Definition fixed_columns (r : Row) :=
  (id r, kind r, side r, approval_status r, token_set_id r, token_set_schema_hash r,
   maker r, taker r, currency r, source_id_int r, contract r).

(** The identity an effect is about. *)
Definition effect_id (e : Effect) : option Digest :=
  match e with
  | Buffered row _ => Some (id row)
  | Sent st _ => statement_id st
  end.

(** The orders an effect writes, the buffered row being serialised
    against the fee arrays [h]. *)
Definition effect_orders (h : list (list FeeEntry)) (e : Effect) : list DerivedOrder :=
  match e with
  | Buffered row _ => [derived_of_row (serialise h row)]
  | Sent st _ => derived st
  end.

(** A row as a repricing or an insert leaves it: fillable, with an
    open-ended validity, and the currency columns equal to the native
    ones. *)
Definition live (FB : Type) (r : DbOrder FB) : Prop :=
  fillability_status r = "fillable"%string
  /\ expiration r = Infinity
  /\ valid_to (valid_between r) = Infinity
  /\ currency_price r = price r
  /\ currency_value r = value r
  /\ currency_normalized_value r = normalized_value r.

(** The message [save] queues for a result. *)
Definition queueInfo (r : SaveResult) : QueueInfo :=
  {| q_context := (res_triggerKind r, res_id r, res_txHash r);
     q_id := res_id r; q_trigger_kind := res_triggerKind r |}.

(** A row holds an order: the columns the statements of [save] set are
    those of the order. *)
Definition holds (r : Row) (d : DerivedOrder) : Prop :=
  id r = do_id d
  /\ price r = do_price d /\ value r = do_value d
  /\ normalized_value r = do_normalizedValue d
  /\ quantity_remaining r = do_quantityRemaining d
  /\ fee_bps r = do_feeBps d /\ fee_breakdown r = do_feeBreakdown d
  /\ missing_royalties r = do_missingRoyalties d.

(** What every effect of a unit looks like: it is about one identity,
    its result is a success for that identity and the event, the order
    it writes is on the unit's side, and it is a live buffered row or an
    [UPDATE]. *)
Definition shaped (op : OrderParams) (sd : Side) (i : Digest) (e : Effect) : Prop :=
  effect_id e = Some i
  /\ (exists k, effect_result e = success i op k)
  /\ (forall h d, In d (effect_orders h e) ->
        do_side d = sd /\ do_id d = i /\ (sd = sell -> do_quantityRemaining d = 1%N))
  /\ match e with
     | Buffered row _ => live row
     | Sent st _ => is_update st
     end.

End Rows.

(** A table found by a later run: the pool's buy order, cancelled in the
    meantime, and the order of another marketplace. *)
Definition cancelledBuyRow : Row (K := plainDigest) :=
  {| id := list_byte_of_string "nftx" ++ allowedPool ++ list_byte_of_string "buy";
     kind := "nftx"; side := buy;
     fillability_status := "cancelled"; approval_status := "approved";
     token_set_id := "contract:0x1111"; token_set_schema_hash := [];
     maker := allowedPool; taker := AddressZero;
     price := 9000; value := 8800; currency := exampleWeth;
     currency_price := 9000; currency_value := 8800;
     quantity_remaining := 1%N;
     valid_between := {| valid_from := 1600000000; valid_to := ToTimestamp 1650000000 |};
     source_id_int := Some 5; contract := exampleNft;
     fee_bps := 50; fee_breakdown := [];
     raw_data :=
       {| sdk_vaultId := 7%N; sdk_collection := exampleNft; sdk_pool := allowedPool;
          sdk_specificIds := []; sdk_currency := exampleWeth; sdk_amount := None;
          sdk_path := [allowedPool; exampleWeth]; sdk_price := 9000;
          sdk_extra_prices := [9000] |};
     expiration := ToTimestamp 1650000000;
     missing_royalties := [];
     normalized_value := 8800; currency_normalized_value := 8800 |}.

Definition foreignRow : Row (K := plainDigest) :=
  {| id := [x01; x02; x03];
     kind := "seaport"; side := sell;
     fillability_status := "fillable"; approval_status := "approved";
     token_set_id := "token:0x1111:9"; token_set_schema_hash := [];
     maker := exampleRecipient; taker := AddressZero;
     price := 5; value := 5; currency := exampleWeth;
     currency_price := 5; currency_value := 5;
     quantity_remaining := 1%N;
     valid_between := {| valid_from := 1600000000; valid_to := Infinity |};
     source_id_int := None; contract := exampleNft;
     fee_bps := 0; fee_breakdown := [];
     raw_data :=
       {| sdk_vaultId := 0%N; sdk_collection := exampleNft; sdk_pool := [];
          sdk_specificIds := [9%N]; sdk_currency := exampleWeth; sdk_amount := None;
          sdk_path := []; sdk_price := 5; sdk_extra_prices := [] |};
     expiration := Infinity;
     missing_royalties := [];
     normalized_value := 5; currency_normalized_value := 5 |}.

Definition foundTable : Table (K := plainDigest) := [cancelledBuyRow; foreignRow].

(** The first row and the first result of one event on that table. *)
Definition revivedRow : Row (K := plainDigest) :=
  Eval vm_compute in nth 0 (saved_orders (save royaltyEnv [exampleEvent] foundTable)) foreignRow.

Definition revivedResult : SaveResult (K := plainDigest) :=
  Eval vm_compute in
    nth 0 (saved_results (save royaltyEnv [exampleEvent] foundTable))
          (success [] exampleEvent reprice).

(** The sell order of token 3, which the example inventories no longer
    hold, beside the order of another marketplace. *)
Definition departedSellId : Bytes :=
  Eval vm_compute in
    match getOrderId (K := plainDigest) allowedPool sell (Some 3%N) with
    | Return d => d
    | Throw => []
    end.

Definition departedSellRow : Row (K := plainDigest) :=
  {| id := departedSellId;
     kind := "nftx"; side := sell;
     fillability_status := "fillable"; approval_status := "approved";
     token_set_id := "token:0x1111:3"; token_set_schema_hash := [];
     maker := allowedPool; taker := AddressZero;
     price := 10000; value := 10200; currency := exampleWeth;
     currency_price := 10000; currency_value := 10200;
     quantity_remaining := 1%N;
     valid_between := {| valid_from := 1600000000; valid_to := Infinity |};
     source_id_int := Some 5; contract := exampleNft;
     fee_bps := 30; fee_breakdown := [];
     raw_data :=
       {| sdk_vaultId := 7%N; sdk_collection := exampleNft; sdk_pool := allowedPool;
          sdk_specificIds := [3%N]; sdk_currency := exampleWeth; sdk_amount := Some 1%N;
          sdk_path := [exampleWeth; allowedPool]; sdk_price := 10000;
          sdk_extra_prices := [10000] |};
     expiration := Infinity;
     missing_royalties := [];
     normalized_value := 10200; currency_normalized_value := 10200 |}.

Definition staleTable : Table (K := plainDigest) := [departedSellRow; foreignRow].

(** A schedule whose only recipient is the zero address, and the buy
    order of one event under it. *)
Definition burnedRoyalty : list Royalty :=
  [{| roy_recipient := AddressZero; roy_bps := 500 |}].

Definition burnedEnv : Env := exampleEnv threeLevels burnedRoyalty [1%N].

Definition burnedBuyOrder : DerivedOrder :=
  Eval vm_compute in nth 0 (derivedOrders (save burnedEnv [exampleEvent] [])) noOrder.

(** An environment in which the quote for seven items fails. *)
Definition brokenQuoteEnv : Env :=
  {| getNftPoolDetails := fun _ => Return (Some examplePool);
     getPoolPrice :=
       fun _ amount => if (amount =? 7)%nat then Throw else Return (threeLevels amount);
     getRoyaltiesByTokenSet := fun _ => Return fivePercent;
     contractWide_save := fun _ => Return (Some "contract:0x1111"%string);
     singleToken_save := fun _ _ => Return (Some "token"%string);
     sources_getOrInsert := Return (Some 5);
     getNfts := fun _ _ => Return [1%N];
     Weth := exampleWeth;
     generateSchemaHash := [] |}.

(** The rows of the bulk insert of one event on an empty table. *)
Definition exampleInsert : list (Row (K := plainDigest)) :=
  Eval vm_compute in
    match last (saved_idb (save royaltyEnv [exampleEvent] [])) (UpdateNoBalance 0 []) with
    | InsertOnConflictDoNothing rows => rows
    | _ => []
    end.

(** ** The ladder in the words of the specification

    The entries of a ladder that carry a raw price of a direction, and
    the first such price in ladder order, said without the loops of
    lines 84-89 and 286-291. *)
Definition carries_sell_raw (q : PoolPrice) : bool :=
  match raw_sell q with Some _ => true | None => false end.

Definition carries_buy_raw (q : PoolPrice) : bool :=
  match raw_buy q with Some _ => true | None => false end.

Definition first_sell_raw (ladder : list PoolPrice) (p : Z) : Prop :=
  exists before q after,
    ladder = before ++ q :: after
    /\ Forall (fun q' => raw_sell q' = None) before
    /\ raw_sell q = Some p.

Definition first_buy_raw (ladder : list PoolPrice) (p : Z) : Prop :=
  exists before q after,
    ladder = before ++ q :: after
    /\ Forall (fun q' => raw_buy q' = None) before
    /\ raw_buy q = Some p.

(** A ladder whose first entry has a sell-direction price (with
    slippage) but no raw one; the entries for two and three items have
    both. *)
Definition rawGap (amount : nat) : PoolPrice :=
  match amount with
  | 1%nat => exampleQuote (Some 9800) None (Some 10200) (Some 10000)
  | 2%nat => exampleQuote (Some 10780) (Some 11000) None None
  | 3%nat => exampleQuote (Some 11760) (Some 12000) None None
  | _ => exampleQuote None None None None
  end.

Definition rawGapEnv : Env := exampleEnv rawGap [] [].

Definition rawGapBuyOrder : DerivedOrder :=
  Eval vm_compute in nth 0 (derivedOrders (save rawGapEnv [exampleEvent] [])) noOrder.

(** An environment in which the buy leg fails (no contract-wide token
    set can be saved) and the sell leg does not. *)
Definition noContractSetEnv : Env :=
  {| getNftPoolDetails := fun _ => Return (Some examplePool);
     getPoolPrice := fun _ amount => Return (threeLevels amount);
     getRoyaltiesByTokenSet := fun _ => Return fivePercent;
     contractWide_save := fun _ => Throw;
     singleToken_save := fun _ _ => Return (Some "token"%string);
     sources_getOrInsert := Return (Some 5);
     getNfts := fun _ _ => Return [1%N; 2%N];
     Weth := exampleWeth;
     generateSchemaHash := [] |}.

(** An event that spells the allow-listed pool in upper-case hex. *)
Definition upperCaseEvent : OrderParams :=
  {| op_poolText := "0x569A0FF212EFE6B2FAC806765EF59CE6685F2DD2";
     op_txTimestamp := 1700000000; op_txHash := "0xabc" |}.

(** * Properties *)

(** ** Order identity *)

Lemma byte_of_N_to_N (n : N) : Byte.to_N (byte_of_N n) = (n mod 256)%N.
Proof.
  unfold byte_of_N.
  destruct (Byte.of_N (n mod 256)%N) as [b|] eqn:E.
  - now apply Byte.to_of_N.
  - apply Byte.of_N_None_iff in E.
    assert (n mod 256 < 256)%N by (apply N.mod_lt; discriminate).
    lia.
Qed.

Lemma be_bytes_length (n : nat) (v : N) : List.length (be_bytes n v) = n.
Proof.
  revert v; induction n as [|n IH]; intro v; simpl.
  - reflexivity.
  - rewrite length_app, IH. simpl. lia.
Qed.

Lemma be_bytes_inj (n : nat) :
  forall v w : N,
    (v < 256 ^ N.of_nat n)%N -> (w < 256 ^ N.of_nat n)%N ->
    be_bytes n v = be_bytes n w -> v = w.
Proof.
  induction n as [|n IH]; intros v w Hv Hw E.
  - simpl in Hv, Hw. lia.
  - simpl in E. apply app_inj_tail in E. destruct E as [Ehi Elo].
    assert (Hpow : (256 ^ N.of_nat (S n) = 256 * 256 ^ N.of_nat n)%N).
    { rewrite Nat2N.inj_succ, N.pow_succ_r'. reflexivity. }
    rewrite Hpow in Hv, Hw.
    assert (Hq : (v / 256 = w / 256)%N).
    { apply IH; trivial; apply N.Div0.div_lt_upper_bound; assumption. }
    assert (Hr : (v mod 256 = w mod 256)%N).
    { rewrite <- !byte_of_N_to_N. now rewrite Elo. }
    rewrite (N.div_mod v 256), (N.div_mod w 256) by discriminate.
    now rewrite Hq, Hr.
Qed.

Lemma uint256_inj (i j : TokenId) :
  (i < 2 ^ 256)%N -> (j < 2 ^ 256)%N -> be_bytes 32 i = be_bytes 32 j -> i = j.
Proof.
  intros Hi Hj. apply be_bytes_inj.
  - replace (256 ^ N.of_nat 32)%N with (2 ^ 256)%N by reflexivity. exact Hi.
  - replace (256 ^ N.of_nat 32)%N with (2 ^ 256)%N by reflexivity. exact Hj.
Qed.

Lemma Return_inj {A} (a b : A) : Return a = Return b -> a = b.
Proof. congruence. Qed.

(** The allow-listed text denotes the allow-listed address. *)
Lemma op_pool_allowed (op : OrderParams) :
  op_poolText op = allowedPoolText -> op_pool op = allowedPool.
Proof. unfold op_pool. intros ->. reflexivity. Qed.

(** Two lists of equal length in front of two tails are equal when the
    wholes are. *)
Lemma app_inv_length {A} (a b c d : list A) :
  List.length a = List.length b -> a ++ c = b ++ d -> a = b /\ c = d.
Proof.
  revert b; induction a as [|x a IH]; intros [|y b] L E; simpl in *; try discriminate.
  - now split.
  - injection E as -> E. destruct (IH b) as [-> ->]; auto.
Qed.

Section IdentityFacts.
Context {K : Keccak}.

Lemma getOrderId_buy (P : Address) (t : option TokenId) :
  getOrderId P buy t =
  Return (keccak256 (list_byte_of_string "nftx" ++ P ++ list_byte_of_string "buy" ++ [])).
Proof. reflexivity. Qed.

Lemma getOrderId_sell (P : Address) (i : TokenId) :
  (i < 2 ^ 256)%N ->
  getOrderId P sell (Some i) =
  Return (keccak256 (list_byte_of_string "nftx" ++ P ++
                     list_byte_of_string "sell" ++ be_bytes 32 i ++ [])).
Proof.
  intro Hi. unfold getOrderId, solidityKeccak256. cbn [solidityPack pack side_text].
  apply N.ltb_lt in Hi. rewrite Hi. reflexivity.
Qed.

Lemma getOrderId_sell_inv (P : Address) (t : option TokenId) (d : Digest) :
  getOrderId P sell t = Return d ->
  exists i, t = Some i /\ (i < 2 ^ 256)%N /\
    d = keccak256 (list_byte_of_string "nftx" ++ P ++
                   list_byte_of_string "sell" ++ be_bytes 32 i ++ []).
Proof.
  unfold getOrderId, solidityKeccak256. cbn [solidityPack pack side_text].
  destruct t as [i|]; [|discriminate].
  destruct (i <? 2 ^ 256)%N eqn:Hi; [|discriminate].
  intro E. injection E as <-. exists i. apply N.ltb_lt in Hi. auto.
Qed.

End IdentityFacts.

(** C2. [getOrderId] is a function of (pool, side, item): the buy
    identity of a pool is one digest, whatever the item argument and
    however often it is asked for; under collision-freedom of the hash
    it differs from the identity of every other (pool, side), and the
    sell identities of two distinct items of one pool differ. *)
Theorem getOrderId_deterministic_and_injective
    (K : Keccak) (CF : collision_free K) (P : Address)
    (HP : List.length P = 20%nat) :
  (exists d, forall t, getOrderId P buy t = Return d)
  /\ (forall (P' : Address) (s' : Side) (t t' : option TokenId),
        List.length P' = 20%nat ->
        P' <> P \/ s' <> buy ->
        getOrderId P' s' t' <> getOrderId P buy t)
  /\ (forall i j : TokenId,
        (i < 2 ^ 256)%N -> (j < 2 ^ 256)%N -> i <> j ->
        getOrderId P sell (Some i) <> getOrderId P sell (Some j)).
Proof.
  split; [|split].
  - eexists. intro t. apply getOrderId_buy.
  - intros P' s' t t' HP' Hne E.
    rewrite (getOrderId_buy P t) in E.
    destruct s'.
    + apply getOrderId_sell_inv in E. destruct E as (i & _ & _ & E).
      apply CF in E. apply (f_equal (@List.length byte)) in E.
      rewrite !length_app, be_bytes_length, HP, HP' in E. simpl in E. lia.
    + rewrite getOrderId_buy in E. apply Return_inj, CF, app_inv_head in E.
      apply app_inv_length in E; [|congruence].
      destruct Hne as [Hne|Hne]; [apply Hne; apply E | now apply Hne].
  - intros i j Hi Hj Hne E.
    rewrite (getOrderId_sell P Hi), (getOrderId_sell P Hj) in E.
    apply Return_inj, CF in E.
    do 3 apply app_inv_head in E. rewrite !app_nil_r in E.
    apply Hne. now apply uint256_inj.
Qed.

Lemma plainDigest_collision_free : collision_free plainDigest.
Proof. intros x y E. exact E. Qed.

Lemma getOrderId_deterministic_and_injective_witness :
  List.length allowedPool = 20%nat
  /\ getOrderId allowedPool sell (Some 1%N) <> getOrderId allowedPool sell (Some 2%N).
Proof.
  split; [reflexivity|].
  apply (getOrderId_deterministic_and_injective plainDigest_collision_free
           allowedPool eq_refl); [reflexivity | reflexivity | discriminate].
Defined.

(** ** The legs do what their plans say *)

Section Refinement.
Context {K : Keccak}.
Variable env : Env.

Lemma digest_eqb_refl (i : Digest) : digest_eqb i i = true.
Proof. destruct (digest_eqb_spec i i); congruence. Qed.

Lemma digest_eqb_eq (i j : Digest) : digest_eqb i j = true <-> i = j.
Proof. destruct (digest_eqb_spec i j); split; congruence. Qed.

Lemma present_In (l : list Digest) (i : Digest) : present l i = true <-> In i l.
Proof.
  unfold present. rewrite existsb_exists. split.
  - intros (j & Hj & E). apply digest_eqb_eq in E. now subst.
  - intro H. exists i. split; [assumption | apply digest_eqb_refl].
Qed.

Lemma present_false (l : list Digest) (i : Digest) : present l i = false <-> ~ In i l.
Proof.
  rewrite <- present_In. destruct (present l i); split; congruence.
Qed.

Lemma ids_update_where (i : Digest) (f : Row -> Row) (t : Table) :
  (forall r, id (f r) = id r) -> ids (update_where i f t) = ids t.
Proof.
  intro Hf. unfold ids, update_where. rewrite map_map. apply map_ext.
  intro r. destruct (digest_eqb (id r) i); [apply Hf | reflexivity].
Qed.

Lemma ids_run_update (st : IdbStatement) (t : Table) :
  is_update st -> ids (run_statement t st) = ids t.
Proof.
  destruct st; simpl; intro H; try contradiction; now apply ids_update_where.
Qed.

Lemma ids_fold_updates (sts : list IdbStatement) (t : Table) :
  Forall is_update sts -> ids (fold_left run_statement sts t) = ids t.
Proof.
  revert t; induction sts as [|st sts IH]; intros t H; simpl.
  - reflexivity.
  - inversion H; subst. rewrite IH by assumption. now apply ids_run_update.
Qed.

Lemma apply_effect_frame (s : State) (e : Effect) :
  arrays (apply_effect s e) = arrays s
  /\ feeBps (apply_effect s e) = feeBps s
  /\ feeBreakdown (apply_effect s e) = feeBreakdown s.
Proof. destruct e; simpl; auto. Qed.

Lemma apply_effect_ids (s : State) (e : Effect) :
  updates_only e -> ids (orders (apply_effect s e)) = ids (orders s).
Proof.
  destruct e; simpl; intro H; [reflexivity | now apply ids_run_update].
Qed.

Lemma apply_effects_app (s : State) (es es' : list Effect) :
  apply_effects s (es ++ es') = apply_effects (apply_effects s es) es'.
Proof. apply fold_left_app. Qed.

Lemma sent_app (es es' : list Effect) : sent (es ++ es') = sent es ++ sent es'.
Proof. apply flat_map_app. Qed.

Lemma buffered_app (es es' : list Effect) : buffered (es ++ es') = buffered es ++ buffered es'.
Proof. apply flat_map_app. Qed.

(** The five observable components of the state after a list of effects. *)
Lemma apply_effects_spec (es : list Effect) :
  forall s : State,
    results (apply_effects s es) = results s ++ map effect_result es
    /\ orderValues (apply_effects s es) = orderValues s ++ buffered es
    /\ idb (apply_effects s es) = idb s ++ sent es
    /\ orders (apply_effects s es) = fold_left run_statement (sent es) (orders s)
    /\ arrays (apply_effects s es) = arrays s
    /\ feeBps (apply_effects s es) = feeBps s
    /\ feeBreakdown (apply_effects s es) = feeBreakdown s.
Proof.
  induction es as [|e es IH]; intro s.
  - simpl. rewrite !app_nil_r. auto 10.
  - change (apply_effects s (e :: es)) with (apply_effects (apply_effect s e) es).
    destruct (IH (apply_effect s e)) as (R & V & I & O & A & B & F).
    rewrite R, V, I, O, A, B, F.
    destruct e; simpl; rewrite <- ?app_assoc; simpl; auto 10.
Qed.

Lemma write_fee_frame (pool : NftPool) (bps : option Z) (s : State) :
  results (write_fee pool bps s) = results s
  /\ orderValues (write_fee pool bps s) = orderValues s
  /\ idb (write_fee pool bps s) = idb s
  /\ orders (write_fee pool bps s) = orders s
  /\ feeBreakdown (write_fee pool bps s) = feeBreakdown s.
Proof. destruct bps; simpl; auto 10. Qed.

(** The plans produce no statement but the three [UPDATE]s. *)
Lemma itemPlan_updates_only l bps ref entries op pool cur prices price_ value_ mr nv t e :
  itemPlan env l bps ref entries op pool cur prices price_ value_ mr nv t = Return e ->
  updates_only e.
Proof.
  unfold itemPlan, and_then.
  destruct (getOrderId (op_pool op) sell (Some t)); [|discriminate].
  destruct (toString price_); [|discriminate].
  destruct (negb (present l a)).
  - destruct (singleToken_save env (pool_nft pool) t); [|discriminate].
    destruct (require_tokenSetId a1); [|discriminate].
    destruct (sources_getOrInsert env); [|discriminate].
    intro E; injection E as <-. exact I.
  - intro E; injection E as <-. exact I.
Qed.

Lemma buyPlan_updates_only l ref entries op pool pl e :
  buyPlan env l ref entries op pool pl = Return e -> updates_only e.
Proof.
  unfold buyPlan, and_then. destruct pl as [|first rest]; [discriminate|].
  destruct (getOrderId (op_pool op) buy None); [|discriminate].
  destruct (pp_sell first).
  - destruct (getRoyaltiesByTokenSet env (pool_nft pool)); [|discriminate].
    destruct (royaltiesOnTop _ _); [|discriminate].
    destruct (toString _); [|discriminate].
    destruct (negb (present l a)).
    + destruct (contractWide_save env (pool_nft pool)); [|discriminate].
      destruct (require_tokenSetId _); [|discriminate].
      destruct (sources_getOrInsert env); [|discriminate].
      intro E; injection E as <-. exact I.
    + intro E; injection E as <-. exact I.
  - intro E; injection E as <-. exact I.
Qed.

Lemma Forall_flat_map {A B} (P : B -> Prop) (f : A -> list B) (l : list A) :
  (forall a, In a l -> Forall P (f a)) -> Forall P (flat_map f l).
Proof.
  intro H. induction l as [|a l IH]; simpl.
  - constructor.
  - apply Forall_app. split; [apply H; now left | apply IH; intros; apply H; now right].
Qed.

Lemma caught_itemPlan_updates_only l bps ref entries op pool cur prices price_ value_ mr nv t :
  Forall updates_only
    (caught (itemPlan env l bps ref entries op pool cur prices price_ value_ mr nv t)
            (fun e => [e])).
Proof.
  destruct (itemPlan env l bps ref entries op pool cur prices price_ value_ mr nv t) eqn:E;
    simpl; [|constructor].
  constructor; [|constructor]. eapply itemPlan_updates_only; eassumption.
Qed.

Lemma sellPlan_updates_only l ref entries op pool pl es :
  sellPlan env l ref entries op pool pl = Return es -> Forall updates_only es.
Proof.
  unfold sellPlan, and_then. destruct pl as [|first rest]; [discriminate|].
  destruct (pp_buy first).
  - destruct (getRoyaltiesByTokenSet env (pool_nft pool)); [|discriminate].
    destruct (royaltiesOnTop _ _); [|discriminate].
    destruct (getNfts env _ _); [|discriminate].
    intro E; injection E as <-.
    apply Forall_flat_map. intros t _. apply caught_itemPlan_updates_only.
  - intro E; injection E as <-. constructor.
Qed.

Lemma legEffects_updates_only l ref op pool pl :
  Forall updates_only (legEffects env l ref op pool pl).
Proof.
  unfold legEffects. apply Forall_app. split.
  - destruct (buyPlan env l ref _ op pool pl) eqn:E; simpl; [|constructor].
    constructor; [|constructor]. eapply buyPlan_updates_only; eassumption.
  - destruct (sellPlan env l ref _ op pool pl) eqn:E; simpl; [|constructor].
    eapply sellPlan_updates_only; eassumption.
Qed.

Lemma sent_updates (es : list Effect) :
  Forall updates_only es -> Forall is_update (sent es).
Proof.
  intro H. unfold sent. apply Forall_flat_map. intros e He.
  rewrite Forall_forall in H. specialize (H e He).
  destruct e; simpl; [constructor | constructor; [assumption | constructor]].
Qed.

Lemma apply_effects_ids (es : list Effect) (s : State) :
  Forall updates_only es -> ids (orders (apply_effects s es)) = ids (orders s).
Proof.
  intro H. destruct (apply_effects_spec es s) as (_ & _ & _ & O & _).
  rewrite O. apply ids_fold_updates. now apply sent_updates.
Qed.

(** One token of the sell loop (the body of the inner [try]). *)
Lemma sellItem_plan op pool cur prices price_ value_ mr nv t (s : State) :
  sellItem env op pool cur prices price_ value_ mr nv t s =
  match itemPlan env (ids (orders s)) (feeBps s) (feeBreakdown s)
          (deref (arrays s) (feeBreakdown s)) op pool cur prices price_ value_ mr nv t with
  | Return e => (Return tt, apply_effect s e)
  | Throw => (Throw, s)
  end.
Proof.
  unfold sellItem, itemPlan, bind, await, and_then, redb_oneOrNone, gets, oneOrNone.
  destruct (getOrderId (op_pool op) sell (Some t)) as [i|]; [|reflexivity].
  destruct (toString price_) as [p|]; [|reflexivity].
  destruct (negb (present (ids (orders s)) i)).
  - destruct (singleToken_save env (pool_nft pool) t) as [saved|]; [|reflexivity].
    destruct (require_tokenSetId saved) as [tokenSetId|]; [|reflexivity].
    destruct (sources_getOrInsert env) as [source|]; reflexivity.
  - reflexivity.
Qed.

(** The sell loop. *)
Lemma sell_loop_plan op pool cur prices price_ value_ mr nv (tokens : list TokenId) :
  forall s : State,
    for_of tokens (fun t => try_catch (sellItem env op pool cur prices price_ value_ mr nv t)) s =
    (Return tt,
     apply_effects s
       (flat_map (fun t =>
          caught (itemPlan env (ids (orders s)) (feeBps s) (feeBreakdown s)
                    (deref (arrays s) (feeBreakdown s)) op pool cur prices price_ value_ mr nv t)
                 (fun e => [e]))
          tokens)).
Proof.
  induction tokens as [|t tokens IH]; intro s.
  - reflexivity.
  - simpl for_of. unfold bind at 1. unfold try_catch at 1. rewrite sellItem_plan.
    simpl flat_map. rewrite apply_effects_app.
    destruct (itemPlan env (ids (orders s)) (feeBps s) (feeBreakdown s)
                (deref (arrays s) (feeBreakdown s)) op pool cur prices price_ value_ mr nv t)
      as [e|] eqn:E; simpl snd; simpl caught.
    + rewrite IH. change (apply_effects s [e]) with (apply_effect s e).
      destruct (apply_effect_frame s e) as (A & B & F).
      rewrite A, B, F, (apply_effect_ids s e (itemPlan_updates_only _ _ _ _ _ _ _ _ _ _ _ _ _ E)).
      reflexivity.
    + rewrite IH. reflexivity.
Qed.

(** The buy leg (the body of its [try]). *)
Lemma buyLeg_plan op pool pl (s : State) :
  buyLeg env op pool pl s =
  let s1 := write_fee pool (buyFee pl) s in
  match buyPlan env (ids (orders s)) (feeBreakdown s)
          (deref (arrays s1) (feeBreakdown s)) op pool pl with
  | Return e => (Return tt, apply_effect s1 e)
  | Throw => (Throw, s1)
  end.
Proof.
  unfold buyLeg, buyPlan. destruct pl as [|first rest]; [reflexivity|].
  rewrite getOrderId_buy.
  cbn [buyFee]. destruct (pp_sell first) as [value_|]; [|reflexivity].
  unfold feeBreakdown_push, redb_oneOrNone, oneOrNone.
  unfold bind, await, and_then, gets, modify.
  cbn [write_fee set_feeBps feeBps feeBreakdown orders set_arrays arrays].
  destruct (getRoyaltiesByTokenSet env (pool_nft pool)) as [roy|]; [|reflexivity].
  destruct (royaltiesOnTop (hd_error (rawSells (first :: rest))) roy) as [top|]; [|reflexivity].
  destruct (toString (hd_error (rawSells (first :: rest)))) as [p|]; [|reflexivity].
  destruct (negb (present (ids (orders s)) _)).
  - destruct (contractWide_save env (pool_nft pool)) as [saved|]; [|reflexivity].
    destruct (require_tokenSetId saved) as [tokenSetId|]; [|reflexivity].
    destruct (sources_getOrInsert env) as [source|]; reflexivity.
  - reflexivity.
Qed.

(** The sell leg (the body of its [try]). *)
Lemma sellLeg_plan op pool pl (s : State) :
  sellLeg env op pool pl s =
  let s1 := write_fee pool (sellFee pl) s in
  match sellPlan env (ids (orders s)) (feeBreakdown s)
          (deref (arrays s1) (feeBreakdown s)) op pool pl with
  | Return es => (Return tt, apply_effects s1 es)
  | Throw => (Throw, s1)
  end.
Proof.
  unfold sellLeg, sellPlan. destruct pl as [|first rest]; [reflexivity|].
  cbn [sellFee]. destruct (pp_buy first) as [value_|]; [|reflexivity].
  unfold bind at 1. unfold modify at 1. unfold bind at 1. unfold gets at 1.
  unfold bind at 1. unfold feeBreakdown_push, modify at 1.
  unfold bind at 1. unfold await at 1. unfold and_then at 1.
  cbn [write_fee set_feeBps feeBps feeBreakdown orders set_arrays arrays].
  destruct (getRoyaltiesByTokenSet env (pool_nft pool)) as [roy|]; [|reflexivity].
  unfold bind at 1. unfold await at 1. unfold and_then at 1.
  destruct (royaltiesOnTop (hd_error (rawBuys (first :: rest))) roy) as [top|]; [|reflexivity].
  unfold bind at 1. unfold await at 1. unfold and_then at 1.
  destruct (getNfts env (pool_nft pool) (pool_address pool)) as [tokens|]; [|reflexivity].
  rewrite sell_loop_plan. reflexivity.
Qed.

Lemma array_push_last (h : list (list FeeEntry)) (a : list FeeEntry) (e : FeeEntry) :
  array_push (List.length h) e (h ++ [a]) = h ++ [a ++ [e]].
Proof. induction h as [|x h IH]; simpl; [reflexivity | now rewrite IH]. Qed.

Lemma deref_last (h : list (list FeeEntry)) (a : list FeeEntry) :
  deref (h ++ [a]) (List.length h) = a.
Proof. unfold deref. rewrite app_nth2, Nat.sub_diag by lia. reflexivity. Qed.

Lemma deref_app_l (h h' : list (list FeeEntry)) (r : Ref) :
  (r < List.length h)%nat -> deref (h ++ h') r = deref h r.
Proof. intro H. unfold deref. now apply app_nth1. Qed.

Lemma handleOrder_run op (s : State) :
  handleOrder env op s =
  (Return tt,
   match prepare env op with
   | Return (Some (pool, pl)) =>
       snd (sellLeg env op pool pl
              (snd (buyLeg env op pool pl
                      (set_feeBps 0
                         (set_feeBreakdown (List.length (arrays s))
                            (set_arrays (fun h => h ++ [[]]) s))))))
   | _ => s
   end).
Proof.
  unfold handleOrder, try_catch, bind, await, declare_fees, modify, ret.
  destruct (prepare env op) as [[[pool pl]|]|]; reflexivity.
Qed.

(** [handleOrder] never throws; an event whose preparation fails leaves
    the state as it was, any other appends the effects of its legs and
    one fee array. *)
Lemma handleOrder_spec op (s : State) :
  fst (handleOrder env op s) = Return tt
  /\ match eventPlan env (ids (orders s)) (List.length (arrays s)) op with
     | None => snd (handleOrder env op s) = s
     | Some (entries, es) =>
         let s' := snd (handleOrder env op s) in
         results s' = results s ++ map effect_result es
         /\ orderValues s' = orderValues s ++ buffered es
         /\ idb s' = idb s ++ sent es
         /\ orders s' = fold_left run_statement (sent es) (orders s)
         /\ arrays s' = arrays s ++ [entries]
     end.
Proof.
  split; [reflexivity|].
  rewrite handleOrder_run. unfold eventPlan.
  destruct (prepare env op) as [[[pool pl]|]|]; try reflexivity.
  cbv zeta. cbn [snd]. rewrite buyLeg_plan.
  set (s0 := set_feeBps 0 _).
  assert (A0 : arrays s0 = arrays s ++ [[]]) by reflexivity.
  assert (F0 : feeBreakdown s0 = List.length (arrays s)) by reflexivity.
  assert (I0 : ids (orders s0) = ids (orders s)) by reflexivity.
  set (s1 := write_fee pool (buyFee pl) s0).
  assert (A1 : arrays s1 = arrays s ++ [fee_entries pool (buyFee pl)]).
  { subst s1. destruct (buyFee pl); simpl; [|exact A0].
    change (array_push (List.length (arrays s)) (marketplace_fee pool z) (arrays s ++ [[]])
            = arrays s ++ [[marketplace_fee pool z]]).
    apply array_push_last. }
  destruct (write_fee_frame pool (buyFee pl) s0) as (R1 & V1 & D1 & O1 & F1).
  fold s1 in R1, V1, D1, O1, F1.
  cbv zeta. rewrite I0, F0, A1, deref_last.
  rewrite sellLeg_plan. cbv zeta.
  unfold legEffects.
  set (bp := buyPlan env (ids (orders s)) (List.length (arrays s))
               (fee_entries pool (buyFee pl)) op pool pl).
  assert (Hbp : Forall updates_only (caught bp (fun e => [e]))).
  { subst bp. destruct (buyPlan _ _ _ _ _ _ _) eqn:E; simpl; [|constructor].
    constructor; [|constructor]. eapply buyPlan_updates_only; eassumption. }
  set (s2 := snd (match bp with
                  | Return e => (Return tt, apply_effect s1 e)
                  | Throw => (Throw, s1)
                  end)).
  assert (E2 : s2 = apply_effects s1 (caught bp (fun e => [e]))).
  { subst s2. destruct bp; reflexivity. }
  destruct (apply_effects_spec (caught bp (fun e => [e])) s1) as (R2 & V2 & D2 & O2 & A2 & _ & F2).
  rewrite <- E2 in R2, V2, D2, O2, A2, F2.
  assert (I2 : ids (orders s2) = ids (orders s)).
  { rewrite E2, apply_effects_ids by assumption. now rewrite O1. }
  set (s3 := write_fee pool (sellFee pl) s2).
  assert (A3 : arrays s3 = arrays s ++ [eventEntries pool pl]).
  { subst s3. unfold eventEntries.
    destruct (sellFee pl); simpl.
    - rewrite A2, A1, F2, F1, F0. apply array_push_last.
    - rewrite A2, A1, app_nil_r. reflexivity. }
  destruct (write_fee_frame pool (sellFee pl) s2) as (R3 & V3 & D3 & O3 & F3).
  fold s3 in R3, V3, D3, O3, F3.
  rewrite I2, F2, F1, F0, A3, deref_last.
  fold (eventEntries pool pl).
  set (sp := sellPlan env (ids (orders s)) (List.length (arrays s))
               (eventEntries pool pl) op pool pl).
  set (s4 := snd (match sp with
                  | Return es => (Return tt, apply_effects s3 es)
                  | Throw => (Throw, s3)
                  end)).
  assert (E4 : s4 = apply_effects s3 (caught sp (fun es => es))).
  { subst s4. destruct sp; reflexivity. }
  destruct (apply_effects_spec (caught sp (fun es => es)) s3) as (R4 & V4 & D4 & O4 & A4 & _ & _).
  rewrite <- E4 in R4, V4, D4, O4, A4.
  repeat split.
  - rewrite R4, R3, R2, R1, map_app, app_assoc. reflexivity.
  - rewrite V4, V3, V2, V1, buffered_app, app_assoc. reflexivity.
  - rewrite D4, D3, D2, D1, sent_app, app_assoc. reflexivity.
  - rewrite O4, O3, O2, O1, sent_app, fold_left_app. reflexivity.
  - rewrite A4, A3. reflexivity.
Qed.

Lemma eventPlan_updates_only l ref op entries es :
  eventPlan env l ref op = Some (entries, es) -> Forall updates_only es.
Proof.
  unfold eventPlan. destruct (prepare env op) as [[[pool pl]|]|]; try discriminate.
  intro E; injection E as _ <-. apply legEffects_updates_only.
Qed.

Lemma batchEffects_updates_only (batch : list OrderParams) :
  forall l ref, Forall updates_only (batchEffects env l ref batch).
Proof.
  unfold batchEffects.
  induction batch as [|op batch IH]; intros l ref; simpl.
  - constructor.
  - destruct (eventPlan env l ref op) as [[entries es]|] eqn:E; [|apply IH].
    simpl. apply Forall_app. split; [|apply IH].
    eapply eventPlan_updates_only; eassumption.
Qed.

(** The loop over the batch. *)
Lemma batch_spec (batch : list OrderParams) :
  forall s : State,
    let s' := snd (for_of batch (handleOrder env) s) in
    let plans := batchPlans env (ids (orders s)) (List.length (arrays s)) batch in
    let es := flat_map snd plans in
    fst (for_of batch (handleOrder env) s) = Return tt
    /\ results s' = results s ++ map effect_result es
    /\ orderValues s' = orderValues s ++ buffered es
    /\ idb s' = idb s ++ sent es
    /\ orders s' = fold_left run_statement (sent es) (orders s)
    /\ arrays s' = arrays s ++ map fst plans.
Proof.
  induction batch as [|op batch IH]; intro s.
  - simpl. rewrite !app_nil_r. auto 10.
  - cbv zeta.
    assert (Hstep : for_of (op :: batch) (handleOrder env) s =
                    for_of batch (handleOrder env) (snd (handleOrder env op s))).
    { reflexivity. }
    rewrite Hstep.
    destruct (handleOrder_spec op s) as [_ H].
    specialize (IH (snd (handleOrder env op s))). cbv zeta in IH.
    cbn [batchPlans].
    destruct (eventPlan env (ids (orders s)) (List.length (arrays s)) op)
      as [[entries es]|] eqn:E.
    + cbv zeta in H. destruct H as (R & V & D & O & A).
      assert (I1 : ids (orders (snd (handleOrder env op s))) = ids (orders s)).
      { rewrite O. apply ids_fold_updates, sent_updates.
        eapply eventPlan_updates_only; eassumption. }
      assert (L1 : List.length (arrays (snd (handleOrder env op s))) = S (List.length (arrays s))).
      { rewrite A, length_app. simpl. lia. }
      rewrite I1, L1 in IH. destruct IH as (F' & R' & V' & D' & O' & A').
      cbn [flat_map map snd fst].
      rewrite R', V', D', O', A', R, V, D, O, A.
      rewrite map_app, buffered_app, sent_app, fold_left_app, <- !app_assoc.
      auto 10.
    + rewrite H in *. exact IH.
Qed.

(** What [save] returns and leaves in the table, in terms of the
    effects of the batch. *)
Lemma save_spec (batch : list OrderParams) (t : Table) :
  let es := batchEffects env (ids t) O batch in
  let rows := flushed_rows env (ids t) batch in
  saved_results (save env batch t) = map effect_result es
  /\ saved_idb (save env batch t) =
       sent es ++ match rows with [] => [] | _ :: _ => [InsertOnConflictDoNothing rows] end
  /\ saved_orders (save env batch t) =
       insert_on_conflict_do_nothing rows (fold_left run_statement (sent es) t).
Proof.
  cbv zeta. unfold save, save_state. cbn [saved_results saved_idb saved_orders].
  unfold bind at 1 2 3.
  destruct (batch_spec batch (initial t)) as (F & R & V & D & Ot & A).
  cbn [initial orders arrays results orderValues idb List.length app] in R, V, D, Ot, A.
  destruct (for_of batch (handleOrder env) (initial t)) as [o s'] eqn:E.
  cbn [fst snd] in *. subst o.
  unfold flush, bind, gets, ret, idb_none, modify, flushed_rows.
  fold (batchEffects env (ids t) O batch) in R, V, D, Ot.
  rewrite <- V, <- A.
  destruct (orderValues s') as [|row rows'] eqn:EV; cbn [snd map].
  - rewrite R, D, Ot, app_nil_r. auto.
  - cbn [results idb orders set_idb set_orders run_statement].
    rewrite R, D, Ot. auto.
Qed.

End Refinement.

(** ** Where the written orders come from *)

Section Provenance.
Context {K : Keccak}.
Variable env : Env.

Lemma prepare_inv op pool pl :
  prepare env op = Return (Some (pool, pl)) ->
  op_pool op = allowedPool
  /\ getNftPoolDetails env allowedPool = Return (Some pool)
  /\ getPoolPrices env allowedPool (seq 0 10) = Return pl.
Proof.
  unfold prepare, and_then.
  destruct (getNftPoolDetails env (op_pool op)) as [[pool'|]|] eqn:D; try discriminate.
  destruct (String.eqb_spec (op_poolText op) allowedPoolText) as [B|B]; cbn [negb];
    [|discriminate].
  assert (E : op_pool op = allowedPool) by now apply op_pool_allowed.
  rewrite E in *.
  destruct (getPoolPrices env allowedPool (seq 0 10)) as [pl'|]; [|discriminate].
  intro H; injection H as -> ->. auto.
Qed.

Lemma hd_error_toString (prices : list Z) (p : Z) :
  toString (hd_error prices) = Return p -> hd_error prices = Some p.
Proof. destruct (hd_error prices); simpl; congruence. Qed.

(** What the buy leg writes. *)
Lemma buyPlan_derives l ref entries op pool pl e :
  prepare env op = Return (Some (pool, pl)) ->
  buyPlan env l ref entries op pool pl = Return e ->
  match e with
  | Buffered row _ =>
      fee_breakdown row = ref
      /\ forall h, deref h ref = eventEntries pool pl ->
                   derives env l (derived_of_row (serialise h row))
  | Sent (UpdateBuy _ u) _ =>
      entries = fee_entries pool (buyFee pl) ->
      derives env l (derived_of_update buy (u_quantityRemaining u) u)
  | Sent (UpdateNoBalance _ _) _ => True
  | Sent _ _ => False
  end.
Proof.
  intros Hp. destruct (prepare_inv _ Hp) as (Eo & Hd & Hl).
  unfold buyPlan, and_then. destruct pl as [|first rest]; [discriminate|].
  rewrite Eo.
  destruct (getOrderId allowedPool buy None) as [i|] eqn:Hi; [|discriminate].
  destruct (pp_sell first) as [value_|] eqn:Hs.
  - destruct (getRoyaltiesByTokenSet env (pool_nft pool)) as [roy|] eqn:Hr; [|discriminate].
    destruct (royaltiesOnTop (hd_error (rawSells (first :: rest))) roy) as [top|] eqn:Ht;
      [|discriminate].
    destruct (toString (hd_error (rawSells (first :: rest)))) as [p|] eqn:Hq; [|discriminate].
    apply hd_error_toString in Hq. rewrite Hq in Ht.
    pose proof (derives_buy env l Hd Hl Hs Hq Hr Ht Hi) as Dv.
    destruct (negb (present l i)) eqn:Hpr.
    + destruct (contractWide_save env (pool_nft pool)) as [saved|]; [|discriminate].
      destruct (require_tokenSetId saved) as [tokenSetId|]; [|discriminate].
      destruct (sources_getOrInsert env) as [source|]; [|discriminate].
      intro E; injection E as <-. split; [reflexivity|].
      intros h Hh. unfold derived_of_row, serialise, orderValue. cbn.
      rewrite Hh. exact Dv.
    + intro E; injection E as <-. intros ->. exact Dv.
  - intro E; injection E as <-. exact I.
Qed.

(** What one token of the sell loop writes. *)
Lemma itemPlan_derives l ref op pool first rest value_ roy top t e :
  prepare env op = Return (Some (pool, first :: rest)) ->
  pp_buy first = Some value_ ->
  getRoyaltiesByTokenSet env (pool_nft pool) = Return roy ->
  royaltiesOnTop (hd_error (rawBuys (first :: rest))) roy = Return top ->
  itemPlan env l (bps_buy first) ref (eventEntries pool (first :: rest)) op pool
    (pp_currency first) (rawBuys (first :: rest)) (hd_error (rawBuys (first :: rest)))
    value_ (fst top) (value_ + snd top) t = Return e ->
  match e with
  | Buffered row _ =>
      fee_breakdown row = ref
      /\ forall h, deref h ref = eventEntries pool (first :: rest) ->
                   derives env l (derived_of_row (serialise h row))
  | Sent (UpdateSell _ u) _ => derives env l (derived_of_update sell 1%N u)
  | Sent _ _ => False
  end.
Proof.
  intros Hp Hb Hr Ht. destruct (prepare_inv _ Hp) as (Eo & Hd & Hl).
  unfold itemPlan, and_then. rewrite Eo.
  destruct (getOrderId allowedPool sell (Some t)) as [i|] eqn:Hi; [|discriminate].
  destruct (toString (hd_error (rawBuys (first :: rest)))) as [p|] eqn:Hq; [|discriminate].
  apply hd_error_toString in Hq. rewrite Hq in Ht.
  pose proof (derives_sell env l t Hd Hl Hb Hq Hr Ht Hi) as Dv.
  destruct (negb (present l i)) eqn:Hpr.
  - destruct (singleToken_save env (pool_nft pool) t) as [saved|]; [|discriminate].
    destruct (require_tokenSetId saved) as [tokenSetId|]; [|discriminate].
    destruct (sources_getOrInsert env) as [source|]; [|discriminate].
    intro E; injection E as <-. split; [reflexivity|].
    intros h Hh. unfold derived_of_row, serialise, orderValue. cbn.
    rewrite Hh. exact Dv.
  - intro E; injection E as <-. exact Dv.
Qed.

Lemma legEffects_derive l ref op pool pl e :
  prepare env op = Return (Some (pool, pl)) ->
  In e (legEffects env l ref op pool pl) ->
  effect_derives env l ref (eventEntries pool pl) e.
Proof.
  intros Hp Hin. unfold legEffects in Hin. apply in_app_or in Hin. destruct Hin as [Hin|Hin].
  - destruct (buyPlan env l ref (fee_entries pool (buyFee pl)) op pool pl) as [e'|] eqn:E;
      simpl in Hin; [|contradiction].
    destruct Hin as [<-|[]].
    pose proof (@buyPlan_derives l ref _ op pool pl e' Hp E) as H.
    destruct e' as [row r|st r]; [exact H|].
    destruct st; simpl; try contradiction.
    intros d [<-|[]]. now apply H.
  - fold (eventEntries pool pl) in Hin.
    unfold sellPlan in Hin. destruct pl as [|first rest]; [contradiction|].
    destruct (pp_buy first) as [value_|] eqn:Hb; [|contradiction].
    unfold and_then in Hin.
    destruct (getRoyaltiesByTokenSet env (pool_nft pool)) as [roy|] eqn:Hr; [|contradiction].
    destruct (royaltiesOnTop (hd_error (rawBuys (first :: rest))) roy) as [top|] eqn:Ht;
      [|contradiction].
    destruct (getNfts env (pool_nft pool) (pool_address pool)) as [tokens|];
      cbn [caught] in Hin; [|contradiction].
    apply in_flat_map in Hin. destruct Hin as (t & _ & Hin).
    destruct (itemPlan env l (bps_buy first) ref (eventEntries pool (first :: rest)) op pool
                (pp_currency first) (rawBuys (first :: rest))
                (hd_error (rawBuys (first :: rest))) value_ (fst top) (value_ + snd top) t)
      as [e'|] eqn:E; simpl in Hin; [|contradiction].
    destruct Hin as [<-|[]].
    pose proof (@itemPlan_derives l ref op pool first rest value_ roy top t e' Hp Hb Hr Ht E) as H.
    destruct e' as [row r|st r]; [exact H|].
    destruct st; simpl; try contradiction.
    intros d [<-|[]]. exact H.
Qed.

Lemma batchPlans_inv (batch : list OrderParams) :
  forall l ref plan,
    In plan (batchPlans env l ref batch) ->
    exists op pool pl k,
      In op batch
      /\ prepare env op = Return (Some (pool, pl))
      /\ plan = (eventEntries pool pl, legEffects env l (ref + k)%nat op pool pl)
      /\ (k < List.length (batchPlans env l ref batch))%nat.
Proof.
  induction batch as [|op batch IH]; intros l ref plan Hin; simpl in Hin.
  - contradiction.
  - unfold eventPlan in Hin. cbn [batchPlans]. unfold eventPlan.
    destruct (prepare env op) as [[[pool pl]|]|] eqn:Hp.
    + destruct Hin as [<-|Hin].
      * exists op, pool, pl, O. rewrite Nat.add_0_r. simpl. repeat split; auto. lia.
      * destruct (IH _ _ _ Hin) as (op' & pool' & pl' & k & Ho & Hp' & -> & Hk).
        exists op', pool', pl', (S k). rewrite Nat.add_succ_r. simpl.
        repeat split; auto. lia.
    + destruct (IH _ _ _ Hin) as (op' & pool' & pl' & k & Ho & Hp' & -> & Hk).
      exists op', pool', pl', k. repeat split; auto. now right.
    + destruct (IH _ _ _ Hin) as (op' & pool' & pl' & k & Ho & Hp' & -> & Hk).
      exists op', pool', pl', k. repeat split; auto. now right.
Qed.

(** Every event that gets past the allow-list is about the same pool,
    so all of them see the same details and the same quotes. *)
Lemma prepare_same op op' pool pl pool' pl' :
  prepare env op = Return (Some (pool, pl)) ->
  prepare env op' = Return (Some (pool', pl')) ->
  pool' = pool /\ pl' = pl.
Proof.
  intros H H'. apply prepare_inv in H. apply prepare_inv in H'.
  destruct H as (_ & D & P). destruct H' as (_ & D' & P').
  split; congruence.
Qed.

Lemma nth_constant {A} (l : list A) (x d : A) (k : nat) :
  (forall y, In y l -> y = x) -> (k < List.length l)%nat -> nth k l d = x.
Proof.
  intros H Hk. apply H. now apply nth_In.
Qed.

Lemma in_sent (es : list Effect) (st : IdbStatement) :
  In st (sent es) -> exists r, In (Sent st r) es.
Proof.
  unfold sent. rewrite in_flat_map. intros (e & He & Hin).
  destruct e as [row r|st' r]; simpl in Hin; [contradiction|].
  destruct Hin as [<-|[]]. now exists r.
Qed.

Lemma in_buffered (es : list Effect) (row : DbOrder Ref) :
  In row (buffered es) -> exists r, In (Buffered row r) es.
Proof.
  unfold buffered. rewrite in_flat_map. intros (e & He & Hin).
  destruct e as [row' r|st' r]; simpl in Hin; [|contradiction].
  destruct Hin as [<-|[]]. now exists r.
Qed.

Lemma in_batchEffects l ref batch e :
  In e (batchEffects env l ref batch) ->
  exists op pool pl k,
    In op batch
    /\ prepare env op = Return (Some (pool, pl))
    /\ In e (legEffects env l (ref + k)%nat op pool pl)
    /\ (k < List.length (batchPlans env l ref batch))%nat.
Proof.
  unfold batchEffects. rewrite in_flat_map. intros (plan & Hplan & Hin).
  destruct (batchPlans_inv _ _ _ _ Hplan) as (op & pool & pl & k & Ho & Hp & -> & Hk).
  exists op, pool, pl, k. auto.
Qed.

(** Every order [save] writes is derived from the quotes and royalties
    of the allow-listed pool. *)
Lemma save_derives (batch : list OrderParams) (t : Table) (d : DerivedOrder) :
  In d (derivedOrders (save env batch t)) -> derives env (ids t) d.
Proof.
  unfold derivedOrders. destruct (save_spec env batch t) as (_ & -> & _).
  rewrite in_flat_map. intros (st & Hst & Hd).
  apply in_app_or in Hst. destruct Hst as [Hst|Hst].
  - apply in_sent in Hst. destruct Hst as (r & He).
    apply in_batchEffects in He. destruct He as (op & pool & pl & k & _ & Hp & He & _).
    apply (@legEffects_derive _ _ _ _ _ _ Hp He). exact Hd.
  - destruct (flushed_rows env (ids t) batch) as [|r0 rows0] eqn:Er; [contradiction|].
    destruct Hst as [<-|[]]. rewrite <- Er in Hd. clear Er r0 rows0.
    cbn [derived] in Hd. apply in_map_iff in Hd. destruct Hd as (row & <- & Hrow).
    unfold flushed_rows in Hrow. apply in_map_iff in Hrow.
    destruct Hrow as (brow & <- & Hb).
    apply in_buffered in Hb. destruct Hb as (r & He).
    apply in_batchEffects in He. destruct He as (op & pool & pl & k & _ & Hp & He & Hk).
    destruct (@legEffects_derive _ _ _ _ _ _ Hp He) as [Href Hder].
    apply Hder. rewrite Nat.add_0_l. unfold deref.
    rewrite <- (length_map fst) in Hk.
    apply nth_constant; [|exact Hk].
    intros y Hy. apply in_map_iff in Hy. destruct Hy as (plan & <- & Hplan).
    destruct (batchPlans_inv _ _ _ _ Hplan) as (op' & pool' & pl' & k' & _ & Hp' & -> & _).
    destruct (@prepare_same _ _ _ _ _ _ Hp Hp') as [-> ->]. reflexivity.
Qed.

End Provenance.

(** ** Royalties, prices and fees of the written orders *)

Lemma royaltiesOnTop_no_gap (price_ : option Z) (roy : list Royalty) :
  totalDefaultBps roy <= 0 -> royaltiesOnTop price_ roy = Return ([], 0).
Proof.
  intro H. unfold royaltiesOnTop.
  destruct (0 <? totalDefaultBps roy) eqn:E; [|reflexivity].
  apply Z.ltb_lt in E. lia.
Qed.

Lemma royaltiesOnTop_gap (p : Z) (roy : list Royalty) (first : Royalty) (others : list Royalty)
    (top : list MissingRoyalty * Z) :
  0 < totalDefaultBps roy ->
  validRecipients roy = first :: others ->
  royaltiesOnTop (Some p) roy = Return top ->
  top = ([{| mr_bps := totalDefaultBps roy;
             mr_amount := Z.quot (p * totalDefaultBps roy) 10000;
             mr_recipient := roy_recipient first |}],
         Z.quot (p * totalDefaultBps roy) 10000).
Proof.
  intros H V. unfold royaltiesOnTop. rewrite V.
  apply Z.ltb_lt in H. rewrite H. rewrite Z.sub_0_r.
  destruct (safe_number (totalDefaultBps roy)); [|discriminate].
  intro E. apply Return_inj in E. now subst top.
Qed.

Lemma royaltiesOnTop_nonneg (p : Z) (roy : list Royalty) top :
  royaltiesOnTop (Some p) roy = Return top -> 0 <= p -> 0 <= snd top.
Proof.
  unfold royaltiesOnTop.
  destruct (0 <? totalDefaultBps roy) eqn:E.
  - apply Z.ltb_lt in E. destruct (validRecipients roy).
    + intro H; injection H as <-. simpl. lia.
    + destruct (safe_number _); [|discriminate].
      intro H; injection H as <-. intro Hp. simpl.
      apply Z.quot_pos; lia.
  - intro H; injection H as <-. simpl. lia.
Qed.

(** C5. Whatever [save] writes for an order whose base price is not
    negative, created or repriced: on the buy side the normalised value
    is at most the value, on the sell side at least the value. *)
Theorem normalizedValue_bounds
    (K : Keccak) (env : Env) (batch : list OrderParams) (t : Table) (d : DerivedOrder)
    (Hd : In d (derivedOrders (save env batch t)))
    (Hprice : 0 <= do_price d) :
  match do_side d with
  | buy => do_normalizedValue d <= do_value d
  | sell => do_value d <= do_normalizedValue d
  end.
Proof.
  apply save_derives in Hd.
  destruct Hd as [pool first rest value_ p roy top i _ _ _ _ _ Ht _
                 |pool first rest value_ p roy top tokenId i _ _ _ _ _ Ht _];
    cbn in *;
    assert (0 <= snd top) by (eapply royaltiesOnTop_nonneg; eassumption); lia.
Qed.

Lemma normalizedValue_bounds_witness :
  In royaltyBuyOrder (derivedOrders (save royaltyEnv [exampleEvent] []))
  /\ 0 <= do_price royaltyBuyOrder
  /\ do_normalizedValue royaltyBuyOrder <= do_value royaltyBuyOrder.
Proof.
  assert (Hin : In royaltyBuyOrder (derivedOrders (save royaltyEnv [exampleEvent] []))).
  { vm_compute. left. reflexivity. }
  assert (Hp : 0 <= do_price royaltyBuyOrder) by (vm_compute; discriminate).
  split; [exact Hin|]. split; [exact Hp|].
  exact (normalizedValue_bounds royaltyEnv [exampleEvent] [] royaltyBuyOrder Hin Hp).
Defined.

(** C7. When the registry's schedule for an order's collection sums to
    no more than the built-in total (0), the order is written with a
    normalised value equal to its value and no missing royalty. *)
Theorem no_royalty_gap
    (K : Keccak) (env : Env) (batch : list OrderParams) (t : Table) (d : DerivedOrder)
    (roy : list Royalty)
    (Hd : In d (derivedOrders (save env batch t)))
    (Hroy : getRoyaltiesByTokenSet env (do_collection d) = Return roy)
    (Hgap : totalDefaultBps roy <= 0) :
  do_normalizedValue d = do_value d /\ do_missingRoyalties d = [].
Proof.
  apply save_derives in Hd.
  destruct Hd as [pool first rest value_ p roy' top i _ _ _ _ Hr Ht _
                 |pool first rest value_ p roy' top tokenId i _ _ _ _ Hr Ht _];
    cbn in *; rewrite Hr in Hroy; injection Hroy as ->;
    rewrite (royaltiesOnTop_no_gap (Some p) roy Hgap) in Ht; injection Ht as <-;
    cbn; (split; [lia | reflexivity]).
Qed.

Lemma no_royalty_gap_witness :
  In plainBuyOrder (derivedOrders (save plainEnv [exampleEvent] []))
  /\ getRoyaltiesByTokenSet plainEnv (do_collection plainBuyOrder) = Return []
  /\ totalDefaultBps [] <= 0
  /\ do_normalizedValue plainBuyOrder = do_value plainBuyOrder
  /\ do_missingRoyalties plainBuyOrder = [].
Proof.
  assert (Hin : In plainBuyOrder (derivedOrders (save plainEnv [exampleEvent] []))).
  { vm_compute. left. reflexivity. }
  assert (Hr : getRoyaltiesByTokenSet plainEnv (do_collection plainBuyOrder) = Return [])
    by reflexivity.
  assert (Hg : totalDefaultBps [] <= 0) by (vm_compute; discriminate).
  split; [exact Hin|]. split; [exact Hr|]. split; [exact Hg|].
  exact (no_royalty_gap plainEnv [exampleEvent] [] plainBuyOrder Hin Hr Hg).
Defined.

(** C3, as the code has it.  When the schedule of an order's
    collection sums to more than the built-in total (0) and has a
    recipient with non-zero bps and a non-zero address, the order is
    written with one missing royalty: the whole difference, of amount
    [floor (price * diffBps / 10000)] (the price not being negative),
    for the first such recipient; the normalised value is the VALUE (the
    first quote's price after slippage) less that amount on the buy side
    and plus that amount on the sell side. *)
Theorem royalty_top_up
    (K : Keccak) (env : Env) (batch : list OrderParams) (t : Table) (d : DerivedOrder)
    (roy : list Royalty) (first : Royalty) (others : list Royalty)
    (Hd : In d (derivedOrders (save env batch t)))
    (Hroy : getRoyaltiesByTokenSet env (do_collection d) = Return roy)
    (Hgap : 0 < totalDefaultBps roy)
    (Hvalid : validRecipients roy = first :: others)
    (Hprice : 0 <= do_price d) :
  let diffBps := totalDefaultBps roy - 0 in
  let amount := do_price d * diffBps / 10000 in
  do_missingRoyalties d =
    [{| mr_bps := diffBps; mr_amount := amount; mr_recipient := roy_recipient first |}]
  /\ do_normalizedValue d =
       match do_side d with
       | buy => do_value d - amount
       | sell => do_value d + amount
       end.
Proof.
  cbv zeta. rewrite Z.sub_0_r.
  apply save_derives in Hd.
  destruct Hd as [pool q rest value_ p roy' top i _ _ _ _ Hr Ht _
                 |pool q rest value_ p roy' top tokenId i _ _ _ _ Hr Ht _];
    cbn in *; rewrite Hr in Hroy; injection Hroy as ->;
    apply (@royaltiesOnTop_gap p roy first others top Hgap Hvalid) in Ht; subst top;
    cbn; rewrite Z.quot_div_nonneg by lia; split; reflexivity.
Qed.

Lemma royalty_top_up_witness :
  In royaltySellOrder (derivedOrders (save royaltyEnv [exampleEvent] []))
  /\ getRoyaltiesByTokenSet royaltyEnv (do_collection royaltySellOrder) = Return fivePercent
  /\ 0 < totalDefaultBps fivePercent
  /\ validRecipients fivePercent = fivePercent
  /\ 0 <= do_price royaltySellOrder
  /\ do_missingRoyalties royaltySellOrder =
       [{| mr_bps := 500; mr_amount := 500; mr_recipient := exampleRecipient |}]
  /\ do_normalizedValue royaltySellOrder = do_value royaltySellOrder + 500.
Proof.
  assert (Hin : In royaltySellOrder (derivedOrders (save royaltyEnv [exampleEvent] []))).
  { vm_compute. right. left. reflexivity. }
  assert (Hr : getRoyaltiesByTokenSet royaltyEnv (do_collection royaltySellOrder)
               = Return fivePercent) by reflexivity.
  assert (Hg : 0 < totalDefaultBps fivePercent) by reflexivity.
  assert (Hv : validRecipients fivePercent = fivePercent) by reflexivity.
  assert (Hp : 0 <= do_price royaltySellOrder) by (vm_compute; discriminate).
  split; [exact Hin|]. split; [exact Hr|]. split; [exact Hg|]. split; [exact Hv|].
  split; [exact Hp|].
  exact (royalty_top_up royaltyEnv [exampleEvent] [] royaltySellOrder Hin Hr Hg Hv Hp).
Defined.

(** C3 as stated fails: on one event with raw price 10000, value 9800
    (after slippage) and a 5% schedule, the buy order's missing royalty
    is 500 = floor (10000 * 500 / 10000) and its normalised value is
    9300, which is neither the base price less the amount (9500) nor
    obtained from a base price from which the amount is computed: the
    amount comes from the price, the normalised value from the value. *)
Lemma royalty_top_up_not_from_base_price :
  In royaltyBuyOrder (derivedOrders (save royaltyEnv [exampleEvent] []))
  /\ do_side royaltyBuyOrder = buy
  /\ do_price royaltyBuyOrder = 10000
  /\ do_value royaltyBuyOrder = 9800
  /\ map mr_amount (do_missingRoyalties royaltyBuyOrder) = [500]
  /\ do_normalizedValue royaltyBuyOrder = 9300
  /\ do_normalizedValue royaltyBuyOrder <> do_price royaltyBuyOrder - 500
  /\ 500 <> do_value royaltyBuyOrder * 500 / 10000.
Proof.
  split; [vm_compute; left; reflexivity|].
  repeat split; try reflexivity; vm_compute; discriminate.
Qed.

Lemma getPoolPrices_quotes (env : Env) (pool : Address) (quote : nat -> PoolPrice)
    (indices : list nat) :
  (forall index, In index indices ->
     getPoolPrice env pool (index + 1) = Return (quote (index + 1)%nat)) ->
  getPoolPrices env pool indices = Return (map (fun index => quote (index + 1)%nat) indices).
Proof.
  induction indices as [|index indices IH]; intro H; [reflexivity|].
  cbn [getPoolPrices map]. rewrite (H index (or_introl eq_refl)).
  rewrite IH by (intros j Hj; apply H; now right). reflexivity.
Qed.

(** The ladder of an event: the quotes for one to ten items, in that order. *)
Lemma ladder_of_quotes (env : Env) (pool : Address) (quote : nat -> PoolPrice) :
  (forall amount, (1 <= amount <= 10)%nat ->
     getPoolPrice env pool amount = Return (quote amount)) ->
  getPoolPrices env pool (seq 0 10) = Return (map quote (seq 1 10)).
Proof.
  intro H. rewrite (getPoolPrices_quotes env pool quote (seq 0 10)); [reflexivity|].
  intros index Hi. apply in_seq in Hi. apply H. lia.
Qed.

Lemma rawSells_carriers (ladder : list PoolPrice) :
  List.length (rawSells ladder) = List.length (filter carries_sell_raw ladder).
Proof.
  unfold rawSells, carries_sell_raw.
  induction ladder as [|q ladder IH]; [reflexivity|].
  cbn [flat_map filter]. rewrite length_app.
  destruct (raw_sell q); cbn [List.length app]; rewrite IH; reflexivity.
Qed.

Lemma rawSells_first (ladder : list PoolPrice) (p : Z) :
  hd_error (rawSells ladder) = Some p -> first_sell_raw ladder p.
Proof.
  unfold rawSells, first_sell_raw.
  induction ladder as [|q ladder IH]; [discriminate|].
  cbn [flat_map]. destruct (raw_sell q) as [p'|] eqn:E.
  - cbn [app hd_error]. intro H. injection H as ->.
    exists [], q, ladder. split; [reflexivity|]. split; [constructor | exact E].
  - cbn [app]. intro H. destruct (IH H) as (before & q' & after & -> & Hb & Hq).
    exists (q :: before), q', after. split; [reflexivity|].
    split; [constructor; assumption | exact Hq].
Qed.




(** C10, as the code has it.  When the first quote has both a
    sell-direction and a buy-direction price, every sell order [save]
    writes carries two marketplace entries in its fee breakdown, the buy
    leg's (the sell-direction bps) and then the sell leg's (the
    buy-direction bps), and as [feeBps] the sell leg's rate alone, which
    is the BUY-direction bps of the quote. *)
Theorem sell_order_fee_breakdown
    (K : Keccak) (env : Env) (batch : list OrderParams) (t : Table) (d : DerivedOrder)
    (pool : NftPool) (first : PoolPrice) (rest : list PoolPrice) (vs vb : Z)
    (Hpool : getNftPoolDetails env allowedPool = Return (Some pool))
    (Hladder : getPoolPrices env allowedPool (seq 0 10) = Return (first :: rest))
    (Hsell : pp_sell first = Some vs)
    (Hbuy : pp_buy first = Some vb)
    (Hd : In d (derivedOrders (save env batch t)))
    (Hside : do_side d = sell) :
  do_feeBreakdown d =
    [marketplace_fee pool (bps_sell first); marketplace_fee pool (bps_buy first)]
  /\ do_feeBps d = bps_buy first.
Proof.
  apply save_derives in Hd.
  destruct Hd as [pool' q rest' value_ p roy top i _ _ _ _ _ _ _
                 |pool' q rest' value_ p roy top tokenId i Hp Hl _ _ _ _ _];
    cbn in *; [discriminate|].
  rewrite Hl in Hladder. injection Hladder as -> ->.
  rewrite Hp in Hpool. injection Hpool as ->.
  unfold eventEntries, buyFee, sellFee. rewrite Hsell, Hbuy. split; reflexivity.
Qed.

Lemma sell_order_fee_breakdown_witness :
  getNftPoolDetails royaltyEnv allowedPool = Return (Some examplePool)
  /\ getPoolPrices royaltyEnv allowedPool (seq 0 10)
     = Return (threeLevels 1 :: map threeLevels (seq 2 9))
  /\ pp_sell (threeLevels 1) = Some 9800
  /\ pp_buy (threeLevels 1) = Some 10200
  /\ In royaltySellOrder (derivedOrders (save royaltyEnv [exampleEvent] []))
  /\ do_side royaltySellOrder = sell
  /\ do_feeBreakdown royaltySellOrder =
       [marketplace_fee examplePool 50; marketplace_fee examplePool 30]
  /\ do_feeBps royaltySellOrder = 30.
Proof.
  assert (Hin : In royaltySellOrder (derivedOrders (save royaltyEnv [exampleEvent] []))).
  { vm_compute. right. left. reflexivity. }
  split; [reflexivity|]. split; [reflexivity|]. split; [reflexivity|]. split; [reflexivity|].
  split; [exact Hin|]. split; [reflexivity|].
  exact (sell_order_fee_breakdown royaltyEnv [exampleEvent] [] royaltySellOrder
           (pool := examplePool) (first := threeLevels 1) (rest := map threeLevels (seq 2 9))
           (vs := 9800) (vb := 10200)
           eq_refl eq_refl eq_refl eq_refl Hin eq_refl).
Defined.

(** C10 as stated fails in its last clause: with 50 bps in the sell
    direction and 30 bps in the buy direction, the sell order written
    carries both entries and [feeBps] 30, not the sell-direction 50. *)
Lemma sell_order_feeBps_is_not_sell_direction :
  In royaltySellOrder (derivedOrders (save royaltyEnv [exampleEvent] []))
  /\ do_side royaltySellOrder = sell
  /\ pp_sell (threeLevels 1) = Some 9800
  /\ pp_buy (threeLevels 1) = Some 10200
  /\ bps_sell (threeLevels 1) = 50
  /\ map fee_entry_bps (do_feeBreakdown royaltySellOrder) = [50; 30]
  /\ do_feeBps royaltySellOrder <> bps_sell (threeLevels 1).
Proof.
  split; [vm_compute; right; left; reflexivity|].
  repeat split; try reflexivity. vm_compute. discriminate.
Qed.

(** ** The buy leg without a sell-direction price *)

(** C4, as the code has it.  When the first quote has no sell-direction
    price the buy leg sends one [UPDATE] for the pool's buy identity and
    records one result tagged reprice, whether or not a row exists: the
    rows of that identity become [no-balance] with the transaction time
    as expiration, every other row is untouched (so the table is
    unchanged when the identity has no row), and no order is buffered. *)
Theorem buy_leg_without_sell_price
    (K : Keccak) (env : Env) (orderParams : OrderParams) (pool : NftPool)
    (first : PoolPrice) (rest : list PoolPrice) (s : State)
    (Hsell : pp_sell first = None) :
  exists i,
    getOrderId (op_pool orderParams) buy None = Return i
    /\ fst (buyLeg env orderParams pool (first :: rest) s) = Return tt
    /\ let s' := snd (buyLeg env orderParams pool (first :: rest) s) in
       let ts := op_txTimestamp orderParams in
       orders s' =
         map (fun r => if digest_eqb (id r) i then no_balance_row ts r else r) (orders s)
       /\ (forall r, fillability_status (no_balance_row ts r) = "no-balance"%string
                     /\ expiration (no_balance_row ts r) = ToTimestamp ts)
       /\ (oneOrNone (orders s) i = false -> orders s' = orders s)
       /\ orderValues s' = orderValues s
       /\ idb s' = idb s ++ [UpdateNoBalance ts i]
       /\ results s' = results s ++ [success i orderParams reprice].
Proof.
  eexists. split; [apply getOrderId_buy|].
  rewrite buyLeg_plan. unfold buyPlan. rewrite getOrderId_buy.
  cbn [and_then buyFee write_fee]. rewrite Hsell.
  cbn [fst snd apply_effect]. split; [reflexivity|].
  cbv zeta. cbn.
  split; [reflexivity|]. split; [auto|]. split; [|auto].
  intro Habs. unfold update_where.
  rewrite <- (map_id (orders s)) at 2. apply map_ext_in.
  intros r Hr. destruct (digest_eqb (id r) _) eqn:E; [|reflexivity].
  apply digest_eqb_eq in E. apply present_false in Habs.
  exfalso. apply Habs. rewrite <- E. unfold ids. now apply in_map.
Qed.

Lemma buy_leg_without_sell_price_witness :
  pp_sell (noSellPrice 1) = None
  /\ results (snd (buyLeg noSellEnv exampleEvent examplePool [noSellPrice 1] (initial [])))
     = [success (list_byte_of_string "nftx" ++ allowedPool ++ list_byte_of_string "buy")
          exampleEvent reprice].
Proof.
  split; [reflexivity|].
  destruct (buy_leg_without_sell_price noSellEnv exampleEvent examplePool
              (noSellPrice 1) [] (initial []) eq_refl)
    as (i & Hi & _ & _ & _ & _ & _ & _ & Hres).
  rewrite Hres. injection Hi as <-. reflexivity.
Defined.

(** C4 as stated fails in its last clause: one event for a pool with no
    sell-direction price and no buy order in the table creates no row
    but records a result (tagged reprice), which [save] returns and
    queues. *)
Lemma no_sell_price_still_records_a_result :
  pp_sell (noSellPrice 1) = None
  /\ saved_orders (save noSellEnv [exampleEvent] []) = []
  /\ map res_triggerKind (saved_results (save noSellEnv [exampleEvent] [])) = [Some reprice]
  /\ map res_id (saved_results (save noSellEnv [exampleEvent] []))
     = [list_byte_of_string "nftx" ++ allowedPool ++ list_byte_of_string "buy"]
  /\ List.length (saved_queue (save noSellEnv [exampleEvent] [])) = 1%nat.
Proof. repeat split; vm_compute; reflexivity. Qed.

(** ** The bulk insert *)

Section Insert.
Context {K : Keccak}.

Lemma ids_app (t t' : Table) : ids (t ++ t') = ids t ++ ids t'.
Proof. apply map_app. Qed.

Lemma insert_kept (rows : list Row) :
  forall t : Table,
    insert_on_conflict_do_nothing rows t = t ++ kept_rows (ids t) rows.
Proof.
  induction rows as [|r rows IH]; intro t; simpl.
  - now rewrite app_nil_r.
  - unfold oneOrNone. destruct (present (ids t) (id r)).
    + apply IH.
    + rewrite IH, ids_app, <- app_assoc. reflexivity.
Qed.

Lemma kept_rows_spec (rows : list Row) :
  forall seen : list Digest,
    NoDup seen ->
    NoDup (seen ++ ids (kept_rows seen rows))
    /\ (forall r, In r (kept_rows seen rows) -> In r rows /\ ~ In (id r) seen)
    /\ (forall r, In r rows -> In (id r) (seen ++ ids (kept_rows seen rows))).
Proof.
  induction rows as [|r rows IH]; intros seen Hnd; simpl.
  - rewrite app_nil_r. split; [assumption|]. split; intros r []. 
  - destruct (present seen (id r)) eqn:E.
    + destruct (IH seen Hnd) as (N1 & N2 & N3).
      split; [exact N1|]. split.
      * intros r' Hr'. destruct (N2 r' Hr'). split; [now right | assumption].
      * intros r' [<-|Hr']; [|now apply N3].
        apply in_or_app. left. now apply present_In.
    + apply present_false in E.
      assert (Hnd' : NoDup (seen ++ [id r])).
      { apply NoDup_app; [assumption | repeat constructor; intros [] |].
        intros x Hx [<-|[]]. contradiction. }
      destruct (IH _ Hnd') as (N1 & N2 & N3).
      change (ids (r :: kept_rows (seen ++ [id r]) rows))
        with (id r :: ids (kept_rows (seen ++ [id r]) rows)).
      rewrite <- app_assoc in N1. simpl in N1.
      split; [exact N1|]. split.
      * intros r' [<-|Hr']; [split; [now left | exact E] |].
        destruct (N2 r' Hr') as [Hi Hn]. split; [now right|].
        intro Hs. apply Hn. apply in_or_app. now left.
      * intros r' [<-|Hr'].
        -- apply in_or_app. right. now left.
        -- specialize (N3 r' Hr'). rewrite <- app_assoc in N3. exact N3.
Qed.

End Insert.

(** ** How the effects are tagged *)

Section Tags.
Context {K : Keccak}.
Variable env : Env.

Lemma buyPlan_well_tagged l ref entries op pool pl e :
  buyPlan env l ref entries op pool pl = Return e -> well_tagged l e.
Proof.
  unfold buyPlan, and_then. destruct pl as [|first rest]; [discriminate|].
  destruct (getOrderId (op_pool op) buy None) as [i|]; [|discriminate].
  destruct (pp_sell first).
  - destruct (getRoyaltiesByTokenSet env (pool_nft pool)); [|discriminate].
    destruct (royaltiesOnTop _ _); [|discriminate].
    destruct (toString _); [|discriminate].
    destruct (present l i) eqn:P; cbn [negb].
    + intro E; injection E as <-. simpl. auto.
    + destruct (contractWide_save env (pool_nft pool)); [|discriminate].
      destruct (require_tokenSetId _); [|discriminate].
      destruct (sources_getOrInsert env); [|discriminate].
      intro E; injection E as <-. simpl. auto.
  - intro E; injection E as <-. simpl. auto.
Qed.

Lemma itemPlan_well_tagged l bps ref entries op pool cur prices price_ value_ mr nv t e :
  itemPlan env l bps ref entries op pool cur prices price_ value_ mr nv t = Return e ->
  well_tagged l e.
Proof.
  unfold itemPlan, and_then.
  destruct (getOrderId (op_pool op) sell (Some t)) as [i|]; [|discriminate].
  destruct (toString price_); [|discriminate].
  destruct (present l i) eqn:P; cbn [negb].
  - intro E; injection E as <-. simpl. auto.
  - destruct (singleToken_save env (pool_nft pool) t); [|discriminate].
    destruct (require_tokenSetId _); [|discriminate].
    destruct (sources_getOrInsert env); [|discriminate].
    intro E; injection E as <-. simpl. auto.
Qed.

(** A property of the effects of both plans holds of every effect of a
    batch. *)
Lemma legEffects_Forall (P : Effect -> Prop) l ref op pool pl :
  (forall entries e, buyPlan env l ref entries op pool pl = Return e -> P e) ->
  (forall bps entries cur prices price_ value_ mr nv t e,
     itemPlan env l bps ref entries op pool cur prices price_ value_ mr nv t = Return e -> P e) ->
  Forall P (legEffects env l ref op pool pl).
Proof.
  intros Hb Hi. unfold legEffects. apply Forall_app. split.
  - destruct (buyPlan env l ref _ op pool pl) eqn:E; simpl; [|constructor].
    constructor; [|constructor]. eapply Hb; eassumption.
  - unfold sellPlan. destruct pl as [|first rest]; [constructor|].
    destruct (pp_buy first); [|constructor]. unfold and_then.
    destruct (getRoyaltiesByTokenSet env (pool_nft pool)); [|constructor].
    destruct (royaltiesOnTop _ _); [|constructor].
    destruct (getNfts env _ _); [|constructor].
    cbn [caught]. apply Forall_flat_map. intros t _.
    match goal with |- Forall P (caught ?o _) => destruct o eqn:E end; simpl; [|constructor].
    constructor; [|constructor]. eapply Hi; eassumption.
Qed.

Lemma batchEffects_Forall (P : Effect -> Prop) l (batch : list OrderParams) :
  (forall ref op pool pl, Forall P (legEffects env l ref op pool pl)) ->
  forall ref, Forall P (batchEffects env l ref batch).
Proof.
  intros H ref. apply Forall_forall. intros e He.
  apply in_batchEffects in He. destruct He as (op & pool & pl & k & _ & _ & He & _).
  specialize (H (ref + k)%nat op pool pl). rewrite Forall_forall in H. now apply H.
Qed.

Lemma batchEffects_well_tagged l ref batch :
  Forall (well_tagged l) (batchEffects env l ref batch).
Proof.
  apply batchEffects_Forall. intros ref' op pool pl. apply legEffects_Forall.
  - intros entries e. apply buyPlan_well_tagged.
  - intros bps entries cur prices price_ value_ mr nv t e. apply itemPlan_well_tagged.
Qed.

Lemma well_tagged_new l (es : list Effect) :
  Forall (well_tagged l) es ->
  map (fun row => id row) (buffered es) = map res_id (filter is_new (map effect_result es)).
Proof.
  induction 1 as [|e es He _ IH]; [reflexivity|].
  destruct e as [row r|st r]; simpl in *.
  - destruct He as (_ & Hi & Ht). unfold is_new at 1. rewrite Ht. simpl. now rewrite Hi, IH.
  - destruct He as (_ & Ht). unfold is_new at 1. rewrite Ht. exact IH.
Qed.

Lemma well_tagged_reprice l (es : list Effect) :
  Forall (well_tagged l) es ->
  List.length (sent es) = List.length (filter is_reprice (map effect_result es)).
Proof.
  induction 1 as [|e es He _ IH]; [reflexivity|].
  destruct e as [row r|st r]; simpl in *.
  - destruct He as (_ & _ & Ht). unfold is_reprice at 1. rewrite Ht. exact IH.
  - destruct He as (_ & Ht). unfold is_reprice at 1. rewrite Ht. simpl. now rewrite IH.
Qed.

End Tags.

(** ** Persistence *)

Lemma kept_rows_covers {K : Keccak} (rows : list Row) :
  forall (seen : list Digest) (r : Row),
    In r rows -> In (id r) (seen ++ ids (kept_rows seen rows)).
Proof.
  induction rows as [|r0 rows IH]; intros seen r Hr; [contradiction|].
  simpl. destruct (present seen (id r0)) eqn:E.
  - destruct Hr as [<-|Hr]; [|now apply IH].
    apply in_or_app. left. now apply present_In.
  - change (ids (r0 :: kept_rows (seen ++ [id r0]) rows))
      with (id r0 :: ids (kept_rows (seen ++ [id r0]) rows)).
    destruct Hr as [<-|Hr].
    + apply in_or_app. right. now left.
    + specialize (IH (seen ++ [id r0]) r Hr). rewrite <- app_assoc in IH. exact IH.
Qed.

Lemma ids_serialise {K : Keccak} (h : list (list FeeEntry)) (rows : list (DbOrder Ref)) :
  ids (map (serialise h) rows) = map (fun row => id row) rows.
Proof. unfold ids. rewrite map_map. reflexivity. Qed.

(** C9, as the code has it.  When the loop over the events of a batch
    ends, every [UPDATE] has already been sent, one statement per
    reprice result, and applied to the table, and the new orders are
    only in the buffer, one row per new-order result.  [save] then sends
    the buffered rows in one bulk insert, the last statement of the
    batch, provided the buffer is not empty: a batch without a new order
    sends no insert.  The insert leaves the rows of the table as they
    are and adds each buffered row whose identity is neither in the
    table nor earlier in the statement, so that every buffered identity
    has a row. *)
Theorem one_bulk_insert_immediate_updates
    (K : Keccak) (env : Env) (batch : list OrderParams) (t : Table) :
  let loop := snd (for_of batch (handleOrder env) (initial t)) in
  let out := save env batch t in
  let rows := map (serialise (arrays loop)) (orderValues loop) in
  Forall is_update (idb loop)
  /\ orders loop = fold_left run_statement (idb loop) t
  /\ List.length (idb loop) = List.length (filter is_reprice (saved_results out))
  /\ ids rows = map res_id (filter is_new (saved_results out))
  /\ saved_idb out =
       idb loop ++ match rows with [] => [] | _ :: _ => [InsertOnConflictDoNothing rows] end
  /\ saved_orders out = orders loop ++ kept_rows (ids (orders loop)) rows
  /\ (forall r, In r rows -> In (id r) (ids (saved_orders out))).
Proof.
  cbv zeta.
  destruct (batch_spec env batch (initial t)) as (_ & R & V & D & Ot & A).
  cbn [initial orders arrays results orderValues idb List.length app] in R, V, D, Ot, A.
  fold (batchEffects env (ids t) 0%nat batch) in R, V, D, Ot.
  destruct (save_spec env batch t) as (SR & SI & SO). unfold flushed_rows in SI, SO.
  pose proof (batchEffects_well_tagged env (ids t) 0%nat batch) as W.
  pose proof (batchEffects_updates_only env batch (ids t) 0%nat) as U.
  rewrite SR, SI, SO, D, Ot, V, A.
  split; [now apply sent_updates|]. split; [reflexivity|].
  split; [now apply well_tagged_reprice with (l := ids t)|].
  split; [rewrite ids_serialise; now apply well_tagged_new with (l := ids t)|].
  split; [reflexivity|].
  rewrite insert_kept. split; [reflexivity|].
  intros r Hr. rewrite ids_app. now apply kept_rows_covers.
Qed.

Lemma one_bulk_insert_immediate_updates_witness :
  List.length (saved_idb (save royaltyEnv [exampleEvent; exampleEvent] [])) = 1%nat
  /\ List.length (saved_idb (save royaltyEnv [exampleEvent]
                     (saved_orders (save royaltyEnv [exampleEvent] [])))) = 3%nat.
Proof.
  destruct (one_bulk_insert_immediate_updates royaltyEnv [exampleEvent; exampleEvent] [])
    as (_ & _ & _ & _ & H1 & _).
  destruct (one_bulk_insert_immediate_updates royaltyEnv [exampleEvent]
              (saved_orders (save royaltyEnv [exampleEvent] [])))
    as (_ & _ & _ & _ & H2 & _).
  rewrite H1, H2. split; vm_compute; reflexivity.
Defined.

(** C9 as stated fails for a batch without a new order: the empty
    batch sends nothing, and a batch whose only order exists already
    sends its [UPDATE] and no bulk insert. *)
Lemma no_new_order_no_bulk_insert :
  saved_idb (save plainEnv [] []) = []
  /\ map res_triggerKind
       (saved_results (save plainEnv [exampleEvent]
                         (saved_orders (save plainEnv [exampleEvent] []))))
     = [Some reprice]
  /\ List.length (saved_idb (save plainEnv [exampleEvent]
                               (saved_orders (save plainEnv [exampleEvent] [])))) = 1%nat
  /\ Forall is_update (saved_idb (save plainEnv [exampleEvent]
                                    (saved_orders (save plainEnv [exampleEvent] [])))).
Proof.
  split; [reflexivity|]. split; [vm_compute; reflexivity|].
  split; [vm_compute; reflexivity|].
  vm_compute. repeat constructor.
Qed.

(** ** Reconciling again *)

Section Again.
Context {K : Keccak}.
Variable env : Env.
Variables lA lB : list Digest.
Hypothesis lA_lB : forall i, In i lA -> In i lB.

Lemma absent_mono (i : Digest) : present lB i = false -> present lA i = false.
Proof.
  rewrite !present_false. intros H Hin. apply H. now apply lA_lB.
Qed.

(** A unit that buffers a row on the larger table buffers a row of the
    same identity on the smaller one. *)
Lemma buyPlan_created_mono refA refB entriesA entriesB op pool pl rowB rB :
  buyPlan env lB refB entriesB op pool pl = Return (Buffered rowB rB) ->
  exists rowA rA,
    buyPlan env lA refA entriesA op pool pl = Return (Buffered rowA rA) /\ id rowA = id rowB.
Proof.
  unfold buyPlan, and_then. destruct pl as [|first rest]; [discriminate|].
  destruct (getOrderId (op_pool op) buy None) as [i|]; [|discriminate].
  destruct (pp_sell first); [|discriminate].
  destruct (getRoyaltiesByTokenSet env (pool_nft pool)); [|discriminate].
  destruct (royaltiesOnTop _ _); [|discriminate].
  destruct (toString _); [|discriminate].
  destruct (present lB i) eqn:P; cbn [negb]; [discriminate|].
  rewrite (absent_mono _ P). cbn [negb].
  destruct (contractWide_save env (pool_nft pool)); [|discriminate].
  destruct (require_tokenSetId _); [|discriminate].
  destruct (sources_getOrInsert env); [|discriminate].
  intro E; injection E as <- <-. eexists _, _. split; reflexivity.
Qed.

Lemma itemPlan_created_mono bpsA bpsB refA refB entriesA entriesB op pool cur prices price_
    value_ mr nv t rowB rB :
  itemPlan env lB bpsB refB entriesB op pool cur prices price_ value_ mr nv t
    = Return (Buffered rowB rB) ->
  exists rowA rA,
    itemPlan env lA bpsA refA entriesA op pool cur prices price_ value_ mr nv t
      = Return (Buffered rowA rA)
    /\ id rowA = id rowB.
Proof.
  unfold itemPlan, and_then.
  destruct (getOrderId (op_pool op) sell (Some t)) as [i|]; [|discriminate].
  destruct (toString price_); [|discriminate].
  destruct (present lB i) eqn:P; cbn [negb]; [discriminate|].
  rewrite (absent_mono _ P). cbn [negb].
  destruct (singleToken_save env (pool_nft pool) t); [|discriminate].
  destruct (require_tokenSetId _); [|discriminate].
  destruct (sources_getOrInsert env); [|discriminate].
  intro E; injection E as <- <-. eexists _, _. split; reflexivity.
Qed.

Lemma legEffects_created_mono refA refB op pool pl rowB rB :
  In (Buffered rowB rB) (legEffects env lB refB op pool pl) ->
  exists rowA rA,
    In (Buffered rowA rA) (legEffects env lA refA op pool pl) /\ id rowA = id rowB.
Proof.
  unfold legEffects. intro Hin. apply in_app_or in Hin. destruct Hin as [Hin|Hin].
  - destruct (buyPlan env lB refB _ op pool pl) as [e|] eqn:E; simpl in Hin; [|contradiction].
    destruct Hin as [->|[]].
    destruct (@buyPlan_created_mono refA refB (fee_entries pool (buyFee pl)) _ op pool pl
                rowB rB E) as (rowA & rA & EA & Hid).
    exists rowA, rA. split; [|exact Hid].
    apply in_or_app. left. rewrite EA. now left.
  - unfold sellPlan in *. destruct pl as [|first rest]; [contradiction|].
    destruct (pp_buy first) as [value_|]; [|contradiction].
    unfold and_then in *.
    destruct (getRoyaltiesByTokenSet env (pool_nft pool)) as [roy|]; [|contradiction].
    destruct (royaltiesOnTop _ roy) as [top|]; [|contradiction].
    destruct (getNfts env _ _) as [tokens|]; cbn [caught] in *; [|contradiction].
    apply in_flat_map in Hin. destruct Hin as (t & Ht & Hin).
    match type of Hin with In _ (caught ?o _) => destruct o as [e|] eqn:E end;
      simpl in Hin; [|contradiction].
    destruct Hin as [->|[]].
    destruct (@itemPlan_created_mono (bps_buy first) _ refA _
                (fee_entries pool (buyFee (first :: rest))
                 ++ fee_entries pool (sellFee (first :: rest)))
                _ _ _ _ _ _ _ _ _ _ _ _ E)
      as (rowA & rA & EA & Hid).
    exists rowA, rA. split; [|exact Hid].
    apply in_or_app. right. apply in_flat_map. exists t. split; [exact Ht|].
    rewrite EA. now left.
Qed.

Lemma batchEffects_created_mono (batch : list OrderParams) :
  forall refA refB rowB rB,
    In (Buffered rowB rB) (batchEffects env lB refB batch) ->
    exists rowA rA,
      In (Buffered rowA rA) (batchEffects env lA refA batch) /\ id rowA = id rowB.
Proof.
  unfold batchEffects.
  induction batch as [|op batch IH]; intros refA refB rowB rB Hin; [contradiction|].
  cbn [batchPlans] in *. unfold eventPlan in *.
  destruct (prepare env op) as [[[pool pl]|]|].
  - cbn [flat_map snd] in *. apply in_app_or in Hin. destruct Hin as [Hin|Hin].
    + destruct (@legEffects_created_mono refA refB op pool pl rowB rB Hin)
        as (rowA & rA & HA & Hid).
      exists rowA, rA. split; [|exact Hid]. apply in_or_app. now left.
    + destruct (IH (S refA) (S refB) rowB rB Hin) as (rowA & rA & HA & Hid).
      exists rowA, rA. split; [|exact Hid]. apply in_or_app. now right.
  - eapply IH; eassumption.
  - eapply IH; eassumption.
Qed.

End Again.

Lemma in_buffered_intro {K : Keccak} (es : list Effect) (row : DbOrder Ref) (r : SaveResult) :
  In (Buffered row r) es -> In row (buffered es).
Proof.
  intro H. unfold buffered. apply in_flat_map. exists (Buffered row r).
  split; [assumption | now left].
Qed.

Lemma save_ids {K : Keccak} (env : Env) (batch : list OrderParams) (t : Table) :
  ids (saved_orders (save env batch t))
  = ids t ++ ids (kept_rows (ids t) (flushed_rows env (ids t) batch)).
Proof.
  destruct (save_spec env batch t) as (_ & _ & ->).
  pose proof (batchEffects_updates_only env batch (ids t) 0%nat) as U.
  rewrite insert_kept, ids_app, ids_fold_updates by now apply sent_updates.
  reflexivity.
Qed.

(** C1, as the code has it.  On a table with at most one row per
    identity, [save] leaves at most one row per identity.  Every
    reconciliation of a batch is decided against the table as it was
    before the batch: a result is tagged new-order only for an identity
    that had no row then, and that identity has a row once the batch is
    flushed; a result for an identity that had a row is tagged reprice.
    Running the same batch again, with the collaborators unchanged, on
    the table the first run left, tags every result reprice and creates
    no row.  (So a second reconciliation of an identity inside the same
    batch is tagged new-order again; the bulk insert drops its row.) *)
Theorem reconcile_again_reprices
    (K : Keccak) (env : Env) (batch : list OrderParams) (t : Table)
    (Hnd : NoDup (ids t)) :
  let first := save env batch t in
  let second := save env batch (saved_orders first) in
  NoDup (ids (saved_orders first))
  /\ (forall r, In r (saved_results first) ->
        res_triggerKind r = Some new_order ->
        ~ In (res_id r) (ids t) /\ In (res_id r) (ids (saved_orders first)))
  /\ (forall r, In r (saved_results first) ->
        In (res_id r) (ids t) -> res_triggerKind r = Some reprice)
  /\ (forall r, In r (saved_results second) -> res_triggerKind r = Some reprice)
  /\ ids (saved_orders second) = ids (saved_orders first)
  /\ NoDup (ids (saved_orders second)).
Proof.
  cbv zeta.
  set (lB := ids (saved_orders (save env batch t))).
  assert (EB : lB = ids t ++ ids (kept_rows (ids t) (flushed_rows env (ids t) batch)))
    by apply save_ids.
  assert (Hincl : forall i, In i (ids t) -> In i lB).
  { intros i Hi. rewrite EB. apply in_or_app. now left. }
  assert (N1 : NoDup lB).
  { rewrite EB. now apply kept_rows_spec. }
  assert (Hcov : forall row r, In (Buffered row r) (batchEffects env (ids t) 0%nat batch) ->
                               In (id row) lB).
  { intros row r Hin. rewrite EB.
    apply (kept_rows_covers (flushed_rows env (ids t) batch) (ids t)
             (serialise (map fst (batchPlans env (ids t) 0%nat batch)) row)).
    unfold flushed_rows. apply in_map. eapply in_buffered_intro; eassumption. }
  assert (Hnone : forall row r, ~ In (Buffered row r) (batchEffects env lB 0%nat batch)).
  { intros rowB rB Hin.
    pose proof (batchEffects_well_tagged env lB 0%nat batch) as W.
    rewrite Forall_forall in W. destruct (W _ Hin) as (Habs & _).
    apply present_false in Habs. apply Habs.
    destruct (@batchEffects_created_mono K env (ids t) lB Hincl batch 0%nat 0%nat rowB rB Hin)
      as (rowA & rA & HA & <-).
    eapply Hcov; eassumption. }
  split; [exact N1|]. split; [|split; [|split; [|split]]].
  - intros r Hr Hnew.
    destruct (save_spec env batch t) as (SR & _ & _). rewrite SR in Hr.
    apply in_map_iff in Hr. destruct Hr as (e & <- & He).
    pose proof (batchEffects_well_tagged env (ids t) 0%nat batch) as W.
    rewrite Forall_forall in W. specialize (W _ He).
    destruct e as [row r|st r]; simpl in *.
    + destruct W as (Habs & -> & _). split; [now apply present_false|].
      eapply Hcov; eassumption.
    + destruct W as (_ & W). congruence.
  - intros r Hr Hin.
    destruct (save_spec env batch t) as (SR & _ & _). rewrite SR in Hr.
    apply in_map_iff in Hr. destruct Hr as (e & <- & He).
    pose proof (batchEffects_well_tagged env (ids t) 0%nat batch) as W.
    rewrite Forall_forall in W. specialize (W _ He).
    destruct e as [row r|st r]; simpl in *.
    + destruct W as (Habs & Hid & _). apply present_false in Habs.
      exfalso. apply Habs. now rewrite <- Hid.
    + apply W.
  - intros r Hr.
    destruct (save_spec env batch (saved_orders (save env batch t))) as (SR & _ & _).
    fold lB in SR. rewrite SR in Hr.
    apply in_map_iff in Hr. destruct Hr as (e & <- & He).
    destruct e as [row r|st r]; [exfalso; eapply Hnone; eassumption|].
    pose proof (batchEffects_well_tagged env lB 0%nat batch) as W.
    rewrite Forall_forall in W. apply (W _ He).
  - rewrite save_ids. fold lB.
    assert (Hb : buffered (batchEffects env lB 0%nat batch) = []).
    { destruct (buffered (batchEffects env lB 0%nat batch)) as [|row rows] eqn:E; [reflexivity|].
      assert (Hrow : In row (buffered (batchEffects env lB 0%nat batch)))
        by (rewrite E; now left).
      apply in_buffered in Hrow. destruct Hrow as (r & Hrow).
      exfalso. eapply Hnone; eassumption. }
    unfold flushed_rows. rewrite Hb. simpl. now rewrite app_nil_r.
  - rewrite save_ids. fold lB. now apply kept_rows_spec.
Qed.

Lemma reconcile_again_reprices_witness :
  NoDup (ids (K := plainDigest) [])
  /\ map res_triggerKind (saved_results (save royaltyEnv [exampleEvent] []))
     = [Some new_order; Some new_order; Some new_order]
  /\ map res_triggerKind
       (saved_results (save royaltyEnv [exampleEvent]
                         (saved_orders (save royaltyEnv [exampleEvent] []))))
     = [Some reprice; Some reprice; Some reprice]
  /\ ids (saved_orders (save royaltyEnv [exampleEvent]
                          (saved_orders (save royaltyEnv [exampleEvent] []))))
     = ids (saved_orders (save royaltyEnv [exampleEvent] []))
  /\ List.length (saved_orders (save royaltyEnv [exampleEvent]
                                  (saved_orders (save royaltyEnv [exampleEvent] [])))) = 3%nat.
Proof.
  assert (Hnd : NoDup (ids (K := plainDigest) [])) by constructor.
  pose proof (reconcile_again_reprices royaltyEnv [exampleEvent] [] Hnd) as H.
  cbv zeta in H. destruct H as (_ & _ & _ & _ & Hids & _).
  split; [exact Hnd|]. split; [vm_compute; reflexivity|]. split; [vm_compute; reflexivity|].
  split; [exact Hids|]. vm_compute. reflexivity.
Defined.

(** C1 as stated fails for a second reconciliation inside the same
    batch: an event twice in one batch on an empty table records the buy
    identity as new-order both times (the second is not a reprice);
    only one row is stored. *)
Lemma second_reconciliation_in_one_batch_is_new_order :
  map (fun r => (res_id r, res_triggerKind r))
      (saved_results (save plainEnv [exampleEvent; exampleEvent] []))
  = [(list_byte_of_string "nftx" ++ allowedPool ++ list_byte_of_string "buy", Some new_order);
     (list_byte_of_string "nftx" ++ allowedPool ++ list_byte_of_string "buy", Some new_order)]
  /\ List.length (saved_orders (save plainEnv [exampleEvent; exampleEvent] [])) = 1%nat.
Proof. split; vm_compute; reflexivity. Qed.

(** ** Containment of failures *)

Section Containment.
Context {K : Keccak}.
Variable env : Env.

Lemma agree_refl (s : State) : agree s s.
Proof. repeat split. Qed.

Lemma apply_effects_appends (s : State) (es : list Effect) :
  appends s (apply_effects s es) es.
Proof.
  destruct (apply_effects_spec es s) as (R & V & D & Ot & _). repeat split; assumption.
Qed.

Lemma appends_after_fee pool bps (s : State) (es : list Effect) :
  appends s (apply_effects (write_fee pool bps s) es) es.
Proof.
  destruct (apply_effects_spec es (write_fee pool bps s)) as (R & V & D & Ot & _).
  destruct (write_fee_frame pool bps s) as (R0 & V0 & D0 & O0 & _).
  unfold appends. rewrite R, V, D, Ot, R0, V0, D0, O0. repeat split.
Qed.

Lemma agree_after_effects (s : State) (es : list Effect) :
  Forall updates_only es -> agree (apply_effects s es) s.
Proof.
  intro U. destruct (apply_effects_spec es s) as (_ & _ & _ & _ & A & B & F).
  unfold agree. rewrite A, B, F, apply_effects_ids by assumption. repeat split.
Qed.

Lemma write_fee_agree pool bps (s1 s2 : State) :
  agree s1 s2 -> agree (write_fee pool bps s1) (write_fee pool bps s2).
Proof.
  intros (I & A & B & F). destruct bps as [b|]; [|repeat split; assumption].
  unfold agree. simpl. rewrite A, F. repeat split; assumption.
Qed.

(** One token of the sell loop. *)
Lemma item_contained op pool cur prices price_ value_ mr nv (t : TokenId) (s : State) :
  let run := sellItem env op pool cur prices price_ value_ mr nv t in
  agree (snd (run s)) s
  /\ (fst (run s) = Throw -> snd (run s) = s)
  /\ (fst (run s) = Return tt -> exists r, results (snd (run s)) = results s ++ [r])
  /\ (forall s2, agree s s2 ->
        fst (run s2) = fst (run s)
        /\ exists es, appends s (snd (run s)) es /\ appends s2 (snd (run s2)) es).
Proof.
  cbv zeta.
  assert (Hplan : forall s0, agree s s0 ->
            sellItem env op pool cur prices price_ value_ mr nv t s0 =
            match itemPlan env (ids (orders s)) (feeBps s) (feeBreakdown s)
                    (deref (arrays s) (feeBreakdown s)) op pool cur prices price_ value_ mr nv t
            with
            | Return e => (Return tt, apply_effect s0 e)
            | Throw => (Throw, s0)
            end).
  { intros s0 (I & A & B & F). rewrite sellItem_plan, <- I, <- A, <- B, <- F. reflexivity. }
  rewrite (Hplan s (agree_refl s)).
  destruct (itemPlan env (ids (orders s)) (feeBps s) (feeBreakdown s)
              (deref (arrays s) (feeBreakdown s)) op pool cur prices price_ value_ mr nv t)
    as [e|] eqn:E; cbn [fst snd].
  - pose proof (itemPlan_updates_only _ _ _ _ _ _ _ _ _ _ _ _ _ _ E) as U.
    split; [apply (@agree_after_effects s [e]); constructor; [exact U | constructor]|].
    split; [discriminate|].
    split.
    { intros _. exists (effect_result e). destruct e; reflexivity. }
    intros s2 H2. rewrite (Hplan s2 H2). split; [reflexivity|].
    exists [e]. split; [apply (apply_effects_appends s [e]) | apply (apply_effects_appends s2 [e])].
  - split; [apply agree_refl|]. split; [reflexivity|]. split; [discriminate|].
    intros s2 H2. rewrite (Hplan s2 H2). split; [reflexivity|].
    exists []. split; [apply (apply_effects_appends s []) | apply (apply_effects_appends s2 [])].
Qed.

(** The buy leg. *)
Lemma buy_contained op pool pl (s : State) :
  let run := buyLeg env op pool pl in
  agree (snd (run s)) (write_fee pool (buyFee pl) s)
  /\ (fst (run s) = Throw -> appends s (snd (run s)) [])
  /\ (fst (run s) = Return tt -> exists r, results (snd (run s)) = results s ++ [r])
  /\ (forall s2, agree s s2 ->
        fst (run s2) = fst (run s)
        /\ exists es, appends s (snd (run s)) es /\ appends s2 (snd (run s2)) es).
Proof.
  cbv zeta.
  set (s1 := write_fee pool (buyFee pl) s).
  assert (Hplan : forall s0, agree s s0 ->
            buyLeg env op pool pl s0 =
            match buyPlan env (ids (orders s)) (feeBreakdown s)
                    (deref (arrays s1) (feeBreakdown s)) op pool pl with
            | Return e => (Return tt, apply_effect (write_fee pool (buyFee pl) s0) e)
            | Throw => (Throw, write_fee pool (buyFee pl) s0)
            end).
  { intros s0 H0. destruct (write_fee_agree pool (buyFee pl) H0) as (_ & A1 & _).
    destruct H0 as (I & A & B & F). fold s1 in A1.
    rewrite buyLeg_plan. cbv zeta. rewrite <- I, <- F, <- A1. reflexivity. }
  rewrite (Hplan s (agree_refl s)). fold s1.
  destruct (buyPlan env (ids (orders s)) (feeBreakdown s)
              (deref (arrays s1) (feeBreakdown s)) op pool pl) as [e|] eqn:E; cbn [fst snd].
  - pose proof (buyPlan_updates_only _ _ _ _ _ _ _ E) as U.
    split; [apply (@agree_after_effects s1 [e]); constructor; [exact U | constructor]|].
    split; [discriminate|].
    split.
    { intros _. exists (effect_result e).
      destruct (appends_after_fee pool (buyFee pl) s [e]) as (R & _). exact R. }
    intros s2 H2. rewrite (Hplan s2 H2). split; [reflexivity|].
    exists [e]. split; [apply (appends_after_fee pool (buyFee pl) s [e])
                      | apply (appends_after_fee pool (buyFee pl) s2 [e])].
  - split; [apply agree_refl|].
    split; [intros _; apply (appends_after_fee pool (buyFee pl) s [])|].
    split; [discriminate|].
    intros s2 H2. rewrite (Hplan s2 H2). split; [reflexivity|].
    exists []. split; [apply (appends_after_fee pool (buyFee pl) s [])
                      | apply (appends_after_fee pool (buyFee pl) s2 [])].
Qed.

(** The sell leg. *)
Lemma sell_contained op pool pl (s : State) :
  let run := sellLeg env op pool pl in
  (fst (run s) = Throw -> appends s (snd (run s)) [])
  /\ (forall s2, agree s s2 ->
        fst (run s2) = fst (run s)
        /\ exists es, appends s (snd (run s)) es /\ appends s2 (snd (run s2)) es).
Proof.
  cbv zeta.
  set (s1 := write_fee pool (sellFee pl) s).
  assert (Hplan : forall s0, agree s s0 ->
            sellLeg env op pool pl s0 =
            match sellPlan env (ids (orders s)) (feeBreakdown s)
                    (deref (arrays s1) (feeBreakdown s)) op pool pl with
            | Return es => (Return tt, apply_effects (write_fee pool (sellFee pl) s0) es)
            | Throw => (Throw, write_fee pool (sellFee pl) s0)
            end).
  { intros s0 H0. destruct (write_fee_agree pool (sellFee pl) H0) as (_ & A1 & _).
    destruct H0 as (I & A & B & F). fold s1 in A1.
    rewrite sellLeg_plan. cbv zeta. rewrite <- I, <- F, <- A1. reflexivity. }
  rewrite (Hplan s (agree_refl s)). fold s1.
  destruct (sellPlan env (ids (orders s)) (feeBreakdown s)
              (deref (arrays s1) (feeBreakdown s)) op pool pl) as [es|] eqn:E; cbn [fst snd].
  - split; [discriminate|].
    intros s2 H2. rewrite (Hplan s2 H2). split; [reflexivity|].
    exists es. split; [apply (appends_after_fee pool (sellFee pl) s es)
                      | apply (appends_after_fee pool (sellFee pl) s2 es)].
  - split; [intros _; apply (appends_after_fee pool (sellFee pl) s [])|].
    intros s2 H2. rewrite (Hplan s2 H2). split; [reflexivity|].
    exists []. split; [apply (appends_after_fee pool (sellFee pl) s [])
                      | apply (appends_after_fee pool (sellFee pl) s2 [])].
Qed.

(** An event whose preparation fails (or stops at the allow-list). *)
Lemma event_contained op (s : State) :
  (forall pool pl, prepare env op <> Return (Some (pool, pl))) ->
  handleOrder env op s = (Return tt, s).
Proof.
  intro H. rewrite handleOrder_run.
  destruct (prepare env op) as [[[pool pl]|]|]; try reflexivity.
  exfalso. now apply (H pool pl).
Qed.

Lemma failed_event_is_absent op (before after : list OrderParams) :
  (forall pool pl, prepare env op <> Return (Some (pool, pl))) ->
  forall s : State,
    for_of (before ++ op :: after) (handleOrder env) s
    = for_of (before ++ after) (handleOrder env) s.
Proof.
  intro H. induction before as [|op' before IH]; intro s.
  - change (for_of ([] ++ op :: after) (handleOrder env) s)
      with (for_of after (handleOrder env) (snd (handleOrder env op s))).
    now rewrite event_contained.
  - change (for_of after (handleOrder env) s) with (for_of after (handleOrder env) s).
    change (for_of ((op' :: before) ++ op :: after) (handleOrder env) s)
      with (for_of (before ++ op :: after) (handleOrder env) (snd (handleOrder env op' s))).
    change (for_of ((op' :: before) ++ after) (handleOrder env) s)
      with (for_of (before ++ after) (handleOrder env) (snd (handleOrder env op' s))).
    apply IH.
Qed.

End Containment.

Lemma save_failed_event_is_absent {K : Keccak} (env : Env) op (before after : list OrderParams)
    (t : Table) :
  (forall pool pl, prepare env op <> Return (Some (pool, pl))) ->
  save env (before ++ op :: after) t = save env (before ++ after) t.
Proof.
  intro H. unfold save, save_state, bind.
  now rewrite (failed_event_is_absent env op before after H).
Qed.

Lemma batch_never_throws {K : Keccak} (env : Env) (batch : list OrderParams) (s : State) :
  fst (for_of batch (handleOrder env) s) = Return tt.
Proof. apply (batch_spec env batch s). Qed.

(** ** How the units compose *)

Section Composed.
Context {K : Keccak}.
Variable env : Env.

(** A loop whose body is a [try] with an empty handler runs every body,
    each on the state the one before left, thrown or not. *)
Lemma for_of_try_catch {A} (body : A -> M unit) (xs : list A) :
  forall s : State,
    for_of xs (fun x => try_catch (body x)) s
    = (Return tt, fold_left (fun s' x => snd (body x s')) xs s).
Proof.
  induction xs as [|x xs IH]; intro s; [reflexivity|].
  cbn [for_of fold_left]. unfold bind at 1. unfold try_catch at 1. apply IH.
Qed.

(** The sell leg that reaches its loop. *)
Lemma sellLeg_loop op pool first rest v roy top tokens (s : State) :
  pp_buy first = Some v ->
  getRoyaltiesByTokenSet env (pool_nft pool) = Return roy ->
  royaltiesOnTop (hd_error (rawBuys (first :: rest))) roy = Return top ->
  getNfts env (pool_nft pool) (pool_address pool) = Return tokens ->
  sellLeg env op pool (first :: rest) s
  = (Return tt,
     fold_left
       (fun s' tokenId =>
          snd (sellItem env op pool (pp_currency first) (rawBuys (first :: rest))
                 (hd_error (rawBuys (first :: rest))) v (fst top) (v + snd top) tokenId s'))
       tokens (write_fee pool (Some (bps_buy first)) s)).
Proof.
  intros Hb Hr Ht Hn. unfold sellLeg. rewrite Hb.
  unfold bind at 1. unfold modify at 1. unfold bind at 1. unfold gets at 1.
  unfold bind at 1. unfold feeBreakdown_push, modify at 1.
  unfold bind at 1. unfold await at 1. rewrite Hr.
  unfold bind at 1. unfold await at 1. rewrite Ht.
  unfold bind at 1. unfold await at 1. rewrite Hn.
  rewrite for_of_try_catch. reflexivity.
Qed.

Lemma buy_exact op pool pl (s : State) :
  let run := buyLeg env op pool pl in
  (fst (run s) = Throw -> snd (run s) = write_fee pool (buyFee pl) s)
  /\ (fst (run s) = Return tt ->
        exists e, snd (run s) = apply_effect (write_fee pool (buyFee pl) s) e).
Proof.
  cbv zeta. rewrite buyLeg_plan. cbv zeta.
  destruct (buyPlan _ _ _ _ _ _ _) as [e|]; cbn [fst snd].
  - split; [discriminate|]. intros _. now exists e.
  - split; [reflexivity | discriminate].
Qed.

Lemma sell_exact op pool pl (s : State) :
  let run := sellLeg env op pool pl in
  (fst (run s) = Throw -> snd (run s) = write_fee pool (sellFee pl) s)
  /\ (forall s2, agree s s2 ->
        fst (run s2) = fst (run s)
        /\ exists es,
             snd (run s) = apply_effects (write_fee pool (sellFee pl) s) es
             /\ snd (run s2) = apply_effects (write_fee pool (sellFee pl) s2) es).
Proof.
  cbv zeta.
  assert (Hplan : forall s0, agree s s0 ->
            sellLeg env op pool pl s0 =
            match sellPlan env (ids (orders s)) (feeBreakdown s)
                    (deref (arrays (write_fee pool (sellFee pl) s)) (feeBreakdown s))
                    op pool pl with
            | Return es => (Return tt, apply_effects (write_fee pool (sellFee pl) s0) es)
            | Throw => (Throw, write_fee pool (sellFee pl) s0)
            end).
  { intros s0 H0. destruct (write_fee_agree pool (sellFee pl) H0) as (_ & A1 & _).
    destruct H0 as (I & A & B & F).
    rewrite sellLeg_plan. cbv zeta. rewrite <- I, <- F, <- A1. reflexivity. }
  rewrite (Hplan s (agree_refl s)).
  destruct (sellPlan _ _ _ _ _ _ _) as [es|]; cbn [fst snd].
  - split; [discriminate|]. intros s2 H2. rewrite (Hplan s2 H2).
    split; [reflexivity|]. exists es. now split.
  - split; [reflexivity|]. intros s2 H2. rewrite (Hplan s2 H2).
    split; [reflexivity|]. exists []. now split.
Qed.

(** The loop over the batch runs every event, each on the state the
    one before left. *)
Lemma batch_loop (batch : list OrderParams) :
  forall s : State,
    for_of batch (handleOrder env) s
    = (Return tt, fold_left (fun s' op => snd (handleOrder env op s')) batch s).
Proof.
  induction batch as [|op batch IH]; intro s; [reflexivity|].
  cbn [for_of fold_left]. unfold bind at 1. rewrite handleOrder_run. apply IH.
Qed.

Lemma item_exact op pool cur prices price_ value_ mr nv (t : TokenId) (s : State) :
  let run := sellItem env op pool cur prices price_ value_ mr nv t in
  (fst (run s) = Throw -> snd (run s) = s)
  /\ (fst (run s) = Return tt -> exists e, snd (run s) = apply_effect s e)
  /\ (forall s2, agree s s2 ->
        fst (run s2) = fst (run s)
        /\ exists es,
             snd (run s) = apply_effects s es /\ snd (run s2) = apply_effects s2 es).
Proof.
  cbv zeta.
  assert (Hplan : forall s0, agree s s0 ->
            sellItem env op pool cur prices price_ value_ mr nv t s0 =
            match itemPlan env (ids (orders s)) (feeBps s) (feeBreakdown s)
                    (deref (arrays s) (feeBreakdown s)) op pool cur prices price_ value_ mr nv t
            with
            | Return e => (Return tt, apply_effect s0 e)
            | Throw => (Throw, s0)
            end).
  { intros s0 (I & A & B & F). rewrite sellItem_plan, <- I, <- A, <- B, <- F. reflexivity. }
  rewrite (Hplan s (agree_refl s)).
  destruct (itemPlan _ _ _ _ _ _ _ _ _ _ _ _ _ _) as [e|]; cbn [fst snd].
  - split; [discriminate|]. split; [intros _; now exists e|].
    intros s2 H2. rewrite (Hplan s2 H2). split; [reflexivity|]. exists [e]. now split.
  - split; [reflexivity|]. split; [discriminate|].
    intros s2 H2. rewrite (Hplan s2 H2). split; [reflexivity|]. exists []. now split.
Qed.

End Composed.

(** C8. Failures stay in the unit that failed, and the units are
    composed so that none stops another.
    - The batch: the loop over a batch never throws and runs
      [handleOrder] for every event, each on the state the event before
      left.
    - An event: [handleOrder] never throws.  When the preparation of the
      event fails (or stops at the allow-list) the state is left as it
      was, and the event could as well be absent from the batch.
      Otherwise the fee locals are declared, the buy leg runs, and the
      sell leg runs on the state the buy leg left, WHETHER THE BUY LEG
      THREW OR RETURNED; the event ends in the state the sell leg left,
      whether the sell leg threw or returned.
    - The buy leg: thrown, it leaves the state with its fee writes and
      nothing else (no result); returned, with its fee writes and one
      effect (one result).  Either way the state agrees with the one
      holding the fee writes alone, and the sell leg does after it what
      it does after the fee writes alone: the same outcome, the same
      effects.
    - The sell leg: thrown, it leaves the state with its fee writes and
      nothing else, so what the buy leg recorded stays.  When it reaches
      its loop, it returns, having run the body for every token of the
      inventory in turn, each on the state the token before left,
      thrown or not.  On states that agree it does the same.
    - One token of the sell loop: thrown, it leaves the state exactly
      as it was (no result); returned, it has added one effect (one
      result).  Either way the state agrees with the one before, so the
      next token does what it would have done; on states that agree the
      token does the same. *)
Theorem failures_are_contained (K : Keccak) (env : Env) :
  (forall batch s,
     for_of batch (handleOrder env) s
     = (Return tt, fold_left (fun s' op => snd (handleOrder env op s')) batch s))
  /\ (forall op s,
        handleOrder env op s
        = (Return tt,
           match prepare env op with
           | Return (Some (pool, pl)) =>
               snd (sellLeg env op pool pl
                      (snd (buyLeg env op pool pl (snd (declare_fees s)))))
           | _ => s
           end))
  /\ (forall op before after t,
        (forall pool pl, prepare env op <> Return (Some (pool, pl))) ->
        save env (before ++ op :: after) t = save env (before ++ after) t)
  /\ (forall op pool pl s,
        let run := buyLeg env op pool pl in
        let fees := write_fee pool (buyFee pl) s in
        (fst (run s) = Throw -> snd (run s) = fees /\ results (snd (run s)) = results s)
        /\ (fst (run s) = Return tt ->
              exists e, snd (run s) = apply_effect fees e
                        /\ results (snd (run s)) = results s ++ [effect_result e])
        /\ agree (snd (run s)) fees
        /\ fst (sellLeg env op pool pl (snd (run s))) = fst (sellLeg env op pool pl fees)
        /\ exists es,
             snd (sellLeg env op pool pl (snd (run s)))
             = apply_effects (write_fee pool (sellFee pl) (snd (run s))) es
             /\ snd (sellLeg env op pool pl fees)
                = apply_effects (write_fee pool (sellFee pl) fees) es)
  /\ (forall op pool pl s,
        let run := sellLeg env op pool pl in
        (fst (run s) = Throw ->
           snd (run s) = write_fee pool (sellFee pl) s /\ results (snd (run s)) = results s)
        /\ (forall first rest v roy top tokens,
              pl = first :: rest ->
              pp_buy first = Some v ->
              getRoyaltiesByTokenSet env (pool_nft pool) = Return roy ->
              royaltiesOnTop (hd_error (rawBuys pl)) roy = Return top ->
              getNfts env (pool_nft pool) (pool_address pool) = Return tokens ->
              run s
              = (Return tt,
                 fold_left
                   (fun s' tokenId =>
                      snd (sellItem env op pool (pp_currency first) (rawBuys pl)
                             (hd_error (rawBuys pl)) v (fst top) (v + snd top) tokenId s'))
                   tokens (write_fee pool (Some (bps_buy first)) s)))
        /\ (forall s2, agree s s2 ->
              fst (run s2) = fst (run s)
              /\ exists es,
                   snd (run s) = apply_effects (write_fee pool (sellFee pl) s) es
                   /\ snd (run s2) = apply_effects (write_fee pool (sellFee pl) s2) es))
  /\ (forall op pool cur prices price_ value_ mr nv tokenId s,
        let run := sellItem env op pool cur prices price_ value_ mr nv tokenId in
        (fst (run s) = Throw -> snd (run s) = s)
        /\ (fst (run s) = Return tt ->
              exists e, snd (run s) = apply_effect s e
                        /\ results (snd (run s)) = results s ++ [effect_result e])
        /\ agree (snd (run s)) s
        /\ (forall s2, agree s s2 ->
              fst (run s2) = fst (run s)
              /\ exists es,
                   snd (run s) = apply_effects s es /\ snd (run s2) = apply_effects s2 es)).
Proof.
  split; [intros; apply batch_loop|].
  split; [intros; apply handleOrder_run|].
  split; [intros; now apply save_failed_event_is_absent|].
  split; [|split].
  - intros op pool pl s. cbv zeta.
    destruct (buy_exact env op pool pl s) as (T & R).
    destruct (buy_contained env op pool pl s) as (A & _).
    destruct (write_fee_frame pool (buyFee pl) s) as (R0 & _).
    split; [|split; [|split; [exact A|]]].
    + intro H. rewrite (T H). now split.
    + intro H. destruct (R H) as (e & E). exists e. split; [exact E|].
      rewrite E. destruct e; cbn [apply_effect effect_result]; cbn; now rewrite R0.
    + destruct (sell_exact env op pool pl (snd (buyLeg env op pool pl s))) as (_ & N).
      destruct (N _ A) as (F & es & H1 & H2).
      split; [now rewrite F|]. exists es. now split.
  - intros op pool pl s. cbv zeta.
    destruct (sell_exact env op pool pl s) as (T & N).
    destruct (write_fee_frame pool (sellFee pl) s) as (R0 & _).
    split; [|split; [|exact N]].
    + intro H. rewrite (T H). now split.
    + intros first rest v roy top tokens -> Hb Hr Ht Hn. now apply sellLeg_loop with (roy := roy).
  - intros op pool cur prices price_ value_ mr nv tokenId s. cbv zeta.
    destruct (item_exact env op pool cur prices price_ value_ mr nv tokenId s) as (T & R & N).
    destruct (item_contained env op pool cur prices price_ value_ mr nv tokenId s) as (A & _).
    split; [exact T|]. split; [|split; [exact A | exact N]].
    intro H. destruct (R H) as (e & E). exists e. split; [exact E|].
    rewrite E. destruct e; reflexivity.
Qed.

Lemma failures_are_contained_witness :
  (forall pool pl, prepare flakyEnv unknownPoolEvent <> Return (Some (pool, pl)))
  /\ save flakyEnv ([] ++ unknownPoolEvent :: [exampleEvent]) []
     = save flakyEnv ([] ++ [exampleEvent]) []
  /\ List.length (saved_results (save flakyEnv [unknownPoolEvent; exampleEvent] [])) = 3%nat
  /\ fst (buyLeg noContractSetEnv exampleEvent examplePool (map threeLevels (seq 1 10))
            (snd (declare_fees (initial [])))) = Throw
  /\ map res_id (saved_results (save noContractSetEnv [exampleEvent] []))
     = [list_byte_of_string "nftx" ++ allowedPool ++ list_byte_of_string "sell"
        ++ be_bytes 32 1%N ++ [];
        list_byte_of_string "nftx" ++ allowedPool ++ list_byte_of_string "sell"
        ++ be_bytes 32 2%N ++ []].
Proof.
  assert (H : forall pool pl,
             prepare flakyEnv unknownPoolEvent <> Return (Some (pool, pl))).
  { intros pool pl. vm_compute. discriminate. }
  destruct (failures_are_contained plainDigest flakyEnv) as (_ & _ & E & _).
  split; [exact H|]. split; [exact (E unknownPoolEvent [] [exampleEvent] [] H)|].
  split; [vm_compute; reflexivity|]. split; vm_compute; reflexivity.
Defined.

(** * Further properties of [save] *)

Unset Implicit Arguments.

Section Shapes.
Context {K : Keccak}.
Variable env : Env.

(** An effect of an event comes from the buy leg or from one token the
    pool holds. *)
Lemma legEffects_cases l ref op pool pl e :
  In e (legEffects env l ref op pool pl) ->
  buyPlan env l ref (fee_entries pool (buyFee pl)) op pool pl = Return e
  \/ exists first rest value_ roy top tokens t,
       pl = first :: rest
       /\ pp_buy first = Some value_
       /\ getRoyaltiesByTokenSet env (pool_nft pool) = Return roy
       /\ royaltiesOnTop (hd_error (rawBuys pl)) roy = Return top
       /\ getNfts env (pool_nft pool) (pool_address pool) = Return tokens
       /\ In t tokens
       /\ itemPlan env l (bps_buy first) ref (eventEntries pool pl) op pool
            (pp_currency first) (rawBuys pl) (hd_error (rawBuys pl))
            value_ (fst top) (value_ + snd top) t = Return e.
Proof.
  unfold legEffects. intro Hin. apply in_app_or in Hin. destruct Hin as [Hin|Hin].
  - left. destruct (buyPlan env l ref (fee_entries pool (buyFee pl)) op pool pl) as [e'|];
      simpl in Hin; [|contradiction].
    destruct Hin as [<-|[]]. reflexivity.
  - right. fold (eventEntries pool pl) in Hin.
    unfold sellPlan in Hin. destruct pl as [|first rest]; [contradiction|].
    destruct (pp_buy first) as [value_|] eqn:Hb; [|contradiction].
    unfold and_then in Hin.
    destruct (getRoyaltiesByTokenSet env (pool_nft pool)) as [roy|] eqn:Hr; [|contradiction].
    destruct (royaltiesOnTop (hd_error (rawBuys (first :: rest))) roy) as [top|] eqn:Ht;
      [|contradiction].
    destruct (getNfts env (pool_nft pool) (pool_address pool)) as [tokens|] eqn:Hn;
      cbn [caught] in Hin; [|contradiction].
    apply in_flat_map in Hin. destruct Hin as (t & Hin_t & Hin).
    match type of Hin with In _ (caught ?o _) => destruct o as [e'|] eqn:E end;
      simpl in Hin; [|contradiction].
    destruct Hin as [<-|[]].
    exists first, rest, value_, roy, top, tokens, t. repeat split; assumption.
Qed.


Lemma buyPlan_shaped l ref entries op pool pl e :
  buyPlan env l ref entries op pool pl = Return e ->
  exists i,
    getOrderId (op_pool op) buy None = Return i
    /\ shaped op buy i e
    /\ (forall first rest st r,
          pl = first :: rest -> pp_sell first <> None -> e = Sent st r -> is_repricing st).
Proof.
  unfold buyPlan, and_then. destruct pl as [|first rest]; [discriminate|].
  destruct (getOrderId (op_pool op) buy None) as [i|]; [|discriminate].
  intro E. exists i. split; [reflexivity|].
  destruct (pp_sell first) as [value_|] eqn:Hs.
  - destruct (getRoyaltiesByTokenSet env (pool_nft pool)); [|discriminate].
    destruct (royaltiesOnTop _ _); [|discriminate].
    destruct (toString _); [|discriminate].
    destruct (negb (present l i)).
    + destruct (contractWide_save env (pool_nft pool)); [|discriminate].
      destruct (require_tokenSetId _); [|discriminate].
      destruct (sources_getOrInsert env); [|discriminate].
      injection E as <-. split.
      * split; [reflexivity|]. split; [now exists new_order|]. split.
        -- intros h d [<-|[]]. cbn. repeat split. discriminate.
        -- cbn. repeat split.
      * intros first' rest' st r _ _ Habs. discriminate.
    + injection E as <-. split.
      * split; [reflexivity|]. split; [now exists reprice|]. split.
        -- intros h d [<-|[]]. cbn. repeat split. discriminate.
        -- exact I.
      * intros first' rest' st r _ _ Habs. injection Habs as <- _. reflexivity.
  - injection E as <-. split.
    + split; [reflexivity|]. split; [now exists reprice|]. split.
      * intros h d [].
      * exact I.
    + intros first' rest' st r Hpl Hne _. injection Hpl as <- _. congruence.
Qed.

Lemma itemPlan_shaped l bps ref entries op pool cur prices price_ value_ mr nv t e :
  itemPlan env l bps ref entries op pool cur prices price_ value_ mr nv t = Return e ->
  exists i,
    getOrderId (op_pool op) sell (Some t) = Return i
    /\ shaped op sell i e
    /\ (forall st r, e = Sent st r -> is_repricing st).
Proof.
  unfold itemPlan, and_then.
  destruct (getOrderId (op_pool op) sell (Some t)) as [i|]; [|discriminate].
  intro E. exists i. split; [reflexivity|].
  destruct (toString price_); [|discriminate].
  destruct (negb (present l i)).
  - destruct (singleToken_save env (pool_nft pool) t); [|discriminate].
    destruct (require_tokenSetId _); [|discriminate].
    destruct (sources_getOrInsert env); [|discriminate].
    injection E as <-. split.
    + split; [reflexivity|]. split; [now exists new_order|]. split.
      * intros h d [<-|[]]. cbn. repeat split.
      * cbn. repeat split.
    + intros st r Habs. discriminate.
  - injection E as <-. split.
    + split; [reflexivity|]. split; [now exists reprice|]. split.
      * intros h d [<-|[]]. cbn. repeat split.
      * exact I.
    + intros st r Habs. injection Habs as <- _. reflexivity.
Qed.

(** Every effect of a batch, with the event, the side and the identity
    it is about, and the token when it is a sell effect. *)
Lemma batchEffects_shaped l ref batch e :
  In e (batchEffects env l ref batch) ->
  exists op pool pl sd i,
    In op batch
    /\ op_pool op = allowedPool
    /\ getNftPoolDetails env allowedPool = Return (Some pool)
    /\ getPoolPrices env allowedPool (seq 0 10) = Return pl
    /\ shaped op sd i e
    /\ (forall first rest st r,
          pl = first :: rest -> pp_sell first <> None -> e = Sent st r -> is_repricing st)
    /\ match sd with
       | buy => getOrderId allowedPool buy None = Return i
       | sell =>
           exists first rest tokens t,
             pl = first :: rest /\ pp_buy first <> None
             /\ getNfts env (pool_nft pool) (pool_address pool) = Return tokens
             /\ In t tokens
             /\ getOrderId allowedPool sell (Some t) = Return i
       end.
Proof.
  intro Hin. apply in_batchEffects in Hin.
  destruct Hin as (op & pool & pl & k & Hop & Hp & Hin & _).
  destruct (prepare_inv env op Hp) as (Eo & Hd & Hl).
  apply legEffects_cases in Hin. destruct Hin as [Hb|Hs].
  - destruct (buyPlan_shaped _ _ _ _ _ _ _ Hb) as (i & Hi & Hsh & Hrep).
    exists op, pool, pl, buy, i. rewrite Eo in Hi.
    split; [assumption|]. split; [assumption|]. split; [assumption|]. split; [assumption|].
    split; [assumption|]. split; [exact Hrep | exact Hi].
  - destruct Hs as (first & rest & value_ & roy & top & tokens & t
                    & Hpl & Hbuy & _ & _ & Hn & Ht & Hitem).
    destruct (itemPlan_shaped _ _ _ _ _ _ _ _ _ _ _ _ _ _ Hitem) as (i & Hi & Hsh & Hrep).
    exists op, pool, pl, sell, i. rewrite Eo in Hi.
    split; [assumption|]. split; [assumption|]. split; [assumption|]. split; [assumption|].
    split; [assumption|]. split.
    + intros first' rest' st r _ _ He. now apply (Hrep st r).
    + exists first, rest, tokens, t. repeat split; try assumption. congruence.
Qed.

End Shapes.

(** ** The table after [save], row by row *)

Section RowByRow.
Context {K : Keccak}.
Variable env : Env.

Lemma run_statement_rows (st : IdbStatement) (t : Table) :
  is_update st -> run_statement t st = map (fun r => row_step r st) t.
Proof. destruct st; simpl; intro H; [reflexivity | reflexivity | reflexivity | contradiction]. Qed.

Lemma fold_updates_rows (sts : list IdbStatement) :
  forall t : Table,
    Forall is_update sts -> fold_left run_statement sts t = map (run_row sts) t.
Proof.
  induction sts as [|st sts IH]; intros t H.
  - simpl. unfold run_row. simpl. now rewrite map_id.
  - inversion H; subst. simpl. rewrite IH by assumption.
    rewrite run_statement_rows by assumption. rewrite map_map. reflexivity.
Qed.

Lemma row_step_id (r : Row) (st : IdbStatement) : id (row_step r st) = id r.
Proof.
  destruct st; simpl; try reflexivity;
    match goal with |- context [digest_eqb ?a ?b] => destruct (digest_eqb a b) end; reflexivity.
Qed.

Lemma row_step_fixed (r : Row) (st : IdbStatement) :
  fixed_columns (row_step r st) = fixed_columns r.
Proof.
  destruct st; simpl; try reflexivity;
    match goal with |- context [digest_eqb ?a ?b] => destruct (digest_eqb a b) end; reflexivity.
Qed.

Lemma run_row_fixed (sts : list IdbStatement) :
  forall r : Row, fixed_columns (run_row sts r) = fixed_columns r.
Proof.
  induction sts as [|st sts IH]; intro r; [reflexivity|].
  unfold run_row in *. simpl. rewrite IH. apply row_step_fixed.
Qed.

Lemma run_row_id (sts : list IdbStatement) (r : Row) : id (run_row sts r) = id r.
Proof.
  pose proof (run_row_fixed sts r) as H. unfold fixed_columns in H. congruence.
Qed.

Lemma row_step_miss (r : Row) (st : IdbStatement) (i : Digest) :
  statement_id st = Some i -> i <> id r -> row_step r st = r.
Proof.
  intros Hi Hne. destruct st; simpl in *; try discriminate; injection Hi as ->;
    match goal with |- context [digest_eqb ?a ?b] => destruct (digest_eqb_spec a b) end;
    congruence.
Qed.

Lemma run_row_miss (sts : list IdbStatement) (r : Row) :
  Forall (fun st => exists i, statement_id st = Some i /\ i <> id r) sts ->
  run_row sts r = r.
Proof.
  induction 1 as [|st sts (i & Hi & Hne) _ IH]; [reflexivity|].
  unfold run_row in *. simpl. rewrite (row_step_miss r st i Hi Hne). exact IH.
Qed.

(** The table [save] leaves: every row of the table it found, taken
    through the [UPDATE]s of the batch, then the rows the insert kept. *)
Lemma save_rows (batch : list OrderParams) (t : Table) :
  saved_orders (save env batch t)
  = map (run_row (sent (batchEffects env (ids t) 0%nat batch))) t
    ++ kept_rows (ids t) (flushed_rows env (ids t) batch).
Proof.
  destruct (save_spec env batch t) as (_ & _ & ->).
  pose proof (batchEffects_updates_only env batch (ids t) 0%nat) as U.
  apply sent_updates in U.
  rewrite insert_kept, ids_fold_updates, fold_updates_rows by assumption. reflexivity.
Qed.

Lemma save_results_effects (batch : list OrderParams) (t : Table) :
  saved_results (save env batch t) = map effect_result (batchEffects env (ids t) 0%nat batch).
Proof. apply (save_spec env batch t). Qed.

(** An order [save] writes is written by an effect of the batch. *)
Lemma derivedOrders_effects (batch : list OrderParams) (t : Table) (d : DerivedOrder) :
  In d (derivedOrders (save env batch t)) ->
  exists e,
    In e (batchEffects env (ids t) 0%nat batch)
    /\ In d (effect_orders (map fst (batchPlans env (ids t) 0%nat batch)) e).
Proof.
  unfold derivedOrders. destruct (save_spec env batch t) as (_ & -> & _).
  rewrite in_flat_map. intros (st & Hst & Hd).
  apply in_app_or in Hst. destruct Hst as [Hst|Hst].
  - apply in_sent in Hst. destruct Hst as (r & He). exists (Sent st r). split; assumption.
  - destruct (flushed_rows env (ids t) batch) as [|r0 rows0] eqn:Er; [contradiction|].
    destruct Hst as [<-|[]]. rewrite <- Er in Hd. clear Er r0 rows0.
    cbn [derived] in Hd. apply in_map_iff in Hd. destruct Hd as (row & <- & Hrow).
    unfold flushed_rows in Hrow. apply in_map_iff in Hrow.
    destruct Hrow as (brow & <- & Hb).
    apply in_buffered in Hb. destruct Hb as (r & He).
    exists (Buffered brow r). split; [assumption | now left].
Qed.

End RowByRow.

Lemma unnamed_row_is_untouched
    {K : Keccak} (env : Env) (batch : list OrderParams) (t : Table) (r : Row)
    (Hunnamed : forall res, In res (saved_results (save env batch t)) -> res_id res <> id r) :
  run_row (sent (batchEffects env (ids t) 0%nat batch)) r = r.
Proof.
  apply run_row_miss. apply Forall_forall. intros st Hst.
  apply in_sent in Hst. destruct Hst as (res & He).
  destruct (batchEffects_shaped env _ _ _ _ He)
    as (op & pool & pl & sd & i & _ & _ & _ & _ & (Hid & (k & Hres) & _) & _).
  exists i. split; [exact Hid|].
  assert (Hin : In res (saved_results (save env batch t))).
  { rewrite save_results_effects. apply in_map_iff. exists (Sent st res). now split. }
  specialize (Hunnamed res Hin). simpl in Hres. rewrite Hres in Hunnamed. exact Hunnamed.
Qed.

(** X1. [save] changes no row but those its results name: a row of the
    table whose identity is not the identity of any returned result is
    in the table afterwards, as it was. *)
Theorem save_leaves_unnamed_rows
    (K : Keccak) (env : Env) (batch : list OrderParams) (t : Table) (r : Row)
    (Hr : In r t)
    (Hunnamed : forall res, In res (saved_results (save env batch t)) -> res_id res <> id r) :
  In r (saved_orders (save env batch t)).
Proof.
  rewrite save_rows. apply in_or_app. left.
  apply in_map_iff. exists r. split; [|exact Hr].
  now apply unnamed_row_is_untouched.
Qed.

Lemma save_leaves_unnamed_rows_witness :
  In foreignRow foundTable
  /\ (forall res, In res (saved_results (save royaltyEnv [exampleEvent] foundTable)) ->
        res_id res <> id foreignRow)
  /\ In foreignRow (saved_orders (save royaltyEnv [exampleEvent] foundTable)).
Proof.
  assert (Hr : In foreignRow foundTable) by (right; left; reflexivity).
  assert (Hu : forall res, In res (saved_results (save royaltyEnv [exampleEvent] foundTable)) ->
                 res_id res <> id foreignRow).
  { intros res Hres. vm_compute in Hres.
    destruct Hres as [<-|[<-|[<-|[]]]]; vm_compute; discriminate. }
  split; [exact Hr|]. split; [exact Hu|].
  exact (save_leaves_unnamed_rows plainDigest royaltyEnv [exampleEvent] foundTable foreignRow Hr Hu).
Defined.

(** X2. [save] never deletes or reorders a row and never changes the
    columns its statements do not set: the table it leaves starts with
    as many rows as it found, with the same id, kind, side, approval
    status, token set, maker, taker, currency, source and contract, in
    the same order. *)
Theorem save_keeps_every_row
    (K : Keccak) (env : Env) (batch : list OrderParams) (t : Table) :
  (List.length t <= List.length (saved_orders (save env batch t)))%nat
  /\ map fixed_columns (firstn (List.length t) (saved_orders (save env batch t)))
     = map fixed_columns t.
Proof.
  rewrite save_rows.
  set (sts := sent (batchEffects env (ids t) 0%nat batch)).
  split.
  - rewrite length_app, length_map. lia.
  - rewrite firstn_app, length_map, Nat.sub_diag, firstn_O, app_nil_r.
    rewrite <- (length_map (run_row sts) t), firstn_all, map_map.
    apply map_ext. intro r. apply run_row_fixed.
Qed.

Lemma save_keeps_every_row_witness :
  map fixed_columns
      (firstn 2 (saved_orders (save royaltyEnv [exampleEvent; exampleEvent] foundTable)))
  = map fixed_columns foundTable
  /\ List.length (saved_orders (save royaltyEnv [exampleEvent; exampleEvent] foundTable))
     = 4%nat.
Proof.
  split.
  - exact (proj2 (save_keeps_every_row plainDigest royaltyEnv
                    [exampleEvent; exampleEvent] foundTable)).
  - vm_compute. reflexivity.
Defined.

Section Live.
Context {K : Keccak}.

Lemma reprice_row_live ts q u (r : Row) :
  u_currencyNormalizedValue u = u_normalizedValue u -> live (reprice_row ts q u r).
Proof. intro H. unfold live. simpl. repeat split. exact H. Qed.

Lemma row_step_live (r : Row) (st : IdbStatement) :
  is_repricing st ->
  (live r \/ statement_id st = Some (id r)) -> live (row_step r st).
Proof.
  intros Hrep H. destruct st as [ts u|ts u|ts i|rows]; simpl in *; try contradiction.
  - destruct (digest_eqb_spec (id r) (u_id u)) as [E|E]; [now apply reprice_row_live|].
    destruct H as [H|H]; [exact H | congruence].
  - destruct (digest_eqb_spec (id r) (u_id u)) as [E|E]; [now apply reprice_row_live|].
    destruct H as [H|H]; [exact H | congruence].
Qed.

Lemma run_row_live (sts : list IdbStatement) :
  forall r : Row,
    Forall is_repricing sts ->
    (live r \/ exists st, In st sts /\ statement_id st = Some (id r)) ->
    live (run_row sts r).
Proof.
  induction sts as [|st sts IH]; intros r Hrep H.
  - destruct H as [H|(st & [] & _)]. exact H.
  - inversion Hrep; subst. unfold run_row. simpl. apply IH; [assumption|].
    destruct H as [H|(st' & [<-|Hin] & Hid)].
    + left. apply row_step_live; auto.
    + left. apply row_step_live; auto.
    + right. exists st'. split; [assumption|]. now rewrite row_step_id.
Qed.

Lemma kept_rows_in (rows : list Row) :
  forall (seen : list Digest) (r : Row), In r (kept_rows seen rows) -> In r rows.
Proof.
  induction rows as [|r0 rows IH]; intros seen r Hr; simpl in *; [contradiction|].
  destruct (present seen (id r0)).
  - right. eapply IH; eassumption.
  - destruct Hr as [<-|Hr]; [now left | right; eapply IH; eassumption].
Qed.

Lemma in_sent_intro (es : list Effect) (st : IdbStatement) (res : SaveResult) :
  In (Sent st res) es -> In st (sent es).
Proof.
  intro H. unfold sent. apply in_flat_map. exists (Sent st res).
  split; [assumption | now left].
Qed.

Lemma serialise_live (h : list (list FeeEntry)) (row : DbOrder Ref) :
  live row -> live (serialise h row).
Proof. intro H. exact H. Qed.

End Live.

(** X3. While the pool quotes a sell-direction price, every row that a
    result of the batch names ends live, whatever it was before (a
    cancelled or expired order too): fillable, with an open-ended
    validity and expiration, and its currency price, value and
    normalised value equal to the native ones. *)
Theorem named_rows_end_live
    (K : Keccak) (env : Env) (batch : list OrderParams) (t : Table)
    (first : PoolPrice) (rest : list PoolPrice) (v : Z) (res : SaveResult) (r : Row)
    (Hladder : getPoolPrices env allowedPool (seq 0 10) = Return (first :: rest))
    (Hsell : pp_sell first = Some v)
    (Hres : In res (saved_results (save env batch t)))
    (Hr : In r (saved_orders (save env batch t)))
    (Hid : id r = res_id res) :
  live r.
Proof.
  rewrite save_rows in Hr. rewrite save_results_effects in Hres.
  apply in_map_iff in Hres. destruct Hres as (e & <- & He).
  assert (Hrep : Forall is_repricing (sent (batchEffects env (ids t) 0%nat batch))).
  { apply Forall_forall. intros st Hst. apply in_sent in Hst. destruct Hst as (res' & He').
    destruct (batchEffects_shaped env _ _ _ _ He')
      as (op & pool & pl & sd & i & _ & _ & _ & Hl & _ & Hrp & _).
    rewrite Hladder in Hl. injection Hl as <-.
    apply (Hrp first rest st res' eq_refl); [congruence | reflexivity]. }
  apply in_app_or in Hr. destruct Hr as [Hr|Hr].
  - apply in_map_iff in Hr. destruct Hr as (r0 & <- & Hr0).
    rewrite run_row_id in Hid.
    apply run_row_live; [exact Hrep|]. right.
    destruct (batchEffects_shaped env _ _ _ _ He)
      as (op & pool & pl & sd & i & _ & _ & _ & _ & (Hei & (k & Hk) & _) & _).
    rewrite Hk in Hid. simpl in Hid.
    destruct e as [row res|st res].
    + exfalso. pose proof (batchEffects_well_tagged env (ids t) 0%nat batch) as W.
      rewrite Forall_forall in W. destruct (W _ He) as (Habs & _).
      apply present_false in Habs. apply Habs.
      simpl in Hei. injection Hei as ->. rewrite <- Hid. unfold ids. now apply in_map.
    + exists st. split; [eapply in_sent_intro; eassumption|]. simpl in Hei. congruence.
  - apply kept_rows_in in Hr. unfold flushed_rows in Hr.
    apply in_map_iff in Hr. destruct Hr as (brow & <- & Hb).
    apply in_buffered in Hb. destruct Hb as (res' & He').
    destruct (batchEffects_shaped env _ _ _ _ He')
      as (op & pool & pl & sd & i & _ & _ & _ & _ & (_ & _ & _ & Hlive) & _).
    apply serialise_live. exact Hlive.
Qed.

Lemma named_rows_end_live_witness :
  getPoolPrices royaltyEnv allowedPool (seq 0 10)
  = Return (threeLevels 1 :: map threeLevels (seq 2 9))
  /\ pp_sell (threeLevels 1) = Some 9800
  /\ In revivedResult (saved_results (save royaltyEnv [exampleEvent] foundTable))
  /\ In revivedRow (saved_orders (save royaltyEnv [exampleEvent] foundTable))
  /\ id revivedRow = res_id revivedResult
  /\ fillability_status cancelledBuyRow = "cancelled"%string
  /\ id cancelledBuyRow = id revivedRow
  /\ live revivedRow.
Proof.
  assert (H1 : In revivedResult (saved_results (save royaltyEnv [exampleEvent] foundTable))).
  { vm_compute. left. reflexivity. }
  assert (H2 : In revivedRow (saved_orders (save royaltyEnv [exampleEvent] foundTable))).
  { vm_compute. left. reflexivity. }
  split; [reflexivity|]. split; [reflexivity|]. split; [exact H1|]. split; [exact H2|].
  split; [reflexivity|]. split; [reflexivity|]. split; [reflexivity|].
  exact (named_rows_end_live plainDigest royaltyEnv [exampleEvent] foundTable
           (threeLevels 1) (map threeLevels (seq 2 9)) 9800 revivedResult revivedRow
           eq_refl eq_refl H1 H2 eq_refl).
Defined.

Lemma filter_all {A} (f : A -> bool) (l : list A) :
  (forall x, In x l -> f x = true) -> filter f l = l.
Proof.
  induction l as [|x l IH]; intro H; [reflexivity|].
  simpl. rewrite (H x (or_introl eq_refl)). f_equal. apply IH. intros y Hy. apply H. now right.
Qed.

Lemma result_is_success {K : Keccak} (env : Env) (batch : list OrderParams) (t : Table)
    (res : SaveResult) :
  In res (saved_results (save env batch t)) ->
  exists op k,
    In op batch /\ op_pool op = allowedPool /\ res = success (res_id res) op k.
Proof.
  rewrite save_results_effects. intro H. apply in_map_iff in H. destruct H as (e & <- & He).
  destruct (batchEffects_shaped env _ _ _ _ He)
    as (op & pool & pl & sd & i & Hop & Hpool & _ & _ & (_ & (k & Hk) & _) & _).
  exists op, k. rewrite Hk. simpl. auto.
Qed.

(** X4. Every result [save] returns is a success tagged new-order or
    reprice, with the transaction hash of an event of the batch that
    names the allow-listed pool; so the filter on the status drops
    nothing, and [save] queues one message per result, in the order of
    the results, carrying its trigger kind, identity and hash. *)
Theorem every_result_is_queued
    (K : Keccak) (env : Env) (batch : list OrderParams) (t : Table) :
  (forall res, In res (saved_results (save env batch t)) ->
     exists op k, In op batch /\ op_pool op = allowedPool
                  /\ res = success (res_id res) op k)
  /\ saved_queue (save env batch t) = map queueInfo (saved_results (save env batch t)).
Proof.
  split; [apply result_is_success|].
  unfold save at 1. cbn [saved_queue]. unfold queueInfos.
  change (results (save_state env batch t)) with (saved_results (save env batch t)).
  rewrite filter_all; [reflexivity|].
  intros res Hres. destruct (result_is_success env batch t res Hres) as (op & k & _ & _ & ->).
  reflexivity.
Qed.

Lemma every_result_is_queued_witness :
  map q_trigger_kind (saved_queue (save flakyEnv [unknownPoolEvent; exampleEvent] []))
  = [Some new_order; Some new_order; Some new_order]
  /\ List.length (saved_queue (save flakyEnv [unknownPoolEvent; exampleEvent] []))
     = List.length (saved_results (save flakyEnv [unknownPoolEvent; exampleEvent] [])).
Proof.
  rewrite (proj2 (every_result_is_queued plainDigest flakyEnv
                    [unknownPoolEvent; exampleEvent] [])).
  split; [vm_compute; reflexivity | apply length_map].
Defined.

(** X5. Whatever pools the events of a batch name, every order [save]
    writes is an order of the allow-listed pool: a buy order carries the
    pool's buy identity, a sell order the sell identity of a token that
    the inventory lookup for the pool returned, with quantity 1, and is
    written only when the first quote has a buy-direction price. *)
Theorem written_orders_are_of_the_pool
    (K : Keccak) (env : Env) (batch : list OrderParams) (t : Table) (d : DerivedOrder)
    (Hd : In d (derivedOrders (save env batch t))) :
  match do_side d with
  | buy => getOrderId allowedPool buy None = Return (do_id d)
  | sell =>
      exists pool first rest tokens tokenId,
        getNftPoolDetails env allowedPool = Return (Some pool)
        /\ getPoolPrices env allowedPool (seq 0 10) = Return (first :: rest)
        /\ pp_buy first <> None
        /\ getNfts env (pool_nft pool) (pool_address pool) = Return tokens
        /\ In tokenId tokens
        /\ getOrderId allowedPool sell (Some tokenId) = Return (do_id d)
        /\ do_quantityRemaining d = 1%N
  end.
Proof.
  apply derivedOrders_effects in Hd. destruct Hd as (e & He & Hd).
  destruct (batchEffects_shaped env _ _ _ _ He)
    as (op & pool & pl & sd & i & _ & _ & Hpool & Hl & (_ & _ & Ho & _) & _ & Hsd).
  destruct (Ho _ _ Hd) as (-> & -> & Hq).
  destruct sd; [|exact Hsd].
  destruct Hsd as (first & rest & tokens & tok & -> & Hb & Hn & Ht & Hi).
  exists pool, first, rest, tokens, tok. repeat split; auto.
Qed.

Lemma written_orders_are_of_the_pool_witness :
  In royaltySellOrder (derivedOrders (save royaltyEnv [exampleEvent] []))
  /\ exists pool first rest tokens tokenId,
        getNftPoolDetails royaltyEnv allowedPool = Return (Some pool)
        /\ getPoolPrices royaltyEnv allowedPool (seq 0 10) = Return (first :: rest)
        /\ pp_buy first <> None
        /\ getNfts royaltyEnv (pool_nft pool) (pool_address pool) = Return tokens
        /\ In tokenId tokens
        /\ getOrderId allowedPool sell (Some tokenId) = Return (do_id royaltySellOrder)
        /\ do_quantityRemaining royaltySellOrder = 1%N.
Proof.
  assert (Hin : In royaltySellOrder (derivedOrders (save royaltyEnv [exampleEvent] []))).
  { vm_compute. right. left. reflexivity. }
  split; [exact Hin|].
  exact (written_orders_are_of_the_pool plainDigest royaltyEnv [exampleEvent] []
           royaltySellOrder Hin).
Defined.

(** ** Identities of one pool, without collisions *)

Section OnePool.
Context {K : Keccak}.
Hypothesis CF : collision_free K.

Lemma buy_id_is_no_sell_id (P : Address) (t : option TokenId) (i : Digest) :
  getOrderId P buy None = Return i -> getOrderId P sell t = Return i -> False.
Proof.
  rewrite getOrderId_buy. intros Hb Hs. apply Return_inj in Hb. subst i.
  apply getOrderId_sell_inv in Hs. destruct Hs as (j & _ & _ & E).
  apply CF in E. do 2 apply app_inv_head in E.
  apply (f_equal (@List.length byte)) in E.
  rewrite !length_app, be_bytes_length in E. simpl in E. lia.
Qed.

Lemma sell_id_names_one_token (P : Address) (a b : TokenId) (i : Digest) :
  getOrderId P sell (Some a) = Return i -> getOrderId P sell (Some b) = Return i -> a = b.
Proof.
  intros Ha Hb.
  apply getOrderId_sell_inv in Ha. destruct Ha as (a' & Ea & La & Ia).
  apply getOrderId_sell_inv in Hb. destruct Hb as (b' & Eb & Lb & Ib).
  injection Ea as <-. injection Eb as <-.
  rewrite Ia in Ib. apply CF in Ib. do 3 apply app_inv_head in Ib.
  rewrite !app_nil_r in Ib. now apply uint256_inj.
Qed.

End OnePool.

(** X6. [save] never touches the sell order of a token that has left
    the pool: when the inventory lookup does not return the token, the
    row holding the token's sell identity is in the table afterwards as
    it was found (still fillable, if it was), whatever the batch. *)
Theorem departed_token_keeps_its_sell_order
    (K : Keccak) (CF : collision_free K) (env : Env) (batch : list OrderParams) (t : Table)
    (r : Row) (tokenId : TokenId)
    (Hr : In r t)
    (Hid : getOrderId allowedPool sell (Some tokenId) = Return (id r))
    (Hgone : forall pool tokens,
        getNftPoolDetails env allowedPool = Return (Some pool) ->
        getNfts env (pool_nft pool) (pool_address pool) = Return tokens ->
        ~ In tokenId tokens) :
  In r (saved_orders (save env batch t)).
Proof.
  rewrite save_rows. apply in_or_app. left.
  apply in_map_iff. exists r. split; [|exact Hr].
  apply unnamed_row_is_untouched.
  intros res Hres E. rewrite save_results_effects in Hres.
  apply in_map_iff in Hres. destruct Hres as (e & <- & He).
  destruct (batchEffects_shaped env _ _ _ _ He)
    as (op & pool & pl & sd & i & _ & _ & Hpool & _ & (_ & (k & Hk) & _) & _ & Hsd).
  rewrite Hk in E. cbn [success res_id] in E. subst i.
  destruct sd.
  - destruct Hsd as (first & rest & tokens & tok & _ & _ & Hn & Ht & Hi).
    rewrite (sell_id_names_one_token CF _ _ _ _ Hid Hi) in Hgone.
    exact (Hgone pool tokens Hpool Hn Ht).
  - exact (buy_id_is_no_sell_id CF _ _ _ Hsd Hid).
Qed.

Lemma departed_token_keeps_its_sell_order_witness :
  In departedSellRow staleTable
  /\ getOrderId allowedPool sell (Some 3%N) = Return (id departedSellRow)
  /\ getNfts royaltyEnv exampleNft allowedPool = Return [1%N; 2%N]
  /\ In departedSellRow (saved_orders (save royaltyEnv [exampleEvent] staleTable)).
Proof.
  assert (Hr : In departedSellRow staleTable) by (left; reflexivity).
  split; [exact Hr|]. split; [reflexivity|]. split; [reflexivity|].
  apply (departed_token_keeps_its_sell_order plainDigest plainDigest_collision_free
           royaltyEnv [exampleEvent] staleTable departedSellRow 3%N Hr eq_refl).
  intros pool tokens _ Hn. apply Return_inj in Hn. subst tokens.
  intros [H|[H|[]]]; discriminate.
Defined.

(** X7. Without a buy-direction price in the first quote, or with an
    inventory lookup that returns no token, [save] writes no sell order:
    every order written is a buy order and every result names the
    pool's buy identity. *)
Theorem no_bid_or_no_inventory_no_sell_order
    (K : Keccak) (env : Env) (batch : list OrderParams) (t : Table)
    (Hnone :
       (forall first rest,
           getPoolPrices env allowedPool (seq 0 10) = Return (first :: rest) ->
           pp_buy first = None)
       \/ (forall pool tokens,
             getNftPoolDetails env allowedPool = Return (Some pool) ->
             getNfts env (pool_nft pool) (pool_address pool) = Return tokens ->
             tokens = [])) :
  (forall d, In d (derivedOrders (save env batch t)) -> do_side d = buy)
  /\ (forall res, In res (saved_results (save env batch t)) ->
        getOrderId allowedPool buy None = Return (res_id res)).
Proof.
  assert (Hbuy : forall e, In e (batchEffects env (ids t) 0%nat batch) ->
            exists op i, shaped op buy i e /\ getOrderId allowedPool buy None = Return i).
  { intros e He.
    destruct (batchEffects_shaped env _ _ _ _ He)
      as (op & pool & pl & sd & i & _ & _ & Hpool & Hl & Hsh & _ & Hsd).
    destruct sd; [|now exists op, i].
    exfalso. destruct Hsd as (first & rest & tokens & tok & -> & Hb & Hn & Ht & _).
    destruct Hnone as [H|H].
    - apply Hb. exact (H first rest Hl).
    - rewrite (H pool tokens Hpool Hn) in Ht. exact Ht. }
  split.
  - intros d Hd. apply derivedOrders_effects in Hd. destruct Hd as (e & He & Hd).
    destruct (Hbuy e He) as (op & i & (_ & _ & Ho & _) & _).
    now destruct (Ho _ _ Hd) as (-> & _).
  - intros res Hres. rewrite save_results_effects in Hres.
    apply in_map_iff in Hres. destruct Hres as (e & <- & He).
    destruct (Hbuy e He) as (op & i & (_ & (k & ->) & _) & Hi). exact Hi.
Qed.

Lemma no_bid_or_no_inventory_no_sell_order_witness :
  getNfts plainEnv exampleNft allowedPool = Return []
  /\ map do_side (derivedOrders (save plainEnv [exampleEvent; exampleEvent] [])) = [buy; buy]
  /\ forall res, In res (saved_results (save plainEnv [exampleEvent; exampleEvent] [])) ->
       getOrderId allowedPool buy None = Return (res_id res).
Proof.
  split; [reflexivity|]. split; [vm_compute; reflexivity|].
  apply (no_bid_or_no_inventory_no_sell_order plainDigest plainEnv
           [exampleEvent; exampleEvent] []).
  right. intros pool tokens _ Hn. apply Return_inj in Hn. now subst tokens.
Defined.

Lemma Return_eq {A} (o : Outcome A) (a b : A) : o = Return a -> o = Return b -> a = b.
Proof. intros -> H. now apply Return_inj in H. Qed.

(** X8. The fee array of an event is one object both legs push to: a
    buy order [save] inserts is persisted with its own marketplace fee
    (the sell-direction bps, which is also its fee_bps) followed by the
    sell leg's fee (the buy-direction bps) whenever the first quote has
    a buy-direction price, because the row is serialised after the sell
    leg has pushed; a buy order it reprices carries its own fee alone,
    the update being sent before the sell leg runs. *)
Theorem buy_order_fee_breakdown
    (K : Keccak) (env : Env) (batch : list OrderParams) (t : Table) (d : DerivedOrder)
    (pool : NftPool) (first : PoolPrice) (rest : list PoolPrice)
    (Hd : In d (derivedOrders (save env batch t)))
    (Hside : do_side d = buy)
    (Hpool : getNftPoolDetails env allowedPool = Return (Some pool))
    (Hladder : getPoolPrices env allowedPool (seq 0 10) = Return (first :: rest)) :
  do_feeBps d = bps_sell first
  /\ do_feeBreakdown d
     = marketplace_fee pool (bps_sell first)
       :: (if do_created d
           then match pp_buy first with
                | Some _ => [marketplace_fee pool (bps_buy first)]
                | None => []
                end
           else []).
Proof.
  apply save_derives in Hd.
  destruct Hd as [pool' first' rest' value_ p roy top i Hp Hl Hs _ _ _ _
                 |pool' first' rest' value_ p roy top tokenId i _ _ _ _ _ _ _];
    [|discriminate Hside].
  pose proof (Return_eq _ _ _ Hp Hpool) as E. injection E as ->.
  pose proof (Return_eq _ _ _ Hl Hladder) as E. injection E as -> ->.
  cbn [do_feeBps do_feeBreakdown do_created].
  split; [reflexivity|].
  unfold eventEntries, buyFee, sellFee, fee_entries. rewrite Hs.
  destruct (negb (present (ids t) i)); [|reflexivity].
  destruct (pp_buy first); reflexivity.
Qed.

Lemma buy_order_fee_breakdown_witness :
  In royaltyBuyOrder (derivedOrders (save royaltyEnv [exampleEvent] []))
  /\ do_created royaltyBuyOrder = true
  /\ do_feeBps royaltyBuyOrder = 50
  /\ map fee_entry_bps (do_feeBreakdown royaltyBuyOrder) = [50; 30].
Proof.
  assert (Hin : In royaltyBuyOrder (derivedOrders (save royaltyEnv [exampleEvent] []))).
  { vm_compute. left. reflexivity. }
  destruct (buy_order_fee_breakdown plainDigest royaltyEnv [exampleEvent] [] royaltyBuyOrder
              examplePool (threeLevels 1) (map threeLevels (seq 2 9))
              Hin eq_refl eq_refl eq_refl) as [Hb Hf].
  split; [exact Hin|]. split; [reflexivity|]. split; [exact Hb|].
  rewrite Hf. reflexivity.
Defined.

Lemma validRecipients_none (roy : list Royalty) :
  (forall r, In r roy -> roy_bps r = 0 \/ roy_recipient r = AddressZero) ->
  validRecipients roy = [].
Proof.
  unfold validRecipients. induction roy as [|r roy IH]; intro H; [reflexivity|].
  cbn [filter]. rewrite IH by (intros r' Hr'; apply H; now right).
  destruct (H r (or_introl eq_refl)) as [E|E]; rewrite E.
  - reflexivity.
  - destruct (bytes_eqb_spec AddressZero AddressZero) as [_|N]; [|now elim N].
    now rewrite andb_false_r.
Qed.

Lemma royaltiesOnTop_no_recipient (price : option Z) (roy : list Royalty) :
  validRecipients roy = [] -> royaltiesOnTop price roy = Return ([], 0).
Proof.
  intro V. unfold royaltiesOnTop. rewrite V. now destruct (0 <? totalDefaultBps roy).
Qed.

(** X9. A royalty is put on top only for a recipient that can receive
    it: when every entry of the schedule of an order's collection has
    zero bps or the zero address as recipient, the order is written
    with no missing royalty and a normalised value equal to its value,
    however large the schedule's total. *)
Theorem no_valid_recipient_no_top_up
    (K : Keccak) (env : Env) (batch : list OrderParams) (t : Table) (d : DerivedOrder)
    (roy : list Royalty)
    (Hd : In d (derivedOrders (save env batch t)))
    (Hroy : getRoyaltiesByTokenSet env (do_collection d) = Return roy)
    (Hnone : forall r, In r roy -> roy_bps r = 0 \/ roy_recipient r = AddressZero) :
  do_missingRoyalties d = [] /\ do_normalizedValue d = do_value d.
Proof.
  apply save_derives in Hd. apply validRecipients_none in Hnone.
  destruct Hd as [pool first rest value_ p roy' top i _ _ _ _ Hr Ht _
                 |pool first rest value_ p roy' top tokenId i _ _ _ _ Hr Ht _];
    cbn in *; rewrite Hr in Hroy; injection Hroy as ->;
    rewrite (royaltiesOnTop_no_recipient (Some p) roy Hnone) in Ht; injection Ht as <-;
    cbn; (split; [reflexivity | lia]).
Qed.

Lemma no_valid_recipient_no_top_up_witness :
  In burnedBuyOrder (derivedOrders (save burnedEnv [exampleEvent] []))
  /\ getRoyaltiesByTokenSet burnedEnv (do_collection burnedBuyOrder) = Return burnedRoyalty
  /\ totalDefaultBps burnedRoyalty = 500
  /\ do_missingRoyalties burnedBuyOrder = []
  /\ do_normalizedValue burnedBuyOrder = do_value burnedBuyOrder.
Proof.
  assert (Hin : In burnedBuyOrder (derivedOrders (save burnedEnv [exampleEvent] []))).
  { vm_compute. left. reflexivity. }
  split; [exact Hin|]. split; [reflexivity|]. split; [reflexivity|].
  apply (no_valid_recipient_no_top_up plainDigest burnedEnv [exampleEvent] [] burnedBuyOrder
           burnedRoyalty Hin eq_refl).
  intros r [<-|[]]. right. reflexivity.
Defined.

(** Line 55 goes by the spelling: an event that spells even the
    allow-listed address otherwise (in upper-case hex, say) is skipped. *)
Lemma spelled_otherwise_not_prepared (env : Env) (op : OrderParams) :
  op_poolText op <> allowedPoolText ->
  forall pool pl, prepare env op <> Return (Some (pool, pl)).
Proof.
  intros Hne pool pl. unfold prepare, and_then.
  destruct (getNftPoolDetails env (op_pool op)) as [[p|]|]; try discriminate.
  destruct (String.eqb_spec (op_poolText op) allowedPoolText) as [E|_]; [now elim Hne|].
  discriminate.
Qed.

Lemma upper_case_pool_is_skipped :
  op_pool upperCaseEvent = allowedPool
  /\ save (K := plainDigest) royaltyEnv [upperCaseEvent] foundTable
     = {| saved_results := []; saved_orders := foundTable; saved_idb := [];
          saved_queue := [] |}.
Proof. split; vm_compute; reflexivity. Qed.

Lemma off_list_not_prepared (env : Env) (op : OrderParams) :
  op_pool op <> allowedPool ->
  forall pool pl, prepare env op <> Return (Some (pool, pl)).
Proof.
  intros Hne pool pl. unfold prepare, and_then.
  destruct (getNftPoolDetails env (op_pool op)) as [[p|]|]; try discriminate.
  destruct (String.eqb_spec (op_poolText op) allowedPoolText) as [E|_];
    [elim Hne; now apply op_pool_allowed|].
  discriminate.
Qed.

Lemma loop_off_list {K : Keccak} (env : Env) (batch : list OrderParams) (s : State) :
  (forall op, In op batch -> op_pool op <> allowedPool) ->
  for_of batch (handleOrder env) s = (Return tt, s).
Proof.
  revert s. induction batch as [|op batch IH]; intros s H; [reflexivity|].
  change (for_of (op :: batch) (handleOrder env) s)
    with (for_of batch (handleOrder env) (snd (handleOrder env op s))).
  rewrite event_contained by (apply off_list_not_prepared, H; now left).
  apply IH. intros op' Hop'. apply H. now right.
Qed.

(** X10. Events of pools other than the allow-listed one are ignored:
    a batch naming only such pools returns no result, sends no
    statement, queues nothing and leaves the table as it was, whether
    the pool-details lookup answers for them or fails. *)
Theorem other_pools_are_ignored
    (K : Keccak) (env : Env) (batch : list OrderParams) (t : Table)
    (Hother : forall op, In op batch -> op_pool op <> allowedPool) :
  save env batch t
  = {| saved_results := []; saved_orders := t; saved_idb := []; saved_queue := [] |}.
Proof.
  unfold save, save_state, bind. rewrite (loop_off_list env batch (initial t) Hother).
  reflexivity.
Qed.

Lemma other_pools_are_ignored_witness :
  op_pool unknownPoolEvent <> allowedPool
  /\ saved_orders (save flakyEnv [unknownPoolEvent; unknownPoolEvent] foundTable) = foundTable
  /\ saved_orders (save royaltyEnv [unknownPoolEvent] foundTable) = foundTable.
Proof.
  assert (H : op_pool unknownPoolEvent <> allowedPool) by discriminate.
  split; [exact H|]. split.
  - rewrite (other_pools_are_ignored plainDigest flakyEnv
               [unknownPoolEvent; unknownPoolEvent] foundTable); [reflexivity|].
    intros op [<-|[<-|[]]]; exact H.
  - rewrite (other_pools_are_ignored plainDigest royaltyEnv [unknownPoolEvent] foundTable);
      [reflexivity|].
    intros op [<-|[]]; exact H.
Defined.

Lemma getPoolPrices_throws (env : Env) (pool : Address) (indices : list nat) (index : nat) :
  In index indices -> getPoolPrice env pool (index + 1) = Throw ->
  getPoolPrices env pool indices = Throw.
Proof.
  induction indices as [|j indices IH]; intros Hin Hf; [contradiction|].
  cbn [getPoolPrices]. destruct Hin as [->|Hin].
  - now rewrite Hf.
  - destruct (getPoolPrice env pool (j + 1)); [|reflexivity].
    now rewrite IH.
Qed.

Lemma getPoolPrices_length (env : Env) (pool : Address) (indices : list nat) :
  forall pl, getPoolPrices env pool indices = Return pl -> List.length pl = List.length indices.
Proof.
  induction indices as [|j indices IH]; intros pl H; cbn [getPoolPrices] in H.
  - apply Return_inj in H. now subst pl.
  - destruct (getPoolPrice env pool (j + 1)); [|discriminate].
    destruct (getPoolPrices env pool indices) as [pl'|]; [|discriminate].
    apply Return_inj in H. subst pl. cbn [List.length]. f_equal. now apply IH.
Qed.



Lemma rawSells_length (pl : list PoolPrice) :
  (List.length (rawSells pl) <= List.length pl)%nat.
Proof.
  unfold rawSells. induction pl as [|q pl IH]; [apply le_n|].
  cbn [flat_map List.length]. rewrite length_app.
  destruct (raw_sell q); cbn [List.length]; lia.
Qed.

(** X12. Every order [save] writes has a quantity between 1 and 10: a
    sell order is for its one token, a buy order for as many items as
    quotes of the ladder carry a sell-direction raw price, of which
    there is at least one (the order's price) and at most the ten the
    ladder asks for. *)
Theorem quantity_is_between_1_and_10
    (K : Keccak) (env : Env) (batch : list OrderParams) (t : Table) (d : DerivedOrder)
    (Hd : In d (derivedOrders (save env batch t))) :
  (1 <= do_quantityRemaining d <= 10)%N
  /\ (do_side d = sell -> do_quantityRemaining d = 1%N).
Proof.
  apply save_derives in Hd.
  destruct Hd as [pool first rest value_ p roy top i _ Hl _ Hp _ _ _
                 |pool first rest value_ p roy top tokenId i _ _ _ _ _ _ _];
    cbn [do_quantityRemaining do_side].
  - split; [|discriminate].
    pose proof (getPoolPrices_length env allowedPool (seq 0 10) _ Hl) as L.
    rewrite length_seq in L.
    pose proof (rawSells_length (first :: rest)) as R.
    destruct (rawSells (first :: rest)) as [|x xs]; [discriminate Hp|].
    cbn [List.length] in *. lia.
  - split; [lia | reflexivity].
Qed.

Lemma quantity_is_between_1_and_10_witness :
  In royaltyBuyOrder (derivedOrders (save royaltyEnv [exampleEvent] []))
  /\ do_quantityRemaining royaltyBuyOrder = 3%N
  /\ (1 <= do_quantityRemaining royaltyBuyOrder <= 10)%N.
Proof.
  assert (Hin : In royaltyBuyOrder (derivedOrders (save royaltyEnv [exampleEvent] []))).
  { vm_compute. left. reflexivity. }
  split; [exact Hin|]. split; [reflexivity|].
  exact (proj1 (quantity_is_between_1_and_10 plainDigest royaltyEnv [exampleEvent] []
                  royaltyBuyOrder Hin)).
Defined.

Lemma rawBuys_first (ladder : list PoolPrice) (p : Z) :
  hd_error (rawBuys ladder) = Some p -> first_buy_raw ladder p.
Proof.
  unfold rawBuys, first_buy_raw.
  induction ladder as [|q ladder IH]; [discriminate|].
  cbn [flat_map]. destruct (raw_buy q) as [p'|] eqn:E.
  - cbn [app hd_error]. intro H. injection H as ->.
    exists [], q, ladder. split; [reflexivity|]. split; [constructor | exact E].
  - cbn [app]. intro H. destruct (IH H) as (before & q' & after & -> & Hb & Hq).
    exists (q :: before), q', after. split; [reflexivity|].
    split; [constructor; assumption | exact Hq].
Qed.

(** X13. Every sell order is priced from the buy direction of the
    ladder, whatever its token: the quotes for one to ten items being
    the ladder, a sell order [save] writes has as value the first
    entry's buy-direction price, as price the first buy-direction raw
    price of the ladder in ladder order (the first entry's when the
    first entry carries one), as fee bps the first entry's
    buy-direction bps, and quantity 1. *)
Theorem sell_order_price_and_value
    (K : Keccak) (env : Env) (batch : list OrderParams) (t : Table) (d : DerivedOrder)
    (quote : nat -> PoolPrice)
    (Hquotes : forall amount, (1 <= amount <= 10)%nat ->
                 getPoolPrice env allowedPool amount = Return (quote amount))
    (Hd : In d (derivedOrders (save env batch t)))
    (Hside : do_side d = sell) :
  let ladder := map quote (seq 1 10) in
  pp_buy (quote 1%nat) = Some (do_value d)
  /\ first_buy_raw ladder (do_price d)
  /\ (forall p1, raw_buy (quote 1%nat) = Some p1 -> do_price d = p1)
  /\ do_feeBps d = bps_buy (quote 1%nat)
  /\ do_quantityRemaining d = 1%N.
Proof.
  cbv zeta. pose proof (ladder_of_quotes env allowedPool quote Hquotes) as Hladder.
  apply save_derives in Hd.
  destruct Hd as [pool first rest value_ p roy top i _ _ _ _ _ _ _
                 |pool first rest value_ p roy top tokenId i _ Hl Hb Hq _ _ _];
    [discriminate Hside|].
  rewrite Hl in Hladder. apply Return_inj in Hladder.
  cbn [do_value do_price do_feeBps do_quantityRemaining].
  assert (Hfirst : first = quote 1%nat).
  { change (map quote (seq 1 10)) with (quote 1%nat :: map quote (seq 2 9)) in Hladder.
    now injection Hladder. }
  rewrite <- Hladder, <- Hfirst. split; [exact Hb|].
  split; [now apply rawBuys_first|]. split; [|split; reflexivity].
  intros p1 Hp1. unfold rawBuys in Hq. cbn [flat_map] in Hq. rewrite Hp1 in Hq.
  cbn [app hd_error] in Hq. congruence.
Qed.

Lemma sell_order_price_and_value_witness :
  In royaltySellOrder (derivedOrders (save royaltyEnv [exampleEvent] []))
  /\ do_side royaltySellOrder = sell
  /\ pp_buy (threeLevels 1) = Some (do_value royaltySellOrder)
  /\ do_price royaltySellOrder = 10000
  /\ do_value royaltySellOrder = 10200
  /\ do_feeBps royaltySellOrder = 30.
Proof.
  assert (Hq : forall amount, (1 <= amount <= 10)%nat ->
                 getPoolPrice royaltyEnv allowedPool amount = Return (threeLevels amount))
    by reflexivity.
  assert (Hin : In royaltySellOrder (derivedOrders (save royaltyEnv [exampleEvent] []))).
  { vm_compute. right. left. reflexivity. }
  destruct (sell_order_price_and_value plainDigest royaltyEnv [exampleEvent] []
              royaltySellOrder threeLevels Hq Hin eq_refl) as (Hv & _ & Hp & Hf & _).
  split; [exact Hin|]. split; [reflexivity|]. split; [exact Hv|].
  split; [exact (Hp 10000 eq_refl)|]. split; [reflexivity | exact Hf].
Defined.

(** ** The rows of the bulk insert *)

Lemma require_tokenSetId_inv (saved : option string) (ts : string) :
  require_tokenSetId saved = Return ts -> saved = Some ts /\ ts <> EmptyString.
Proof.
  unfold require_tokenSetId. destruct saved as [s|]; [|discriminate].
  destruct (String.eqb_spec s EmptyString) as [E|N]; [discriminate|].
  intro H. apply Return_inj in H. subst s. now split.
Qed.

Section InsertedRows.
Context {K : Keccak}.
Variable env : Env.

Lemma buyPlan_row l ref entries op pool pl row r :
  buyPlan env l ref entries op pool pl = Return (Buffered row r) ->
  side row = buy /\ kind row = "nftx"%string /\ approval_status row = "approved"%string
  /\ taker row = AddressZero /\ token_set_id row <> EmptyString
  /\ present l (id row) = false
  /\ maker row = pool_address pool /\ contract row = pool_nft pool
  /\ valid_from (valid_between row) = op_txTimestamp op
  /\ contractWide_save env (pool_nft pool) = Return (Some (token_set_id row)).
Proof.
  unfold buyPlan, and_then. destruct pl as [|first rest]; [discriminate|].
  destruct (getOrderId (op_pool op) buy None) as [i|]; [|discriminate].
  destruct (pp_sell first); [|discriminate].
  destruct (getRoyaltiesByTokenSet env (pool_nft pool)); [|discriminate].
  destruct (royaltiesOnTop _ _); [|discriminate].
  destruct (toString _); [|discriminate].
  destruct (present l i) eqn:P; cbn [negb]; [discriminate|].
  destruct (contractWide_save env (pool_nft pool)) as [saved|]; [|discriminate].
  destruct (require_tokenSetId saved) as [ts|] eqn:T; [|discriminate].
  destruct (sources_getOrInsert env); [|discriminate].
  apply require_tokenSetId_inv in T. destruct T as [-> Hts].
  intro E. apply Return_inj in E. injection E as <- _.
  cbn. repeat split; try assumption.
Qed.

Lemma itemPlan_row l bps ref entries op pool cur prices price_ value_ mr nv t row r :
  itemPlan env l bps ref entries op pool cur prices price_ value_ mr nv t
  = Return (Buffered row r) ->
  side row = sell /\ kind row = "nftx"%string /\ approval_status row = "approved"%string
  /\ taker row = AddressZero /\ token_set_id row <> EmptyString
  /\ present l (id row) = false
  /\ maker row = pool_address pool /\ contract row = pool_nft pool
  /\ valid_from (valid_between row) = op_txTimestamp op
  /\ sdk_specificIds (raw_data row) = [t]
  /\ singleToken_save env (pool_nft pool) t = Return (Some (token_set_id row)).
Proof.
  unfold itemPlan, and_then.
  destruct (getOrderId (op_pool op) sell (Some t)) as [i|]; [|discriminate].
  destruct (toString _); [|discriminate].
  destruct (present l i) eqn:P; cbn [negb]; [discriminate|].
  destruct (singleToken_save env (pool_nft pool) t) as [saved|]; [|discriminate].
  destruct (require_tokenSetId saved) as [ts|] eqn:T; [|discriminate].
  destruct (sources_getOrInsert env); [|discriminate].
  apply require_tokenSetId_inv in T. destruct T as [-> Hts].
  intro E. apply Return_inj in E. injection E as <- _.
  cbn. repeat split; try assumption.
Qed.

Lemma insert_is_the_flush (batch : list OrderParams) (t : Table) (rows : list Row) :
  In (InsertOnConflictDoNothing rows) (saved_idb (save env batch t)) ->
  rows = flushed_rows env (ids t) batch.
Proof.
  destruct (save_spec env batch t) as (_ & -> & _). intro H.
  apply in_app_or in H. destruct H as [H|H].
  - pose proof (sent_updates (batchEffects_updates_only env batch (ids t) 0%nat)) as U.
    rewrite Forall_forall in U. elim (U _ H).
  - destruct (flushed_rows env (ids t) batch) as [|r0 rows0]; [contradiction|].
    destruct H as [H|[]]. now injection H as <-.
Qed.

End InsertedRows.

(** X14. Every row of the bulk insert is a fresh order of the pool with
    a token set behind it: its identity was not in the table when the
    batch began; it is an approved nftx order with the zero address as
    taker, made by the pool on the pool's collection, valid from the
    transaction time of an event of the batch; and its token set id is
    the non-empty id the token-set save returned, contract-wide for a
    buy order and for the order's one token for a sell order. *)
Theorem inserted_rows_are_fresh_pool_orders
    (K : Keccak) (env : Env) (batch : list OrderParams) (t : Table)
    (rows : list Row) (r : Row)
    (Hst : In (InsertOnConflictDoNothing rows) (saved_idb (save env batch t)))
    (Hr : In r rows) :
  present (ids t) (id r) = false
  /\ kind r = "nftx"%string /\ approval_status r = "approved"%string
  /\ taker r = AddressZero /\ token_set_id r <> EmptyString
  /\ exists pool op,
       In op batch
       /\ getNftPoolDetails env allowedPool = Return (Some pool)
       /\ maker r = pool_address pool /\ contract r = pool_nft pool
       /\ valid_from (valid_between r) = op_txTimestamp op
       /\ match side r with
          | buy => contractWide_save env (pool_nft pool) = Return (Some (token_set_id r))
          | sell =>
              exists tokenId,
                sdk_specificIds (raw_data r) = [tokenId]
                /\ singleToken_save env (pool_nft pool) tokenId
                   = Return (Some (token_set_id r))
          end.
Proof.
  apply insert_is_the_flush in Hst. subst rows.
  unfold flushed_rows in Hr. apply in_map_iff in Hr. destruct Hr as (row & <- & Hrow).
  apply in_buffered in Hrow. destruct Hrow as (res & He).
  apply in_batchEffects in He. destruct He as (op & pool & pl & k & Hop & Hp & He & _).
  destruct (prepare_inv env op Hp) as (_ & Hpool & _).
  apply legEffects_cases in He. cbn [serialise id kind approval_status taker token_set_id
    maker contract valid_between side raw_data].
  destruct He as [Hb|(first & rest & value_ & roy & top & tokens & tok & _ & _ & _ & _ & _ & _ & Hi)].
  - destruct (buyPlan_row env _ _ _ _ _ _ _ _ Hb)
      as (Hs & Hk & Ha & Ht & Hts & Hpr & Hm & Hc & Hv & Hsave).
    repeat (split; [assumption|]). exists pool, op.
    repeat (split; [assumption|]). rewrite Hs. exact Hsave.
  - destruct (itemPlan_row env _ _ _ _ _ _ _ _ _ _ _ _ _ _ _ Hi)
      as (Hs & Hk & Ha & Ht & Hts & Hpr & Hm & Hc & Hv & Hids & Hsave).
    repeat (split; [assumption|]). exists pool, op.
    repeat (split; [assumption|]). rewrite Hs. exists tok. now split.
Qed.

Lemma inserted_rows_are_fresh_pool_orders_witness :
  In (InsertOnConflictDoNothing exampleInsert) (saved_idb (save royaltyEnv [exampleEvent] []))
  /\ In (nth 1 exampleInsert foreignRow) exampleInsert
  /\ side (nth 1 exampleInsert foreignRow) = sell
  /\ token_set_id (nth 1 exampleInsert foreignRow) = "token:0x1111:1"%string
  /\ maker (nth 1 exampleInsert foreignRow) = allowedPool
  /\ token_set_id (nth 1 exampleInsert foreignRow) <> EmptyString.
Proof.
  assert (Hst : In (InsertOnConflictDoNothing exampleInsert)
                   (saved_idb (save royaltyEnv [exampleEvent] []))).
  { vm_compute. left. reflexivity. }
  assert (Hr : In (nth 1 exampleInsert foreignRow) exampleInsert).
  { vm_compute. right. left. reflexivity. }
  destruct (inserted_rows_are_fresh_pool_orders plainDigest royaltyEnv [exampleEvent] []
              exampleInsert (nth 1 exampleInsert foreignRow) Hst Hr)
    as (_ & _ & _ & _ & Hts & _).
  split; [exact Hst|]. split; [exact Hr|]. split; [reflexivity|]. split; [reflexivity|].
  split; [reflexivity | exact Hts].
Defined.

(** ** A batch and its events *)

Section Composition.
Context {K : Keccak}.
Variable env : Env.

Lemma buyPlan_result_ref l ref ref' entries op pool pl :
  map effect_result (caught (buyPlan env l ref entries op pool pl) (fun e => [e]))
  = map effect_result (caught (buyPlan env l ref' entries op pool pl) (fun e => [e])).
Proof.
  unfold buyPlan, and_then. destruct pl as [|first rest]; [reflexivity|].
  destruct (getOrderId (op_pool op) buy None) as [i|]; [|reflexivity].
  destruct (pp_sell first); [|reflexivity].
  destruct (getRoyaltiesByTokenSet env (pool_nft pool)); [|reflexivity].
  destruct (royaltiesOnTop _ _); [|reflexivity].
  destruct (toString _); [|reflexivity].
  destruct (negb (present l i)); [|reflexivity].
  destruct (contractWide_save env (pool_nft pool)); [|reflexivity].
  destruct (require_tokenSetId _); [|reflexivity].
  destruct (sources_getOrInsert env); reflexivity.
Qed.

Lemma itemPlan_result_ref l bps ref ref' entries op pool cur prices price_ value_ mr nv t :
  map effect_result
      (caught (itemPlan env l bps ref entries op pool cur prices price_ value_ mr nv t)
              (fun e => [e]))
  = map effect_result
      (caught (itemPlan env l bps ref' entries op pool cur prices price_ value_ mr nv t)
              (fun e => [e])).
Proof.
  unfold itemPlan, and_then.
  destruct (getOrderId (op_pool op) sell (Some t)) as [i|]; [|reflexivity].
  destruct (toString _); [|reflexivity].
  destruct (negb (present l i)); [|reflexivity].
  destruct (singleToken_save env (pool_nft pool) t); [|reflexivity].
  destruct (require_tokenSetId _); [|reflexivity].
  destruct (sources_getOrInsert env); reflexivity.
Qed.

Lemma map_flat_map {A B C} (g : B -> C) (f : A -> list B) (l : list A) :
  map g (flat_map f l) = flat_map (fun a => map g (f a)) l.
Proof.
  induction l as [|a l IH]; [reflexivity|]. cbn [flat_map]. now rewrite map_app, IH.
Qed.

Lemma sellPlan_result_ref l ref ref' entries op pool pl :
  map effect_result (caught (sellPlan env l ref entries op pool pl) (fun es => es))
  = map effect_result (caught (sellPlan env l ref' entries op pool pl) (fun es => es)).
Proof.
  unfold sellPlan, and_then. destruct pl as [|first rest]; [reflexivity|].
  destruct (pp_buy first); [|reflexivity].
  destruct (getRoyaltiesByTokenSet env (pool_nft pool)); [|reflexivity].
  destruct (royaltiesOnTop _ _); [|reflexivity].
  destruct (getNfts env (pool_nft pool) (pool_address pool)) as [tokens|]; [|reflexivity].
  cbn [caught]. rewrite !map_flat_map. apply flat_map_ext. intro tok.
  apply itemPlan_result_ref.
Qed.

Lemma legEffects_result_ref l ref ref' op pool pl :
  map effect_result (legEffects env l ref op pool pl)
  = map effect_result (legEffects env l ref' op pool pl).
Proof.
  unfold legEffects. cbv zeta. rewrite !map_app.
  now rewrite (buyPlan_result_ref l ref ref'), (sellPlan_result_ref l ref ref').
Qed.

Lemma batch_results l (batch : list OrderParams) :
  forall ref,
    map effect_result (batchEffects env l ref batch)
    = flat_map (fun op => map effect_result (batchEffects env l 0%nat [op])) batch.
Proof.
  unfold batchEffects.
  induction batch as [|op batch IH]; intro ref; [reflexivity|].
  cbn [batchPlans flat_map]. unfold eventPlan.
  destruct (prepare env op) as [[[pool pl]|]|].
  - cbn [flat_map snd]. rewrite !map_app, app_nil_r, IH. f_equal.
    apply legEffects_result_ref.
  - cbn [flat_map map app]. apply IH.
  - cbn [flat_map map app]. apply IH.
Qed.

End Composition.

(** X15. Up to their order, the results of a batch are the results of
    its events, each handled alone against the table as the batch found
    it (the oracles answering alike): no event sees in the table what
    another event of the batch wrote, since the updates change no
    identity and the new rows wait for the flush. *)
Theorem batch_results_are_those_of_its_events
    (K : Keccak) (env : Env) (batch : list OrderParams) (t : Table) :
  Permutation (saved_results (save env batch t))
              (flat_map (fun op => saved_results (save env [op] t)) batch).
Proof.
  rewrite save_results_effects, batch_results.
  rewrite (flat_map_ext _ (fun op => saved_results (save env [op] t))).
  - apply Permutation_refl.
  - intro op. now rewrite save_results_effects.
Qed.

(** ** The table and the orders written *)

Section Holds.
Context {K : Keccak}.

Lemma row_step_holds (D : list DerivedOrder) (r : Row) (st : IdbStatement) :
  is_repricing st ->
  (forall d, In d (derived st) -> In d D) ->
  ((exists d, In d D /\ holds r d) \/ statement_id st = Some (id r)) ->
  exists d, In d D /\ holds (row_step r st) d.
Proof.
  intros Hrep HD H. destruct st as [ts u|ts u|ts i|rows]; simpl in Hrep; try contradiction.
  - cbn [row_step]. destruct (digest_eqb_spec (id r) (u_id u)) as [E|E].
    + exists (derived_of_update buy (u_quantityRemaining u) u).
      split; [apply HD; now left|]. unfold holds. cbn. repeat split; assumption.
    + destruct H as [H|H]; [exact H|]. cbn in H. congruence.
  - cbn [row_step]. destruct (digest_eqb_spec (id r) (u_id u)) as [E|E].
    + exists (derived_of_update sell 1%N u).
      split; [apply HD; now left|]. unfold holds. cbn. repeat split; assumption.
    + destruct H as [H|H]; [exact H|]. cbn in H. congruence.
Qed.

Lemma run_row_holds (D : list DerivedOrder) (sts : list IdbStatement) :
  forall r : Row,
    Forall is_repricing sts ->
    (forall st d, In st sts -> In d (derived st) -> In d D) ->
    ((exists d, In d D /\ holds r d)
     \/ exists st, In st sts /\ statement_id st = Some (id r)) ->
    exists d, In d D /\ holds (run_row sts r) d.
Proof.
  induction sts as [|st sts IH]; intros r Hrep HD H.
  - destruct H as [H|(st & [] & _)]. exact H.
  - inversion Hrep; subst. unfold run_row. simpl. apply IH.
    + assumption.
    + intros st' d Hst'. apply HD. now right.
    + destruct H as [H|(st' & [<-|Hin] & Hid)].
      * left. apply row_step_holds; auto. intros d. apply HD. now left.
      * left. apply row_step_holds; auto. intros d. apply HD. now left.
      * right. exists st'. split; [assumption|]. now rewrite row_step_id.
Qed.

End Holds.

(** X16. What [save] writes reaches the table: while the pool quotes a
    sell-direction price, every row that a result of the batch names
    holds, when [save] is done, an order the batch wrote (a row of its
    bulk insert or the parameters of one of its repricing updates): the
    row's price, value, normalised value, quantity, fee bps, fee
    breakdown and missing royalties are that order's. *)
Theorem named_rows_hold_written_orders
    (K : Keccak) (env : Env) (batch : list OrderParams) (t : Table)
    (first : PoolPrice) (rest : list PoolPrice) (v : Z) (res : SaveResult) (r : Row)
    (Hladder : getPoolPrices env allowedPool (seq 0 10) = Return (first :: rest))
    (Hsell : pp_sell first = Some v)
    (Hres : In res (saved_results (save env batch t)))
    (Hr : In r (saved_orders (save env batch t)))
    (Hid : id r = res_id res) :
  exists d, In d (derivedOrders (save env batch t)) /\ holds r d.
Proof.
  rewrite save_rows in Hr. rewrite save_results_effects in Hres.
  apply in_map_iff in Hres. destruct Hres as (e & <- & He).
  assert (Hrep : Forall is_repricing (sent (batchEffects env (ids t) 0%nat batch))).
  { apply Forall_forall. intros st Hst. apply in_sent in Hst. destruct Hst as (res' & He').
    destruct (batchEffects_shaped env _ _ _ _ He')
      as (op & pool & pl & sd & i & _ & _ & _ & Hl & _ & Hrp & _).
    rewrite Hladder in Hl. injection Hl as <-.
    apply (Hrp first rest st res' eq_refl); [congruence | reflexivity]. }
  unfold derivedOrders. destruct (save_spec env batch t) as (_ & -> & _).
  apply in_app_or in Hr. destruct Hr as [Hr|Hr].
  - apply in_map_iff in Hr. destruct Hr as (r0 & <- & Hr0).
    rewrite run_row_id in Hid.
    apply run_row_holds; [exact Hrep| |].
    + intros st d Hst Hd. apply in_flat_map. exists st. split; [|exact Hd].
      apply in_or_app. now left.
    + right.
      destruct (batchEffects_shaped env _ _ _ _ He)
        as (op & pool & pl & sd & i & _ & _ & _ & _ & (Hei & (k & Hk) & _) & _).
      rewrite Hk in Hid. simpl in Hid.
      destruct e as [row res|st res].
      * exfalso. pose proof (batchEffects_well_tagged env (ids t) 0%nat batch) as W.
        rewrite Forall_forall in W. destruct (W _ He) as (Habs & _).
        apply present_false in Habs. apply Habs.
        simpl in Hei. injection Hei as ->. rewrite <- Hid. unfold ids. now apply in_map.
      * exists st. split; [eapply in_sent_intro; eassumption|]. simpl in Hei. congruence.
  - apply kept_rows_in in Hr. exists (derived_of_row r). split.
    + apply in_flat_map.
      destruct (flushed_rows env (ids t) batch) as [|r0 rows0] eqn:E; [contradiction|].
      exists (InsertOnConflictDoNothing (r0 :: rows0)). split.
      * apply in_or_app. right. now left.
      * cbn [derived]. now apply in_map.
    + unfold holds. cbn. repeat split.
Qed.

Lemma named_rows_hold_written_orders_witness :
  In revivedResult (saved_results (save royaltyEnv [exampleEvent] foundTable))
  /\ In revivedRow (saved_orders (save royaltyEnv [exampleEvent] foundTable))
  /\ id revivedRow = res_id revivedResult
  /\ price cancelledBuyRow = 9000
  /\ price revivedRow = 10000
  /\ exists d, In d (derivedOrders (save royaltyEnv [exampleEvent] foundTable))
               /\ holds revivedRow d.
Proof.
  assert (H1 : In revivedResult (saved_results (save royaltyEnv [exampleEvent] foundTable))).
  { vm_compute. left. reflexivity. }
  assert (H2 : In revivedRow (saved_orders (save royaltyEnv [exampleEvent] foundTable))).
  { vm_compute. left. reflexivity. }
  split; [exact H1|]. split; [exact H2|]. split; [reflexivity|].
  split; [reflexivity|]. split; [reflexivity|].
  exact (named_rows_hold_written_orders plainDigest royaltyEnv [exampleEvent] foundTable
           (threeLevels 1) (map threeLevels (seq 2 9)) 9800 revivedResult revivedRow
           eq_refl eq_refl H1 H2 eq_refl).
Defined.

(** ** Every order that can be reconciled is *)

Lemma royaltiesOnTop_returns (p : Z) (roy : list Royalty) :
  totalDefaultBps roy < MAX_SAFE ->
  exists top, royaltiesOnTop (Some p) roy = Return top.
Proof.
  intro Hsafe. unfold royaltiesOnTop.
  destruct (0 <? totalDefaultBps roy) eqn:E; [|eexists; reflexivity].
  destruct (validRecipients roy); [eexists; reflexivity|].
  apply Z.ltb_lt in E. rewrite Z.sub_0_r.
  assert (S : safe_number (totalDefaultBps roy) = true).
  { unfold safe_number. apply negb_true_iff, orb_false_iff.
    split; apply Z.leb_gt; [exact Hsafe|]. unfold MAX_SAFE. lia. }
  rewrite S. eexists; reflexivity.
Qed.

Lemma require_tokenSetId_some (ts : string) :
  ts <> EmptyString -> require_tokenSetId (Some ts) = Return ts.
Proof.
  intro H. unfold require_tokenSetId.
  destruct (String.eqb_spec ts EmptyString) as [E|_]; [now elim H | reflexivity].
Qed.

Section Reconciled.
Context {K : Keccak}.
Variable env : Env.

Lemma prepare_allowed (op : OrderParams) (pool : NftPool) (pl : list PoolPrice) :
  op_poolText op = allowedPoolText ->
  getNftPoolDetails env allowedPool = Return (Some pool) ->
  getPoolPrices env allowedPool (seq 0 10) = Return pl ->
  prepare env op = Return (Some (pool, pl)).
Proof.
  intros Ho Hp Hl. unfold prepare, and_then.
  rewrite (op_pool_allowed op Ho), Hp, Ho, String.eqb_refl. cbn [negb]. now rewrite Hl.
Qed.

(** A result of an event of the batch, prepared, is a result of the batch. *)
Lemma event_result_in_batch (batch : list OrderParams) (t : Table) (op : OrderParams)
    (pool : NftPool) (pl : list PoolPrice) (res : SaveResult) :
  In op batch ->
  prepare env op = Return (Some (pool, pl)) ->
  In res (map effect_result (legEffects env (ids t) 0%nat op pool pl)) ->
  In res (saved_results (save env batch t)).
Proof.
  intros Hop Hp Hres. rewrite save_results_effects, batch_results.
  apply in_flat_map. exists op. split; [exact Hop|].
  unfold batchEffects. cbn [batchPlans]. unfold eventPlan. rewrite Hp.
  cbn [flat_map snd]. now rewrite app_nil_r.
Qed.

End Reconciled.

(** X17. No token of the inventory is skipped: for an event of the
    batch that spells the pool as the allow-list does and whose quotes
    arrived, when the first quote has a buy-direction price, the ladder
    a buy-direction raw price, the royalty and inventory lookups answer
    and the royalty schedule sums to less than [2^53 - 1] bps, every
    token the inventory lookup returned gets a result for its sell
    identity with the event's transaction hash, tagged reprice when the
    table held the identity before the batch, and new-order otherwise
    provided the token-set save returns a non-empty id and the source
    lookup answers; what happens to the buy leg or to the other tokens
    does not matter. *)
Theorem every_inventory_token_is_reconciled
    (K : Keccak) (env : Env) (batch : list OrderParams) (t : Table) (op : OrderParams)
    (pool : NftPool) (first : PoolPrice) (rest : list PoolPrice) (v p : Z)
    (roy : list Royalty) (tokens : list TokenId) (tokenId : TokenId) (i : Digest)
    (Hop : In op batch)
    (Hallowed : op_poolText op = allowedPoolText)
    (Hpool : getNftPoolDetails env allowedPool = Return (Some pool))
    (Hladder : getPoolPrices env allowedPool (seq 0 10) = Return (first :: rest))
    (Hbuy : pp_buy first = Some v)
    (Hraw : hd_error (rawBuys (first :: rest)) = Some p)
    (Hroy : getRoyaltiesByTokenSet env (pool_nft pool) = Return roy)
    (Hsafe : totalDefaultBps roy < MAX_SAFE)
    (Hnfts : getNfts env (pool_nft pool) (pool_address pool) = Return tokens)
    (Htoken : In tokenId tokens)
    (Hid : getOrderId allowedPool sell (Some tokenId) = Return i)
    (Hnew : present (ids t) i = false ->
            exists ts source,
              singleToken_save env (pool_nft pool) tokenId = Return (Some ts)
              /\ ts <> EmptyString
              /\ sources_getOrInsert env = Return source) :
  exists res,
    In res (saved_results (save env batch t))
    /\ res_id res = i
    /\ res_txHash res = op_txHash op
    /\ res_status res = "success"%string
    /\ res_triggerKind res = Some (if present (ids t) i then reprice else new_order).
Proof.
  exists (success i op (if present (ids t) i then reprice else new_order)).
  split; [|repeat split].
  apply (event_result_in_batch env batch t op pool (first :: rest)); [exact Hop| |].
  { now apply prepare_allowed. }
  unfold legEffects. cbv zeta. rewrite map_app. apply in_or_app. right.
  unfold sellPlan, and_then. rewrite Hbuy, Hroy, Hraw.
  destruct (royaltiesOnTop_returns p roy Hsafe) as [top ->]. rewrite Hnfts.
  cbn [caught]. rewrite map_flat_map. apply in_flat_map. exists tokenId.
  split; [exact Htoken|].
  unfold itemPlan, and_then. rewrite (op_pool_allowed op Hallowed), Hid. cbn [toString].
  destruct (present (ids t) i) eqn:P; cbn [negb].
  - left. reflexivity.
  - destruct (Hnew eq_refl) as (ts & source & -> & Hts & ->).
    rewrite (require_tokenSetId_some ts Hts). left. reflexivity.
Qed.

Lemma every_inventory_token_is_reconciled_witness :
  getNfts flakyEnv exampleNft allowedPool = Return [1%N; 2%N; 3%N]
  /\ singleToken_save flakyEnv exampleNft 2%N = Throw
  /\ totalDefaultBps fivePercent = 500
  /\ exists res,
       In res (saved_results (save flakyEnv [unknownPoolEvent; exampleEvent] []))
       /\ res_id res = list_byte_of_string "nftx" ++ allowedPool
                       ++ list_byte_of_string "sell" ++ be_bytes 32 3%N ++ []
       /\ res_txHash res = "0xabc"%string
       /\ res_status res = "success"%string
       /\ res_triggerKind res = Some new_order.
Proof.
  split; [reflexivity|]. split; [reflexivity|]. split; [reflexivity|].
  apply (every_inventory_token_is_reconciled plainDigest flakyEnv
           [unknownPoolEvent; exampleEvent] [] exampleEvent examplePool
           (threeLevels 1) (map threeLevels (seq 2 9)) 10200 10000 fivePercent
           [1%N; 2%N; 3%N] 3%N
           (list_byte_of_string "nftx" ++ allowedPool ++ list_byte_of_string "sell"
            ++ be_bytes 32 3%N ++ []));
    try reflexivity.
  - right. left. reflexivity.
  - right. right. left. reflexivity.
  - intros _. exists "token"%string, (Some 5). split; [reflexivity|].
    split; [discriminate | reflexivity].
Defined.

(** X18. The buy order is reconciled whenever it can be: for an event
    of the batch that spells the pool as the allow-list does and whose
    quotes arrived, when the first quote has a sell-direction price, the
    ladder a sell-direction raw price, the royalty lookup answers and
    the royalty schedule sums to less than [2^53 - 1] bps, the batch has
    a result for the pool's buy identity with the event's transaction
    hash, tagged reprice when the table held the identity before the
    batch, and new-order otherwise provided the contract-wide token-set
    save returns a non-empty id and the source lookup answers. *)
Theorem buy_order_is_reconciled
    (K : Keccak) (env : Env) (batch : list OrderParams) (t : Table) (op : OrderParams)
    (pool : NftPool) (first : PoolPrice) (rest : list PoolPrice) (v p : Z)
    (roy : list Royalty) (i : Digest)
    (Hop : In op batch)
    (Hallowed : op_poolText op = allowedPoolText)
    (Hpool : getNftPoolDetails env allowedPool = Return (Some pool))
    (Hladder : getPoolPrices env allowedPool (seq 0 10) = Return (first :: rest))
    (Hsell : pp_sell first = Some v)
    (Hraw : hd_error (rawSells (first :: rest)) = Some p)
    (Hroy : getRoyaltiesByTokenSet env (pool_nft pool) = Return roy)
    (Hsafe : totalDefaultBps roy < MAX_SAFE)
    (Hid : getOrderId allowedPool buy None = Return i)
    (Hnew : present (ids t) i = false ->
            exists ts source,
              contractWide_save env (pool_nft pool) = Return (Some ts)
              /\ ts <> EmptyString
              /\ sources_getOrInsert env = Return source) :
  exists res,
    In res (saved_results (save env batch t))
    /\ res_id res = i
    /\ res_txHash res = op_txHash op
    /\ res_status res = "success"%string
    /\ res_triggerKind res = Some (if present (ids t) i then reprice else new_order).
Proof.
  exists (success i op (if present (ids t) i then reprice else new_order)).
  split; [|repeat split].
  apply (event_result_in_batch env batch t op pool (first :: rest)); [exact Hop| |].
  { now apply prepare_allowed. }
  unfold legEffects. cbv zeta. rewrite map_app. apply in_or_app. left.
  unfold buyPlan, and_then.
  rewrite (op_pool_allowed op Hallowed), Hid, Hsell, Hroy, Hraw.
  destruct (royaltiesOnTop_returns p roy Hsafe) as [top ->]. cbn [toString].
  destruct (present (ids t) i) eqn:P; cbn [negb].
  - left. reflexivity.
  - destruct (Hnew eq_refl) as (ts & source & -> & Hts & ->).
    rewrite (require_tokenSetId_some ts Hts). left. reflexivity.
Qed.

Lemma buy_order_is_reconciled_witness :
  present (ids foundTable) (id cancelledBuyRow) = true
  /\ totalDefaultBps fivePercent = 500
  /\ exists res,
       In res (saved_results (save royaltyEnv [exampleEvent] foundTable))
       /\ res_id res = id cancelledBuyRow
       /\ res_txHash res = "0xabc"%string
       /\ res_status res = "success"%string
       /\ res_triggerKind res = Some reprice.
Proof.
  split; [reflexivity|]. split; [reflexivity|].
  apply (buy_order_is_reconciled plainDigest royaltyEnv [exampleEvent] foundTable
           exampleEvent examplePool (threeLevels 1) (map threeLevels (seq 2 9))
           9800 10000 fivePercent (id cancelledBuyRow));
    try reflexivity.
  - left. reflexivity.
  - intro H. discriminate H.
Defined.
